(** * Craggy Roughtime client: timestamp conversion and the session drivers

    A shallow embedding of
    - [library/CraggyTimeUtils.c], the timestamp converter;
    - [cli/main.c], the non-GNSS client: its option loop, its checks of the
      key and the nonce, and its request loop;
    - the [main.c] of the GNSS tester, the client that waits for a serial
      GNSS receiver before each exchange; and
    - the option loops of the two other testers,
    with the properties of them that the specification states.  The Craggy
    library proper (request encoding, transport, response validation) is
    not among the sources: the clients take it as a collaborator, and the
    validator is modelled from the specification. *)

From Stdlib Require Import ZArith Lia List String Bool.
From stdpp Require Import base list.
Import ListNotations.
Local Open Scope Z_scope.

(** ** Fixed-width C integers, carried by [Z] with the wrap-around written out *)

Module MachineInt.

Definition u8 (x : Z) : Z := x mod 2 ^ 8.
Definition u32 (x : Z) : Z := x mod 2 ^ 32.
Definition u64 (x : Z) : Z := x mod 2 ^ 64.

(** Conversion of a 64-bit pattern to [int64_t] (two's complement). *)
Definition to_int64 (x : Z) : Z :=
  let y := u64 x in if y <? 2 ^ 63 then y else y - 2 ^ 64.

Definition INT64_MIN : Z := - 2 ^ 63.

(** [x >> n] and [x << n] on [uint64_t]. *)
Definition shr64 (x n : Z) : Z := Z.shiftr x n.
Definition shl64 (x n : Z) : Z := u64 (Z.shiftl x n).

Definition in_u64 (x : Z) : Prop := 0 <= x < 2 ^ 64.

End MachineInt.
Import MachineInt.

(** ** [CraggyTypes.h] *)

(** Modelled from the spec: [CraggyTypes.h] is not part of the sources.  The
    only enumerator of [CraggyResult] the sources name is
    [CraggyResultSuccess]; every other enumerator is kept as its numeric
    code. *)
Inductive CraggyResult : Type :=
| CraggyResultSuccess
| CraggyResultError (code : Z).

(** Modelled from the spec: [craggy_roughtime_result] is declared in the
    absent [CraggyTypes.h]; the unit test assigns its fields [time] (a
    64-bit MIDP value) and [radius]. *)
Record craggy_roughtime_result : Type := {
  time : Z;
  radius : Z
}.

(** Modelled from the spec: the lengths are macros of the absent
    [CraggyTypes.h]; the specification fixes both at 32 bytes. *)
Definition CRAGGY_ROUGH_TIME_PUBLIC_KEY_LENGTH : Z := 32.
Definition CRAGGY_ROUGH_TIME_NONCE_LENGTH : Z := 32.

(** ** [library/CraggyTimeUtils.c] *)

Module CraggyTimeUtils.

Definition NUMBER_OF_JULIAN_DAYS_UNTIL_EPOCH : Z := 40587.
Definition NUMBER_OF_MICROSECONDS_IN_SECOND : Z := 1000000.
Definition NUMBER_OF_SECONDS_IN_A_DAY : Z := 60 * 60 * 24.

(** The function returns its status and the value it stores in [*outTime].
    Both statements of the body are [uint64_t] arithmetic. *)
Definition craggy_roughtimeToEpoc
    (roughtimeResult : craggy_roughtime_result) (serverRoundTripUs : Z)
  : CraggyResult * Z :=
  let t := time roughtimeResult in
  let outTime :=
    u64 (u64 (shr64 t 40 - NUMBER_OF_JULIAN_DAYS_UNTIL_EPOCH)
         * NUMBER_OF_SECONDS_IN_A_DAY) in
  let outTime :=
    u64 (outTime
         + u64 (shr64 (shl64 t 24) 24 + serverRoundTripUs / 2)
           / NUMBER_OF_MICROSECONDS_IN_SECOND) in
  (CraggyResultSuccess, outTime).

(** The fields of a raw timestamp. *)
Definition mjd_of (raw : Z) : Z := raw / 2 ^ 40.
Definition us_since_midnight_of (raw : Z) : Z := raw mod 2 ^ 40.

(** The conversion in unbounded integers: whole seconds since the epoch. *)
Definition exact_epoch_seconds (raw round_trip_us : Z) : Z :=
  (mjd_of raw - 40587) * 86400
  + (us_since_midnight_of raw + round_trip_us / 2) / 1000000.

(** The value the specification's section 4.5 describes: epoch
    microseconds. *)
Definition spec_epoch_microseconds (raw round_trip_us : Z) : Z :=
  (mjd_of raw - 40587) * 86400 * 1000000
  + (us_since_midnight_of raw + round_trip_us / 2).

(** The value the specification's round-trip fixture describes. *)
Definition spec_fixture_seconds (raw round_trip_us : Z) : Z :=
  ((mjd_of raw - 40587) * 86400000000
   + us_since_midnight_of raw + round_trip_us / 2) / 1000000.

(** The requirement of the specification's sections 7 and 9: a conversion
    whose day subtraction wraps does not report success. *)
Definition overflow_is_rejected (raw round_trip_us : Z) : Prop :=
  mjd_of raw < 40587 ->
  fst (craggy_roughtimeToEpoc {| time := raw; radius := 0 |} round_trip_us)
  <> CraggyResultSuccess.

End CraggyTimeUtils.
Import CraggyTimeUtils.


(** ** Memory: [malloc]ed blocks and the global [simulator.port_name] *)

Module Memory.

(** A block returned by [malloc]: its size in bytes and the C string it
    holds, if one has been written. *)
Record block : Type := {
  capacity : nat;
  contents : option string
}.

Inductive pointer : Type :=
| NULL
| HeapBlock (b : nat)
| PortName.                     (* simulator.port_name, a char[256] *)

Record memory : Type := {
  heap : list block;
  port_name : option string
}.

Definition empty_memory : memory := {| heap := []; port_name := None |}.

Definition strlen (s : string) : nat := String.length s.

(** [malloc n]: a fresh block at the end of the heap. *)
Definition malloc (m : memory) (n : nat) : memory * pointer :=
  ({| heap := heap m ++ [ {| capacity := n; contents := None |} ];
      port_name := port_name m |},
   HeapBlock (List.length (heap m))).

(** [strcpy dst src]: the string and its terminator are written at [dst].
    [None] when the C standard leaves the call undefined: [dst] is null or
    dangling, or the destination is too small. *)
Definition strcpy (m : memory) (dst : pointer) (src : string) : option memory :=
  match dst with
  | NULL => None
  | HeapBlock b =>
      match heap m !! b with
      | Some blk =>
          if (strlen src + 1 <=? capacity blk)%nat
          then Some {| heap := <[ b := {| capacity := capacity blk;
                                          contents := Some src |} ]> (heap m);
                       port_name := port_name m |}
          else None
      | None => None
      end
  | PortName =>
      if (strlen src + 1 <=? 256)%nat
      then Some {| heap := heap m; port_name := Some src |}
      else None
  end.

(** The C string a pointer designates. *)
Definition load (m : memory) (p : pointer) : option string :=
  match p with
  | NULL => None
  | HeapBlock b =>
      match heap m !! b with
      | Some blk => contents blk
      | None => None
      end
  | PortName => port_name m
  end.

Definition is_null (p : pointer) : bool :=
  match p with NULL => true | _ => false end.

End Memory.
Import Memory.

(** ** What a run does and what it is given *)

Inductive clockid : Type := CLOCK_MONOTONIC | CLOCK_REALTIME.

Record timespec : Type := {
  tv_sec : Z;
  tv_nsec : Z
}.

(** The lines the clients print or log. *)
Inductive message : Type :=
| MsgOption (name : string) (arg : option string)
| MsgPollEvery (seconds : Z)
| MsgPollFor (times : Z)
| MsgUsage
| MsgPublicKeyLength (got : Z)
| MsgNonceLength (got : Z)
| MsgNonceError (r : CraggyResult)
| MsgStart
| MsgParseError (r : CraggyResult)
| MsgReplyIn (us : Z)
| MsgCurrentTime (timestamp radius : Z)
| MsgSystemOffset (offset : Z)
| MsgRequestError (r : CraggyResult)
| MsgStop
| MsgGpsThreadTimeout
| MsgGpsThreadStarted
| MsgCraggyTimestamp (timestamp : Z)
| MsgGpsTimestamp
| MsgRadiusAndDelta (radius : Z)
| MsgTerminating.

Inductive event : Type :=
| Printf (m : message)
| ClockGettime (clock : clockid) (us : Z)
| CreateRequest (nonce : list Z)
| MakeRequest (host : string) (request : list Z)
| Sleep (seconds : Z).

(** The environment of a run.  Calls are answered by their number, so that
    successive readings of a clock may differ. *)
Record world : Type := {
  clock_gettime : clockid -> nat -> option timespec;
  craggy_generateNonce : list Z + CraggyResult;
  craggy_makeRequest : nat -> string -> list Z -> list Z + CraggyResult;
  tp_lock : nat -> bool;
  gps_thread_timed_out : bool
}.

(** The functions of [base64.c], the C library and the Craggy library that
    the clients call and that depend on their arguments only.
    - [base64_decode src] is the decoded buffer, whose length the C function
      stores in [*out_len]; [None] when it returns a null pointer and leaves
      [*out_len] as it was.
    - [craggy_createRequest nonce] is the request written to [requestBuf],
      [None] when the C function returns false.
    - [craggy_processResponse nonce rootPublicKey response] is the pair
      [(timestamp, radius)] when the C function returns true and the value
      of [craggyResult] when it returns false. *)
Class Externals : Type := {
  base64_decode : string -> option (list Z);
  atoi : string -> Z;
  craggy_createRequest : list Z -> option (list Z);
  craggy_processResponse : list Z -> list Z -> list Z -> (Z * Z) + CraggyResult
}.

(** How control leaves the straight-line flow of [main]. *)
Inductive exit : Type :=
| Return (status : Z)           (* a [return] statement of [main] *)
| GotoError                     (* [goto error] *)
| CallAbort                     (* [abort()], or an assertion that fails *)
| UndefinedBehaviour            (* the C standard gives the run no meaning *)
| OutOfFuel.                    (* the bound on the polling loop is reached *)

Record state : Type := {
  trace : list event;
  monotonic_calls : nat;
  realtime_calls : nat;
  request_calls : nat;
  tp_lock_reads : nat
}.

Definition initial_state : state :=
  {| trace := []; monotonic_calls := 0; realtime_calls := 0;
     request_calls := 0; tp_lock_reads := 0 |}.

(** Computations of [main]: a state transformer that either yields a value
    or leaves through an [exit]. *)
Definition M (A : Type) : Type := state -> (A + exit) * state.

Definition ret {A : Type} (a : A) : M A := fun s => (inl a, s).

Definition bind {A B : Type} (c : M A) (k : A -> M B) : M B :=
  fun s => match c s with
           | (inl a, s') => k a s'
           | (inr e, s') => (inr e, s')
           end.

Definition raise {A : Type} (e : exit) : M A := fun s => (inr e, s).

Definition record_events (evs : list event) (s : state) : state :=
  {| trace := trace s ++ evs;
     monotonic_calls := monotonic_calls s;
     realtime_calls := realtime_calls s;
     request_calls := request_calls s;
     tp_lock_reads := tp_lock_reads s |}.

Definition emit (e : event) : M unit :=
  fun s => (inl tt, record_events [e] s).

Definition printf (m : message) : M unit := emit (Printf m).

(** The statements after the label [error] run when the body left through
    [goto error]. *)
Definition on_goto_error {A : Type} (body : M A) (handler : M A) : M A :=
  fun s => match body s with
           | (inr GotoError, s') => handler s'
           | r => r
           end.

(** The end of both [main]s.  [body] is the code up to [goto exit]; it
    falls through to the label [exit], or arrives at the label [error],
    whose [assert(result != 0)] precedes [exit].  After [exit] the function
    returns [status]: [result] in the non-GNSS client, the constant 0 in
    the GNSS tester. *)
Definition error_and_exit_labels (result status : Z) (body : M unit) : M Z :=
  bind (on_goto_error body
          (if result =? 0 then raise CallAbort else ret tt))
       (fun _ => ret status).

(** The computation executes no [return] statement. *)
Definition no_return {A : Type} (c : M A) : Prop :=
  forall s e s', c s = (inr e, s') -> forall status, e <> Return status.

(** A value that the C standard defines only in some cases. *)
Definition defined {A : Type} (o : option A) : M A :=
  match o with
  | Some a => ret a
  | None => raise UndefinedBehaviour
  end.

Declare Scope craggy_scope.
Delimit Scope craggy_scope with craggy.
Notation "x <- c ;; k" := (bind c (fun x => k))
  (at level 100, c at next level, right associativity) : craggy_scope.
Notation "c ;;; k" := (bind c (fun _ => k))
  (at level 100, right associativity) : craggy_scope.
Local Open Scope craggy_scope.

(** ** The clients: [cli/main.c] and the GNSS tester's [main.c] *)

(** What [getopt_long] returns: the option character and [optarg]. *)
Inductive optchar : Type :=
| Opt_0 (name : string)
| Opt_h
| Opt_k
| Opt_n
| Opt_i
| Opt_r
| Opt_p
| Opt_unknown.                  (* '?' *)

(** The four [main.c] of the repository: [cli/main.c]; the GNSS tester
    with the UBX thread; the tester that reads the receiver with rtklib;
    and [craggy-serial/roughtest].  Their option loops differ in the case
    ['p'] only. *)
Inductive variant : Type :=
| NonGnss
| GnssTester
| RtklibTester
| SerialRoughtest.

(** The local variables of [main] that the option loop assigns, and the
    memory they point into. *)
Record vars : Type := {
  hostname : pointer;
  nonce : pointer;
  publicKey : pointer;
  gpsPort : pointer;
  repeats : Z;
  intervals : Z;
  mem : memory
}.

Definition initial_vars : vars :=
  {| hostname := NULL; nonce := NULL; publicKey := NULL; gpsPort := NULL;
     repeats := 1; intervals := 1; mem := empty_memory |}.

Definition set_hostname (p : pointer) (x : vars) : vars :=
  {| hostname := p; nonce := nonce x; publicKey := publicKey x;
     gpsPort := gpsPort x; repeats := repeats x; intervals := intervals x;
     mem := mem x |}.

Definition set_nonce (p : pointer) (x : vars) : vars :=
  {| hostname := hostname x; nonce := p; publicKey := publicKey x;
     gpsPort := gpsPort x; repeats := repeats x; intervals := intervals x;
     mem := mem x |}.

Definition set_publicKey (p : pointer) (x : vars) : vars :=
  {| hostname := hostname x; nonce := nonce x; publicKey := p;
     gpsPort := gpsPort x; repeats := repeats x; intervals := intervals x;
     mem := mem x |}.

Definition set_gpsPort (p : pointer) (x : vars) : vars :=
  {| hostname := hostname x; nonce := nonce x; publicKey := publicKey x;
     gpsPort := p; repeats := repeats x; intervals := intervals x;
     mem := mem x |}.

Definition set_repeats (n : Z) (x : vars) : vars :=
  {| hostname := hostname x; nonce := nonce x; publicKey := publicKey x;
     gpsPort := gpsPort x; repeats := n; intervals := intervals x;
     mem := mem x |}.

Definition set_intervals (n : Z) (x : vars) : vars :=
  {| hostname := hostname x; nonce := nonce x; publicKey := publicKey x;
     gpsPort := gpsPort x; repeats := repeats x; intervals := n;
     mem := mem x |}.

Definition set_mem (m : memory) (x : vars) : vars :=
  {| hostname := hostname x; nonce := nonce x; publicKey := publicKey x;
     gpsPort := gpsPort x; repeats := repeats x; intervals := intervals x;
     mem := m |}.

Definition kTenMinutes : Z := 10 * 60 * 1000000.

(** [imaxabs]: undefined at [INT64_MIN], whose absolute value [intmax_t]
    does not hold. *)
Definition imaxabs (x : Z) : option Z :=
  if x =? INT64_MIN then None else Some (Z.abs x).

(** The length [base64_decode] leaves in a length variable initialised to 0. *)
Definition decoded_length (decoded : option (list Z)) : Z :=
  match decoded with
  | Some bytes => Z.of_nat (List.length bytes)
  | None => 0
  end.

(** [memcpy dst src n] on byte arrays. *)
Definition memcpy (dst src : list Z) (n : nat) : list Z :=
  firstn n src ++ skipn n dst.

Section Clients.

Context `{Externals} (w : world).

(** One body for the option [switch] of the clients.  The non-GNSS client
    has no case ['p'] and reaches [default: abort()]. *)
Definition handle_option (v : variant) (c : optchar) (optarg : option string)
    (x : vars) : M vars :=
  match c with
  | Opt_0 name =>
      printf (MsgOption name optarg) ;;; ret x
  | Opt_h =>
      arg <- defined optarg ;;
      let (m, p) := malloc (mem x) (strlen arg + 1) in
      m <- defined (strcpy m p arg) ;;
      ret (set_mem m (set_hostname p x))
  | Opt_n =>
      arg <- defined optarg ;;
      let (m, _) := malloc (mem x) (strlen arg + 1) in
      m <- defined (strcpy m (hostname x) arg) ;;
      ret (set_mem m (set_nonce (hostname x) x))
  | Opt_k =>
      arg <- defined optarg ;;
      let (m, p) := malloc (mem x) (strlen arg + 1) in
      m <- defined (strcpy m p arg) ;;
      ret (set_mem m (set_publicKey p x))
  | Opt_p =>
      match v with
      | NonGnss => raise CallAbort
      | GnssTester =>
          arg <- defined optarg ;;
          m <- defined (strcpy (mem x) PortName arg) ;;
          ret (set_mem m (set_gpsPort PortName x))
      | RtklibTester =>
          arg <- defined optarg ;;
          m <- defined (strcpy (mem x) PortName arg) ;;
          ret (set_mem m x)
      | SerialRoughtest =>
          arg <- defined optarg ;;
          let (m, p) := malloc (mem x) (strlen arg + 1) in
          m <- defined (strcpy m p arg) ;;
          ret (set_mem m (set_gpsPort p x))
      end
  | Opt_i =>
      arg <- defined optarg ;;
      let x := set_intervals (u8 (atoi arg)) x in
      printf (MsgPollEvery (intervals x)) ;;; ret x
  | Opt_r =>
      arg <- defined optarg ;;
      let x := set_repeats (u8 (atoi arg)) x in
      printf (MsgPollFor (repeats x)) ;;; ret x
  | Opt_unknown => ret x
  end.

(** The [while (1)] loop around [getopt_long], over the options it yields
    until it returns -1. *)
Fixpoint getopt_loop (v : variant) (options : list (optchar * option string))
    (x : vars) : M vars :=
  match options with
  | [] => ret x
  | (c, optarg) :: rest =>
      x <- handle_option v c optarg x ;; getopt_loop v rest x
  end.

Definition calls_of (clock : clockid) (s : state) : nat :=
  match clock with
  | CLOCK_MONOTONIC => monotonic_calls s
  | CLOCK_REALTIME => realtime_calls s
  end.

Definition count_clock_call (clock : clockid) (s : state) : state :=
  {| trace := trace s;
     monotonic_calls :=
       match clock with
       | CLOCK_MONOTONIC => S (monotonic_calls s)
       | CLOCK_REALTIME => monotonic_calls s
       end;
     realtime_calls :=
       match clock with
       | CLOCK_MONOTONIC => realtime_calls s
       | CLOCK_REALTIME => S (realtime_calls s)
       end;
     request_calls := request_calls s;
     tp_lock_reads := tp_lock_reads s |}.

(** The arithmetic of [TimeUs] on the [timespec] read, in [uint64_t]. *)
Definition microseconds_of (tv : timespec) : Z :=
  let ret := u64 (tv_sec tv) in
  let ret := u64 (ret * 1000000) in
  let ret := u64 (ret + Z.quot (tv_nsec tv) 1000) in
  ret.

(** [TimeUs]: the clock in microseconds; [abort()] when [clock_gettime]
    fails. *)
Definition TimeUs (clock : clockid) : M Z :=
  fun s =>
    match clock_gettime w clock (calls_of clock s) with
    | None => (inr CallAbort, count_clock_call clock s)
    | Some tv =>
        let ret := microseconds_of tv in
        (inl ret, record_events [ClockGettime clock ret] (count_clock_call clock s))
    end.

Definition MonotonicUs : M Z := TimeUs CLOCK_MONOTONIC.
Definition RealtimeUs : M Z := TimeUs CLOCK_REALTIME.

Definition count_request_call (s : state) : state :=
  {| trace := trace s;
     monotonic_calls := monotonic_calls s;
     realtime_calls := realtime_calls s;
     request_calls := S (request_calls s);
     tp_lock_reads := tp_lock_reads s |}.

(** The call [craggy_makeRequest(hostname, requestBuf, ...)]: the string at
    [hostname] is read when the call is made. *)
Definition call_makeRequest (m : memory) (hostname : pointer)
    (requestBuf : list Z) : M (list Z + CraggyResult) :=
  host <- defined (load m hostname) ;;
  fun s =>
    (inl (craggy_makeRequest w (request_calls s) host requestBuf),
     record_events [MakeRequest host requestBuf] (count_request_call s)).

(** A read of [simulator.tp_lock], which the GNSS thread sets. *)
Definition read_tp_lock : M bool :=
  fun s =>
    (inl (tp_lock w (tp_lock_reads s)),
     {| trace := trace s;
        monotonic_calls := monotonic_calls s;
        realtime_calls := realtime_calls s;
        request_calls := request_calls s;
        tp_lock_reads := S (tp_lock_reads s) |}).

(** Decoding of the root public key; both clients have the same text. *)
Definition decode_public_key (m : memory) (publicKey : pointer) : M (list Z) :=
  key <- defined (load m publicKey) ;;
  let decoded := base64_decode key in
  let base64DecodedRootPublicKeyLen := decoded_length decoded in
  if negb (base64DecodedRootPublicKeyLen =? CRAGGY_ROUGH_TIME_PUBLIC_KEY_LENGTH)
  then printf (MsgPublicKeyLength base64DecodedRootPublicKeyLen) ;;;
       raise GotoError
  else
    bytes <- defined decoded ;;
    ret (firstn (Z.to_nat CRAGGY_ROUGH_TIME_PUBLIC_KEY_LENGTH) bytes).

(** The nonce: decoded from [--nonce] when [nonce] is not null, generated
    otherwise; both clients have the same text. *)
Definition prepare_nonce (m : memory) (nonce : pointer) : M (list Z) :=
  let nonceBytes := repeat 1 (Z.to_nat CRAGGY_ROUGH_TIME_NONCE_LENGTH) in
  if negb (is_null nonce) then
    text <- defined (load m nonce) ;;
    let decoded := base64_decode text in
    let outLen := decoded_length decoded in
    if negb (outLen =? CRAGGY_ROUGH_TIME_NONCE_LENGTH)
    then printf (MsgNonceLength outLen) ;;; raise GotoError
    else
      decodedNonceBytes <- defined decoded ;;
      ret (memcpy nonceBytes decodedNonceBytes (Z.to_nat outLen))
  else
    match craggy_generateNonce w with
    | inl bytes => ret bytes
    | inr craggyResult => printf (MsgNonceError craggyResult) ;;; raise GotoError
    end.

(** *** [cli/main.c], the non-GNSS client *)

(** The statements between the START and STOP markers. *)
Definition exchange_cli (m : memory) (hostname : pointer)
    (nonceBytes rootPublicKey requestBuf : list Z) : M unit :=
  printf MsgStart ;;;
  start_us <- MonotonicUs ;;
  response <- call_makeRequest m hostname requestBuf ;;
  match response with
  | inl responseBuf =>
      match craggy_processResponse nonceBytes rootPublicKey responseBuf with
      | inr craggyResult =>
          printf (MsgParseError craggyResult) ;;; raise GotoError
      | inl (timestamp, radius) =>
          end_us <- MonotonicUs ;;
          end_realtime_us <- RealtimeUs ;;
          let timestamp := u64 (timestamp + u64 (end_us - start_us) / 2) in
          printf (MsgReplyIn (u64 (end_us - start_us))) ;;;
          printf (MsgCurrentTime timestamp radius) ;;;
          let system_offset := to_int64 (timestamp - end_realtime_us) in
          printf (MsgSystemOffset system_offset) ;;;
          distance <- defined (imaxabs system_offset) ;;
          if distance >? kTenMinutes then raise GotoError else ret tt
      end
  | inr craggyResult =>
      printf (MsgRequestError craggyResult) ;;; raise GotoError
  end ;;;
  printf MsgStop.

(** [while (repeats > 0)], by the value of the 8-bit counter.  The request
    an exchange sends is the one [craggy_createRequest] has just written. *)
Fixpoint request_loop (repeats : nat) (m : memory) (hostname : pointer)
    (nonceBytes rootPublicKey : list Z) (intervals : Z) : M unit :=
  match repeats with
  | O => ret tt
  | S repeats' =>
      emit (CreateRequest nonceBytes) ;;;
      match craggy_createRequest nonceBytes with
      | Some requestBuf =>
          exchange_cli m hostname nonceBytes rootPublicKey requestBuf
      | None => ret tt
      end ;;;
      emit (Sleep intervals) ;;;
      request_loop repeats' m hostname nonceBytes rootPublicKey intervals
  end.

(** From the decoding of the key to the end of the loop. *)
Definition session_cli (x : vars) : M unit :=
  let intervals := if repeats x =? 1 then 0 else intervals x in
  rootPublicKey <- decode_public_key (mem x) (publicKey x) ;;
  nonceBytes <- prepare_nonce (mem x) (nonce x) ;;
  request_loop (Z.to_nat (repeats x)) (mem x) (hostname x)
    nonceBytes rootPublicKey intervals.

Definition main_cli (options : list (optchar * option string)) : M Z :=
  let result := 1 in
  x <- getopt_loop NonGnss options initial_vars ;;
  if is_null (publicKey x) || is_null (hostname x) || (repeats x <? 1)
  then printf MsgUsage ;;; raise (Return 1)
  else error_and_exit_labels result result (session_cli x).

(** *** The GNSS tester's [main.c] (the one with the UBX thread) *)

(** The statements between the START and STOP markers.  [start_us],
    [end_us] and [end_realtime_us] are [uint32_t]. *)
Definition exchange_gnss (m : memory) (hostname : pointer)
    (nonceBytes rootPublicKey requestBuf : list Z) : M unit :=
  printf MsgStart ;;;
  now <- MonotonicUs ;;
  let start_us := u32 now in
  response <- call_makeRequest m hostname requestBuf ;;
  match response with
  | inl responseBuf =>
      match craggy_processResponse nonceBytes rootPublicKey responseBuf with
      | inr craggyResult =>
          printf (MsgParseError craggyResult) ;;; raise GotoError
      | inl (timestamp, radius) =>
          now <- MonotonicUs ;;
          let end_us := u32 now in
          now <- RealtimeUs ;;
          let end_realtime_us := u32 now in
          let timestamp := u64 (timestamp + u32 (end_us - start_us) / 2) in
          printf (MsgCraggyTimestamp timestamp) ;;;
          printf MsgGpsTimestamp ;;;
          printf (MsgRadiusAndDelta radius)
      end
  | inr craggyResult =>
      printf (MsgRequestError craggyResult) ;;; raise GotoError
  end ;;;
  printf MsgStop.

(** [while (repeats > 0)]: an iteration that finds [tp_lock] clear changes
    nothing, so the loop is bounded by [fuel] iterations. *)
Fixpoint poll_loop (fuel : nat) (repeats : Z) (m : memory) (hostname : pointer)
    (nonceBytes rootPublicKey : list Z) : M unit :=
  if repeats >? 0 then
    match fuel with
    | O => raise OutOfFuel
    | S fuel' =>
        locked <- read_tp_lock ;;
        if locked : bool then
          emit (CreateRequest nonceBytes) ;;;
          match craggy_createRequest nonceBytes with
          | Some requestBuf =>
              exchange_gnss m hostname nonceBytes rootPublicKey requestBuf
          | None => ret tt
          end ;;;
          poll_loop fuel' (u8 (repeats - 1)) m hostname nonceBytes rootPublicKey
        else
          poll_loop fuel' repeats m hostname nonceBytes rootPublicKey
    end
  else ret tt.

(** From the decoding of the key to the line before [goto exit]. *)
Definition session_gnss (fuel : nat) (x : vars) : M unit :=
  rootPublicKey <- decode_public_key (mem x) (publicKey x) ;;
  nonceBytes <- prepare_nonce (mem x) (nonce x) ;;
  poll_loop fuel (repeats x) (mem x) (hostname x) nonceBytes rootPublicKey ;;;
  printf MsgTerminating.

Definition main_gnss (fuel : nat) (options : list (optchar * option string))
  : M Z :=
  let result := 1 in
  x <- getopt_loop GnssTester options initial_vars ;;
  if is_null (publicKey x) || is_null (hostname x) || is_null (gpsPort x)
  then printf MsgUsage ;;; raise (Return 1)
  else
    printf (if gps_thread_timed_out w
            then MsgGpsThreadTimeout else MsgGpsThreadStarted) ;;;
    error_and_exit_labels result 0 (session_gnss fuel x).

End Clients.

(** The status with which the process ends, when [main] returns. *)
Definition exit_status (r : Z + exit) : option Z :=
  match r with
  | inl status => Some status
  | inr (Return status) => Some status
  | inr _ => None
  end.

Definition is_network_event (e : event) : bool :=
  match e with
  | CreateRequest _ | MakeRequest _ _ => true
  | _ => false
  end.

(** No request is built or sent in a trace. *)
Definition no_network_activity (tr : list event) : Prop :=
  forallb (fun e => negb (is_network_event e)) tr = true.

Definition reports_time (e : event) : bool :=
  match e with
  | Printf (MsgCurrentTime _ _) | Printf (MsgCraggyTimestamp _) => true
  | _ => false
  end.

(** ** The response validator *)

Module ResponseValidator.

(** Modelled from the spec: the Craggy library's [craggy_processResponse]
    is not part of the sources.  This is the algorithm of the
    specification's section 4.4, over the decoded response of section 3;
    the wire decoder, the signature check and the two hash functions are
    the library's and stay abstract. *)
Record certificate : Type := {
  DELE : list Z;                (* the encoded delegation, as signed *)
  delegated_key : list Z;       (* the public key inside DELE *)
  CERT_SIG : list Z
}.

Record signed_response : Type := {
  ROOT : list Z;
  MIDP : Z;
  RADI : Z
}.

Record response : Type := {
  SIG : list Z;
  CERT : certificate;
  INDX : Z;
  PATH : list (list Z);         (* the 32-byte chunks of PATH *)
  SREP : list Z;                (* the encoded SREP, as signed *)
  srep : signed_response
}.

Inductive signing_context : Type := CertificateContext | ResponseContext.

Inductive VerifyError : Type :=
| MalformedResponse
| InvalidCertificateSignature
| InvalidResponseSignature
| MerklePathMismatch.

(** Modelled from the spec: the wire decoder of section 4.1, the Ed25519
    check with its two signing contexts, and the leaf and node hashes of
    the Merkle tree, all of the absent library. *)
Class Primitives : Type := {
  decode : list Z -> option response;
  ed25519_verify : signing_context -> list Z -> list Z -> list Z -> bool;
  leaf_hash : list Z -> list Z;
  node_hash : list Z -> list Z -> list Z
}.

Fixpoint bytes_eqb (a b : list Z) : bool :=
  match a, b with
  | [], [] => true
  | x :: a', y :: b' => (x =? y) && bytes_eqb a' b'
  | _, _ => false
  end.

Section Verify.

Context `{Primitives}.

(** Modelled from the spec: step 6 of section 4.4.  One bit of [INDX] per
    path element decides the order of the two hashes, and the index is
    shifted right. *)
Fixpoint walk_path (running : list Z) (index : Z) (path : list (list Z))
  : list Z :=
  match path with
  | [] => running
  | sibling :: rest =>
      let running :=
        if Z.testbit index 0
        then node_hash sibling running
        else node_hash running sibling in
      walk_path running (Z.shiftr index 1) rest
  end.

Definition certificate_ok (root_public_key : list Z) (r : response) : bool :=
  ed25519_verify CertificateContext root_public_key
    (DELE (CERT r)) (CERT_SIG (CERT r)).

Definition response_signature_ok (r : response) : bool :=
  ed25519_verify ResponseContext (delegated_key (CERT r)) (SREP r) (SIG r).

Definition merkle_path_ok (expected_nonce : list Z) (r : response) : bool :=
  bytes_eqb (walk_path (leaf_hash expected_nonce) (INDX r) (PATH r))
    (ROOT (srep r)).

(** Modelled from the spec: [craggy_processResponse] is absent from the
    sources; these are steps 1 to 7 of section 4.4, with the three checks
    in the order of steps 3, 4 and 6 and the midpoint and radius returned
    after them only.  The midpoint is returned as [MIDP] holds it: the
    conversion of section 4.5 takes the round trip, which only the session
    driver has (section 4.6). *)
Definition verify (response_bytes expected_nonce root_public_key : list Z)
  : (Z * Z) + VerifyError :=
  match decode response_bytes with
  | None => inr MalformedResponse
  | Some r =>
      if negb (certificate_ok root_public_key r)
      then inr InvalidCertificateSignature
      else if negb (response_signature_ok r)
      then inr InvalidResponseSignature
      else if negb (merkle_path_ok expected_nonce r)
      then inr MerklePathMismatch
      else inl (MIDP (srep r), RADI (srep r))
  end.

(** The three checks of steps 3, 4 and 6 on a response that decodes. *)
Definition all_checks_pass
    (response_bytes expected_nonce root_public_key : list Z) : bool :=
  match decode response_bytes with
  | None => false
  | Some r =>
      certificate_ok root_public_key r
      && response_signature_ok r
      && merkle_path_ok expected_nonce r
  end.

Definition error_code (e : VerifyError) : Z :=
  match e with
  | MalformedResponse => 1
  | InvalidCertificateSignature => 2
  | InvalidResponseSignature => 3
  | MerklePathMismatch => 4
  end.

(** Modelled from the spec: [verify] behind the C interface that the
    clients call; a failure becomes a [CraggyResult] other than success. *)
Definition processResponse (nonce rootPublicKey responseBuf : list Z)
  : (Z * Z) + CraggyResult :=
  match verify responseBuf nonce rootPublicKey with
  | inl result => inl result
  | inr e => inr (CraggyResultError (error_code e))
  end.

End Verify.

(** The clients' library with [craggy_processResponse] as specified. *)
Definition with_validator (P : Primitives) (E : Externals) : Externals :=
  {| base64_decode := @base64_decode E;
     atoi := @atoi E;
     craggy_createRequest := @craggy_createRequest E;
     craggy_processResponse := @processResponse P |}.

End ResponseValidator.

(** ** An answered and verified exchange *)

(** What the environment gives to one exchange that goes through: the host
    name read, the response, the verified midpoint and radius, and the three
    clock readings. *)
Record exchange_data : Type := {
  x_host : string;
  x_response : list Z;
  x_timestamp : Z;
  x_radius : Z;
  x_start : timespec;
  x_end : timespec;
  x_realtime : timespec
}.

Definition answered_and_verified `{Externals} (w : world) (m : memory)
    (hostname : pointer) (nonceBytes rootPublicKey requestBuf : list Z)
    (s : state) (d : exchange_data) : Prop :=
  load m hostname = Some (x_host d)
  /\ clock_gettime w CLOCK_MONOTONIC (monotonic_calls s) = Some (x_start d)
  /\ craggy_makeRequest w (request_calls s) (x_host d) requestBuf
     = inl (x_response d)
  /\ craggy_processResponse nonceBytes rootPublicKey (x_response d)
     = inl (x_timestamp d, x_radius d)
  /\ clock_gettime w CLOCK_MONOTONIC (S (monotonic_calls s)) = Some (x_end d)
  /\ clock_gettime w CLOCK_REALTIME (realtime_calls s) = Some (x_realtime d).

Definition start_us (d : exchange_data) : Z := microseconds_of (x_start d).
Definition end_us (d : exchange_data) : Z := microseconds_of (x_end d).
Definition end_realtime_us (d : exchange_data) : Z :=
  microseconds_of (x_realtime d).

(** The values the non-GNSS client computes from them. *)
Definition round_trip (d : exchange_data) : Z := u64 (end_us d - start_us d).
Definition estimate (d : exchange_data) : Z :=
  u64 (x_timestamp d + round_trip d / 2).
Definition system_offset (d : exchange_data) : Z :=
  to_int64 (estimate d - end_realtime_us d).

(** The events of the non-GNSS exchange up to its offset check. *)
Definition report_cli (requestBuf : list Z) (d : exchange_data) : list event :=
  [ Printf MsgStart;
    ClockGettime CLOCK_MONOTONIC (start_us d);
    MakeRequest (x_host d) requestBuf;
    ClockGettime CLOCK_MONOTONIC (end_us d);
    ClockGettime CLOCK_REALTIME (end_realtime_us d);
    Printf (MsgReplyIn (round_trip d));
    Printf (MsgCurrentTime (estimate d) (x_radius d));
    Printf (MsgSystemOffset (system_offset d)) ].

(** The correction and the estimate of the GNSS tester. *)
Definition correction_gnss (d : exchange_data) : Z :=
  u32 (u32 (end_us d) - u32 (start_us d)) / 2.
Definition estimate_gnss (d : exchange_data) : Z :=
  u64 (x_timestamp d + correction_gnss d).

Definition report_gnss (requestBuf : list Z) (d : exchange_data) : list event :=
  [ Printf MsgStart;
    ClockGettime CLOCK_MONOTONIC (start_us d);
    MakeRequest (x_host d) requestBuf;
    ClockGettime CLOCK_MONOTONIC (end_us d);
    ClockGettime CLOCK_REALTIME (end_realtime_us d);
    Printf (MsgCraggyTimestamp (estimate_gnss d));
    Printf MsgGpsTimestamp;
    Printf (MsgRadiusAndDelta (x_radius d));
    Printf MsgStop ].

(** The state after the calls of one exchange and the events [evs]. *)
Definition after_exchange (evs : list event) (s : state) : state :=
  {| trace := trace s ++ evs;
     monotonic_calls := S (S (monotonic_calls s));
     realtime_calls := S (realtime_calls s);
     request_calls := S (request_calls s);
     tp_lock_reads := tp_lock_reads s |}.

(** ** A sample environment, on which the statements below are exercised *)

Module Sample.

Definition code_of (c : Ascii.ascii) : Z := Z.of_nat (Ascii.nat_of_ascii c).

(** The value of a character of the base64 alphabet. *)
Definition sextet (c : Ascii.ascii) : option Z :=
  let n := code_of c in
  if (65 <=? n) && (n <=? 90) then Some (n - 65)
  else if (97 <=? n) && (n <=? 122) then Some (n - 71)
  else if (48 <=? n) && (n <=? 57) then Some (n + 4)
  else if n =? 43 then Some 62
  else if n =? 47 then Some 63
  else None.

Definition is_pad (c : Ascii.ascii) : bool := code_of c =? 61.

Definition quantum (a b c d : Z) : list Z :=
  [a * 4 + b / 16; (b mod 16) * 16 + c / 4; (c mod 4) * 64 + d].

(** Base64 decoding of whole quanta, with [=] padding in the last one. *)
Fixpoint decode_quanta (cs : list Ascii.ascii) : option (list Z) :=
  match cs with
  | [] => Some []
  | a :: b :: c :: d :: rest =>
      match sextet a, sextet b with
      | Some va, Some vb =>
          match sextet c, sextet d, rest with
          | Some vc, Some vd, _ =>
              match decode_quanta rest with
              | Some bytes => Some (quantum va vb vc vd ++ bytes)
              | None => None
              end
          | Some vc, None, [] =>
              if is_pad d then Some (firstn 2 (quantum va vb vc 0)) else None
          | None, None, [] =>
              if is_pad c && is_pad d
              then Some (firstn 1 (quantum va vb 0 0)) else None
          | _, _, _ => None
          end
      | _, _ => None
      end
  | _ => None
  end.

Definition sample_base64_decode (src : string) : option (list Z) :=
  decode_quanta (list_ascii_of_string src).

(** Decimal digits at the start of a string, as [atoi] reads them. *)
Fixpoint digits (acc : Z) (cs : list Ascii.ascii) : Z :=
  match cs with
  | c :: rest =>
      let n := code_of c in
      if (48 <=? n) && (n <=? 57) then digits (acc * 10 + (n - 48)) rest
      else acc
  | [] => acc
  end.

Definition sample_atoi (s : string) : Z := digits 0 (list_ascii_of_string s).

(** A response of two numbers stands for a verified midpoint and radius. *)
Definition sample_externals : Externals :=
  {| base64_decode := sample_base64_decode;
     atoi := sample_atoi;
     craggy_createRequest := fun nonce => Some ([78; 79; 78; 67] ++ nonce);
     craggy_processResponse := fun _ _ responseBuf =>
       match responseBuf with
       | [midpoint; radius] => inl (midpoint, radius)
       | _ => inr (CraggyResultError 1)
       end |}.

(** A server whose midpoint is [midpoint], behind a round trip of
    [round_trip_us] microseconds, seen from a machine whose realtime clock
    reads [realtime_us]. *)
Definition timespec_of_us (us : Z) : timespec :=
  {| tv_sec := us / 1000000; tv_nsec := (us mod 1000000) * 1000 |}.

Definition sample_world (midpoint round_trip_us realtime_us : Z) : world :=
  {| clock_gettime := fun clock n =>
       match clock with
       | CLOCK_MONOTONIC =>
           Some (timespec_of_us (5000000000 + Z.of_nat n * round_trip_us))
       | CLOCK_REALTIME => Some (timespec_of_us realtime_us)
       end;
     craggy_generateNonce := inl (repeat 7 32%nat);
     craggy_makeRequest := fun _ _ _ => inl [midpoint; 10000];
     tp_lock := fun _ => true;
     gps_thread_timed_out := false |}.

(** What [sample_world] gives to the first exchange of a run. *)
Definition sample_data (host : string) (midpoint round_trip_us realtime_us : Z)
  : exchange_data :=
  {| x_host := host;
     x_response := [midpoint; 10000];
     x_timestamp := midpoint;
     x_radius := 10000;
     x_start := timespec_of_us 5000000000;
     x_end := timespec_of_us (5000000000 + round_trip_us);
     x_realtime := timespec_of_us realtime_us |}.

Definition sample_key : string :=
  "AAECAwQFBgcICQoLDA0ODxAREhMUFRYXGBkaGxwdHh8=".

Definition short_key : string := "AAECAwQFBgcICQoLDA0ODw==".

Definition sample_nonce : string :=
  "ICEiIyQlJicoKSorLC0uLzAxMjM0NTY3ODk6Ozw9Pj8=".

Definition nonce_of_31 : string :=
  "ICEiIyQlJicoKSorLC0uLzAxMjM0NTY3ODk6Ozw9Pg==".

Definition nonce_of_33 : string :=
  "ICEiIyQlJicoKSorLC0uLzAxMjM0NTY3ODk6Ozw9Pj9A".

Definition sample_host : string :=
  "roughtime.time-service.example.org.internal:2002".

(** A memory with the host name in its only block. *)
Definition sample_memory : memory :=
  {| heap := [ {| capacity := 49; contents := Some sample_host |} ];
     port_name := None |}.

Definition sample_request : list Z := [78; 79; 78; 67] ++ repeat 7 32%nat.

(** Toy primitives: a signature is the context tag, the key and the
    message; a hash is the sum of its input. *)
Definition context_tag (c : ResponseValidator.signing_context) : Z :=
  match c with
  | ResponseValidator.CertificateContext => 0
  | ResponseValidator.ResponseContext => 1
  end.

Definition sum_bytes (l : list Z) : Z := fold_right Z.add 0 l.

(** A response buffer of five bytes: the certificate signature (one byte
    that stands for the whole), the response signature, the root, the
    midpoint and the radius. *)
Definition sample_primitives : ResponseValidator.Primitives :=
  {| ResponseValidator.decode := fun bytes =>
       match bytes with
       | [cert_sig; sig; root; midp; radi] =>
           Some {| ResponseValidator.SIG := [sig];
                   ResponseValidator.CERT :=
                     {| ResponseValidator.DELE := [9];
                        ResponseValidator.delegated_key := [9];
                        ResponseValidator.CERT_SIG := [cert_sig] |};
                   ResponseValidator.INDX := 0;
                   ResponseValidator.PATH := [];
                   ResponseValidator.SREP := [root; midp; radi];
                   ResponseValidator.srep :=
                     {| ResponseValidator.ROOT := [root];
                        ResponseValidator.MIDP := midp;
                        ResponseValidator.RADI := radi |} |}
       | _ => None
       end;
     ResponseValidator.ed25519_verify := fun c key msg sig =>
       ResponseValidator.bytes_eqb sig
         [(context_tag c + sum_bytes key + sum_bytes msg) mod 256];
     ResponseValidator.leaf_hash := fun nonce => [sum_bytes nonce mod 256];
     ResponseValidator.node_hash := fun a b =>
       [(1 + sum_bytes a + 2 * sum_bytes b) mod 256] |}.

(** Two response buffers for the toy primitives, the key [sample_key]
    and the nonce of [sample_world]: one whose three checks pass, one whose
    response signature is wrong. *)
Definition genuine_response : list Z :=
  [249; 250; 224; 1625585148000000; 10000].

Definition forged_response : list Z :=
  [249; 5; 224; 1625585148000000; 10000].

Definition world_answering (responseBuf : list Z) : world :=
  {| clock_gettime := fun clock n =>
       match clock with
       | CLOCK_MONOTONIC =>
           Some (timespec_of_us (5000000000 + Z.of_nat n * 1000000))
       | CLOCK_REALTIME => Some (timespec_of_us 1625585148300000)
       end;
     craggy_generateNonce := inl (repeat 7 32%nat);
     craggy_makeRequest := fun _ _ _ => inl responseBuf;
     tp_lock := fun _ => true;
     gps_thread_timed_out := false |}.

Definition sample_key_bytes : list Z :=
  [0; 1; 2; 3; 4; 5; 6; 7; 8; 9; 10; 11; 12; 13; 14; 15; 16; 17; 18; 19; 20;
   21; 22; 23; 24; 25; 26; 27; 28; 29; 30; 31].

(** Command lines. *)
Definition host_and_key : list (optchar * option string) :=
  [(Opt_h, Some sample_host); (Opt_k, Some sample_key)].

Definition host_key_and_nonce (text : string)
  : list (optchar * option string) :=
  [(Opt_h, Some sample_host); (Opt_k, Some sample_key); (Opt_n, Some text)].

Definition key_only : list (optchar * option string) :=
  [(Opt_k, Some sample_key)].

Definition host_and_short_key : list (optchar * option string) :=
  [(Opt_h, Some sample_host); (Opt_k, Some short_key)].

(** The variables and the state when the option loop has returned. *)
Definition parsed (v : variant) (options : list (optchar * option string))
  : vars :=
  match @getopt_loop sample_externals v options initial_vars initial_state with
  | (inl x, _) => x
  | (inr _, _) => initial_vars
  end.

Definition parsed_state (v : variant)
    (options : list (optchar * option string)) : state :=
  snd (@getopt_loop sample_externals v options initial_vars initial_state).

End Sample.

(** ** Counting events, blocks and options *)

Definition is_create_request (e : event) : bool :=
  match e with CreateRequest _ => true | _ => false end.

Definition is_make_request (e : event) : bool :=
  match e with MakeRequest _ _ => true | _ => false end.

Definition is_sleep (e : event) : bool :=
  match e with Sleep _ => true | _ => false end.

Definition count (f : event -> bool) (evs : list event) : nat :=
  List.length (List.filter f evs).

(** The options whose case calls [malloc]. *)
Definition allocates (v : variant) (c : optchar) : bool :=
  match c with
  | Opt_h | Opt_k | Opt_n => true
  | Opt_p => match v with SerialRoughtest => true | _ => false end
  | _ => false
  end.

Definition allocations (v : variant) (options : list (optchar * option string))
  : nat :=
  List.length (List.filter (fun o => allocates v (fst o)) options).

(** The usage check of the GNSS tester. *)
Definition usage_gnss (x : vars) : bool :=
  is_null (publicKey x) || is_null (hostname x) || is_null (gpsPort x).

(** The events of an exchange of the non-GNSS client whose transport
    fails. *)
Definition report_transport_failure (host : string) (requestBuf : list Z)
    (start : timespec) (craggyResult : CraggyResult) : list event :=
  [ Printf MsgStart;
    ClockGettime CLOCK_MONOTONIC (microseconds_of start);
    MakeRequest host requestBuf;
    Printf (MsgRequestError craggyResult) ].

(** What one run of the request loop may record: requests made from the
    nonce [nonceBytes] and sent to [host]. *)
Definition sends_only `{Externals} (host : option string)
    (nonceBytes : list Z) (e : event) : Prop :=
  match e with
  | CreateRequest n => n = nonceBytes
  | MakeRequest h request =>
      host = Some h /\ craggy_createRequest nonceBytes = Some request
  | _ => True
  end.

(** The reads of [simulator.tp_lock] that find it set, among [reads] reads
    from the read number [from] on. *)
Fixpoint pulses_seen (w : world) (from reads : nat) : nat :=
  match reads with
  | O => 0
  | S reads' =>
      ((if tp_lock w from then 1 else 0) + pulses_seen w (S from) reads')%nat
  end.

(** A pointer that [main] may read a string from, or test against null. *)
Definition holds_string (m : memory) (p : pointer) : Prop :=
  p = NULL \/ exists str, load m p = Some str.

(** An event that is no [sleep], or a [sleep] of [seconds] seconds. *)
Definition sleeps_for (seconds : Z) (e : event) : Prop :=
  match e with
  | Sleep n => n = seconds
  | _ => True
  end.

(** ** [serial_api/serial.c]: [print_hex] *)

Module Serial.

(** The loop [while (x <= len)] of [print_hex], by the number of its
    turns: each turn logs [*s++].  [None] when a turn reads past the end
    of the buffer. *)
Fixpoint print_hex_turns (turns : nat) (s : list Z) : option (list Z) :=
  match turns with
  | O => Some []
  | S turns' =>
      match s with
      | [] => None
      | byte :: rest =>
          match print_hex_turns turns' rest with
          | Some logged => Some (byte :: logged)
          | None => None
          end
      end
  end.

(** [print_hex s len]: the bytes logged before the final newline.  [x]
    starts at 0, so the loop has [len + 1] turns for [len >= 0] and none
    for a negative [len]; with [len = INT_MAX] the test [x <= len] never
    fails and [x++] overflows. *)
Definition print_hex (s : list Z) (len : Z) : option (list Z) :=
  if len =? 2 ^ 31 - 1 then None
  else print_hex_turns (Z.to_nat (len + 1)) s.

End Serial.

(** ** [serial_api/driver_ubx.h] and [driver_ubx.c] *)

Module Ubx.

(** [#define UBX_MSGID(cls_, id_) (((cls_) << 8) | (id_))] *)
Definition UBX_MSGID (cls_ id_ : Z) : Z := Z.lor (Z.shiftl cls_ 8) id_.

(** [msgid = (buf[2] << 8) | buf[3]] of [ubx_parse], an [unsigned short]. *)
Definition msgid_of (class_byte id_byte : Z) : Z :=
  Z.lor (Z.shiftl class_byte 8) id_byte mod 2 ^ 16.

Section Prn.

(** [ubx2_to_prn] is declared in a header that is not among the sources;
    [ubx_to_prn] returns what it returns. *)
Variable ubx2_to_prn : Z -> Z -> Z.

(** [ubx_to_prn]: the value returned and the values left in [*gnssId] and
    [*svId], which are [unsigned char]. *)
Definition ubx_to_prn (ubx_PRN : Z) : Z * Z * Z :=
  let found (gnssId svId : Z) :=
    (ubx2_to_prn (u8 gnssId) (u8 svId), u8 gnssId, u8 svId) in
  if 1 >? ubx_PRN then (0, 0, 0)
  else if 32 >=? ubx_PRN then found 0 ubx_PRN
  else if 64 >=? ubx_PRN then found 3 (ubx_PRN - 27)
  else if 96 >=? ubx_PRN then found 6 (ubx_PRN - 64)
  else if 120 >? ubx_PRN then (0, 0, 0)
  else if 158 >=? ubx_PRN then found 1 ubx_PRN
  else if 163 >=? ubx_PRN then found 3 (ubx_PRN - 158)
  else if 173 >? ubx_PRN then (0, 0, 0)
  else if 182 >=? ubx_PRN then found 4 (ubx_PRN - 172)
  else if 193 >? ubx_PRN then (0, 0, 0)
  else if 199 >=? ubx_PRN then found 5 (ubx_PRN - 192)
  else if 211 >? ubx_PRN then (0, 0, 0)
  else if 246 >=? ubx_PRN then found 2 (ubx_PRN - 210)
  else (0, 0, 0).

End Prn.

(** The u-blox PRN numbers that [ubx_to_prn] maps to a constellation. *)
Definition known_prn (ubx_PRN : Z) : bool :=
  ((1 <=? ubx_PRN) && (ubx_PRN <=? 96))
  || ((120 <=? ubx_PRN) && (ubx_PRN <=? 163))
  || ((173 <=? ubx_PRN) && (ubx_PRN <=? 182))
  || ((193 <=? ubx_PRN) && (ubx_PRN <=? 199))
  || ((211 <=? ubx_PRN) && (ubx_PRN <=? 246)).

End Ubx.

(** ** More sample environments *)

Module Scenarios.

(** The transport fails with the code 7. *)
Definition world_without_network : world :=
  {| clock_gettime := clock_gettime (Sample.world_answering []);
     craggy_generateNonce := inl (repeat 7 32%nat);
     craggy_makeRequest := fun _ _ _ => inr (CraggyResultError 7);
     tp_lock := fun _ => true;
     gps_thread_timed_out := false |}.

(** The monotonic clock cannot be read. *)
Definition world_without_clock : world :=
  {| clock_gettime := fun _ _ => None;
     craggy_generateNonce := inl (repeat 7 32%nat);
     craggy_makeRequest := fun _ _ _ => inl Sample.genuine_response;
     tp_lock := fun _ => true;
     gps_thread_timed_out := false |}.

(** The random generator fails with the code 9. *)
Definition world_without_random : world :=
  {| clock_gettime := clock_gettime (Sample.world_answering []);
     craggy_generateNonce := inr (CraggyResultError 9);
     craggy_makeRequest := fun _ _ _ => inl Sample.genuine_response;
     tp_lock := fun _ => true;
     gps_thread_timed_out := false |}.

(** The GNSS thread never sets [tp_lock]. *)
Definition world_without_pulse : world :=
  {| clock_gettime := clock_gettime (Sample.world_answering []);
     craggy_generateNonce := inl (repeat 7 32%nat);
     craggy_makeRequest := fun _ _ _ => inl [1625585148000000; 10000];
     tp_lock := fun _ => false;
     gps_thread_timed_out := false |}.

(** A library whose [craggy_createRequest] fails. *)
Definition externals_without_request : Externals :=
  {| base64_decode := Sample.sample_base64_decode;
     atoi := Sample.sample_atoi;
     craggy_createRequest := fun _ => None;
     craggy_processResponse :=
       @craggy_processResponse Sample.sample_externals |}.

Definition with_repeats (text : string) : list (optchar * option string) :=
  Sample.host_and_key ++ [(Opt_r, Some text)].

Definition with_gps_port : list (optchar * option string) :=
  Sample.host_and_key ++ [(Opt_p, Some "/dev/ttyACM0"%string)].

Definition short_key_with_gps_port : list (optchar * option string) :=
  Sample.host_and_short_key ++ [(Opt_p, Some "/dev/ttyACM0"%string)].

(** A device name of 256 characters. *)
Definition long_port : string :=
  string_of_list_ascii (repeat (Ascii.ascii_of_nat 97) 256%nat).

End Scenarios.

(** ** Facts about the fixed-width integers *)

Lemma u64_range x : 0 <= u64 x < 2 ^ 64.
Proof. unfold u64. apply Z.mod_pos_bound. lia. Qed.

Lemma u32_range x : 0 <= u32 x < 2 ^ 32.
Proof. unfold u32. apply Z.mod_pos_bound. lia. Qed.

Lemma u64_small x : 0 <= x < 2 ^ 64 -> u64 x = x.
Proof. intros H. unfold u64. now apply Z.mod_small. Qed.

Lemma u64_idem x : u64 (u64 x) = u64 x.
Proof. unfold u64. apply Z.mod_mod. lia. Qed.

Lemma u64_add_l x y : u64 (u64 x + y) = u64 (x + y).
Proof. unfold u64. now rewrite Zplus_mod_idemp_l. Qed.

Lemma u64_mul_l x y : u64 (u64 x * y) = u64 (x * y).
Proof. unfold u64. now rewrite Zmult_mod_idemp_l. Qed.

(** A negative value above [-2^64] wraps to itself plus [2^64]. *)
Lemma u64_neg x : - 2 ^ 64 <= x < 0 -> u64 x = 2 ^ 64 + x.
Proof.
  intros H. unfold u64.
  symmetry. apply (Z.mod_unique_pos x (2 ^ 64) (-1)); lia.
Qed.

(** The upper 24 bits of a [uint64_t]. *)
Lemma shr64_40 x : shr64 x 40 = x / 2 ^ 40.
Proof. unfold shr64. now rewrite Z.shiftr_div_pow2 by lia. Qed.

(** [(x << 24) >> 24] keeps the lower 40 bits of a [uint64_t]. *)
Lemma low40 x : 0 <= x -> shr64 (shl64 x 24) 24 = x mod 2 ^ 40.
Proof.
  intros Hx. unfold shr64, shl64, u64.
  rewrite Z.shiftr_div_pow2, Z.shiftl_mul_pow2 by lia.
  replace (2 ^ 64) with (2 ^ 40 * 2 ^ 24) by reflexivity.
  rewrite Z.mul_mod_distr_r by lia.
  rewrite Z.div_mul by lia. reflexivity.
Qed.


(** ** Properties of the timestamp converter *)

Lemma mjd_range raw : in_u64 raw -> 0 <= mjd_of raw < 2 ^ 24.
Proof.
  unfold in_u64, mjd_of. intros H. split.
  - apply Z.div_pos; lia.
  - apply Z.div_lt_upper_bound; [lia|].
    replace (2 ^ 40 * 2 ^ 24) with (2 ^ 64) by reflexivity. lia.
Qed.

Lemma us_since_midnight_range raw : 0 <= us_since_midnight_of raw < 2 ^ 40.
Proof. unfold us_since_midnight_of. apply Z.mod_pos_bound. lia. Qed.

Lemma half_round_trip_range rt : in_u64 rt -> 0 <= rt / 2 < 2 ^ 63.
Proof.
  unfold in_u64. intros H. split.
  - apply Z.div_pos; lia.
  - apply Z.div_lt_upper_bound; [lia|].
    replace (2 * 2 ^ 63) with (2 ^ 64) by reflexivity. lia.
Qed.

Lemma seconds_part_range raw rt :
  in_u64 rt ->
  0 <= (us_since_midnight_of raw + rt / 2) / 1000000 < 2 ^ 63.
Proof.
  intros Hrt.
  pose proof (us_since_midnight_range raw) as Hus.
  pose proof (half_round_trip_range rt Hrt) as Hh.
  assert (2 ^ 40 = 1099511627776) as E40 by reflexivity.
  assert (2 ^ 63 = 9223372036854775808) as E63 by reflexivity.
  split.
  - apply Z.div_pos; lia.
  - apply Z.div_lt_upper_bound; lia.
Qed.

(** The converter, for every pair of 64-bit inputs, in closed form. *)
Lemma craggy_roughtimeToEpoc_closed_form raw rad rt :
  in_u64 raw -> in_u64 rt ->
  craggy_roughtimeToEpoc {| time := raw; radius := rad |} rt
  = (CraggyResultSuccess, u64 (exact_epoch_seconds raw rt)).
Proof.
  intros Hraw Hrt.
  unfold craggy_roughtimeToEpoc, exact_epoch_seconds; cbn [time].
  unfold NUMBER_OF_JULIAN_DAYS_UNTIL_EPOCH, NUMBER_OF_SECONDS_IN_A_DAY,
    NUMBER_OF_MICROSECONDS_IN_SECOND.
  rewrite shr64_40, low40 by (unfold in_u64 in Hraw; lia).
  fold (mjd_of raw) (us_since_midnight_of raw).
  pose proof (us_since_midnight_range raw) as Hus.
  pose proof (half_round_trip_range rt Hrt) as Hh.
  assert (2 ^ 40 = 1099511627776) as E40 by reflexivity.
  assert (2 ^ 63 = 9223372036854775808) as E63 by reflexivity.
  assert (2 ^ 64 = 18446744073709551616) as E64 by reflexivity.
  rewrite (u64_small (us_since_midnight_of raw + rt / 2)) by lia.
  rewrite u64_mul_l, u64_add_l.
  replace (60 * 60 * 24) with 86400 by reflexivity.
  reflexivity.
Qed.

(** ** The claims about the timestamp converter *)

(** C1.  On the fixture of the unit test, [time = 65312145749359830] with a
    round trip of 1000000 microseconds, the converter reports success and
    stores 1625585148, which is the value of
    [(days_since_epoch * 86_400_000_000 + microseconds_since_midnight
      + round_trip_us / 2) / 1_000_000] there. *)
Theorem C1_fixture_conversion :
  craggy_roughtimeToEpoc {| time := 65312145749359830; radius := 10000 |} 1000000
  = (CraggyResultSuccess, 1625585148)
  /\ spec_fixture_seconds 65312145749359830 1000000 = 1625585148.
Proof. split; vm_compute; reflexivity. Qed.

(** C2, as the specification states it, fails on the fixture: the converter
    stores whole seconds, 1625585148, where the specification's formula
    gives 1625585148337654 microseconds. *)
Lemma C2_seconds_not_microseconds :
  in_u64 65312145749359830 /\ in_u64 1000000
  /\ snd (craggy_roughtimeToEpoc
            {| time := 65312145749359830; radius := 10000 |} 1000000)
     = 1625585148
  /\ spec_epoch_microseconds 65312145749359830 1000000 = 1625585148337654
  /\ snd (craggy_roughtimeToEpoc
            {| time := 65312145749359830; radius := 10000 |} 1000000)
     <> spec_epoch_microseconds 65312145749359830 1000000.
Proof.
  unfold in_u64. repeat split; try (vm_compute; congruence).
Qed.

(** C2, amended.  For every 64-bit raw timestamp and round trip the upper 24
    bits are read as the Modified Julian Day and the lower 40 bits as the
    microseconds since midnight, and the converter reports success and
    stores epoch seconds: [(MJD - 40587) * 86400
    + (microseconds_since_midnight + round_trip_us / 2) / 1000000], reduced
    modulo 2^64; from day 40587 on the reduction changes nothing. *)
Theorem C2_converter_epoch_seconds raw rad rt :
  in_u64 raw -> in_u64 rt ->
  raw = mjd_of raw * 2 ^ 40 + us_since_midnight_of raw
  /\ 0 <= mjd_of raw < 2 ^ 24
  /\ 0 <= us_since_midnight_of raw < 2 ^ 40
  /\ craggy_roughtimeToEpoc {| time := raw; radius := rad |} rt
     = (CraggyResultSuccess,
        ((mjd_of raw - 40587) * 86400
         + (us_since_midnight_of raw + rt / 2) / 1000000) mod 2 ^ 64)
  /\ (40587 <= mjd_of raw ->
      craggy_roughtimeToEpoc {| time := raw; radius := rad |} rt
      = (CraggyResultSuccess,
         (mjd_of raw - 40587) * 86400
         + (us_since_midnight_of raw + rt / 2) / 1000000)).
Proof.
  intros Hraw Hrt.
  pose proof (mjd_range raw Hraw) as Hmjd.
  pose proof (us_since_midnight_range raw) as Hus.
  pose proof (seconds_part_range raw rt Hrt) as Hsec.
  pose proof (craggy_roughtimeToEpoc_closed_form raw rad rt Hraw Hrt) as Hc.
  unfold exact_epoch_seconds, u64 in Hc.
  repeat split; try lia; try exact Hc.
  - unfold mjd_of, us_since_midnight_of.
    rewrite (Z.div_mod raw (2 ^ 40)) at 1 by lia. lia.
  - intros Hday. rewrite Hc. f_equal.
    apply Z.mod_small.
    assert (2 ^ 24 = 16777216) as E24 by reflexivity.
    assert (2 ^ 63 = 9223372036854775808) as E63 by reflexivity.
    assert (2 ^ 64 = 18446744073709551616) as E64 by reflexivity.
    nia.
Qed.

Lemma C2_converter_epoch_seconds_witness :
  craggy_roughtimeToEpoc {| time := 65312145749359830; radius := 10000 |} 1000000
  = (CraggyResultSuccess,
     (mjd_of 65312145749359830 - 40587) * 86400
     + (us_since_midnight_of 65312145749359830 + 1000000 / 2) / 1000000).
Proof.
  refine (proj2 (proj2 (proj2 (proj2
    (C2_converter_epoch_seconds 65312145749359830 10000 1000000 _ _)))) _).
  - unfold in_u64. lia.
  - unfold in_u64. lia.
  - vm_compute. congruence.
Defined.

(** C4, as the specification states it, fails at the raw timestamp 0: its
    day field, 0, is below 40587, and the converter reports success with
    the wrapped value 2^64 - 40587 * 86400. *)
Lemma C4_wrapped_value_reported_as_success :
  ~ overflow_is_rejected 0 0
  /\ craggy_roughtimeToEpoc {| time := 0; radius := 0 |} 0
     = (CraggyResultSuccess, 18446744070202834816)
  /\ 18446744070202834816 = 2 ^ 64 - 40587 * 86400.
Proof.
  split; [|split; vm_compute; reflexivity].
  unfold overflow_is_rejected. intros Hclaim.
  apply Hclaim; vm_compute; reflexivity.
Qed.

(** C4, amended.  The converter has no error result: for every 64-bit raw
    timestamp and round trip it reports success.  When the day field is
    below 40587 the day subtraction wraps to [2^64 - (40587 - MJD)], and
    whenever the exact number of seconds is negative the value stored is
    that number plus 2^64. *)
Theorem C4_converter_wraps_silently raw rad rt :
  in_u64 raw -> in_u64 rt ->
  fst (craggy_roughtimeToEpoc {| time := raw; radius := rad |} rt)
  = CraggyResultSuccess
  /\ (mjd_of raw < 40587 ->
      u64 (shr64 raw 40 - NUMBER_OF_JULIAN_DAYS_UNTIL_EPOCH)
      = 2 ^ 64 - (40587 - mjd_of raw))
  /\ (exact_epoch_seconds raw rt < 0 ->
      snd (craggy_roughtimeToEpoc {| time := raw; radius := rad |} rt)
      = 2 ^ 64 + exact_epoch_seconds raw rt).
Proof.
  intros Hraw Hrt.
  pose proof (mjd_range raw Hraw) as Hmjd.
  pose proof (seconds_part_range raw rt Hrt) as Hsec.
  assert (2 ^ 64 = 18446744073709551616) as E64 by reflexivity.
  rewrite craggy_roughtimeToEpoc_closed_form by assumption.
  cbn [fst snd]. split; [reflexivity|]. split.
  - intros Hday. rewrite shr64_40. fold (mjd_of raw).
    unfold NUMBER_OF_JULIAN_DAYS_UNTIL_EPOCH.
    rewrite u64_neg by lia. lia.
  - intros Hneg. apply u64_neg.
    unfold exact_epoch_seconds in *. lia.
Qed.

Lemma C4_converter_wraps_silently_witness :
  snd (craggy_roughtimeToEpoc {| time := 0; radius := 0 |} 0)
  = 2 ^ 64 + exact_epoch_seconds 0 0.
Proof.
  refine (proj2 (proj2 (C4_converter_wraps_silently 0 0 0 _ _)) _).
  - unfold in_u64. lia.
  - unfold in_u64. lia.
  - vm_compute. reflexivity.
Defined.

(** ** Facts about the memory *)

Lemma load_heap_block_valid m b str :
  load m (HeapBlock b) = Some str -> (b < List.length (heap m))%nat.
Proof.
  cbn. destruct (heap m !! b) as [blk|] eqn:Hb; [|discriminate].
  intros _. apply lookup_lt_Some in Hb. exact Hb.
Qed.

(** [malloc] leaves every string in place. *)
Lemma load_malloc m n p str :
  load m p = Some str -> load (fst (malloc m n)) p = Some str.
Proof.
  destruct p as [|b|]; cbn; try easy.
  destruct (heap m !! b) as [blk|] eqn:Hb; [|discriminate].
  intros Hc. rewrite lookup_app_l by (apply lookup_lt_Some in Hb; exact Hb).
  rewrite Hb. exact Hc.
Qed.

(** A defined [strcpy] leaves its argument at the destination... *)
Lemma load_strcpy_same m dst src m' :
  strcpy m dst src = Some m' -> load m' dst = Some src.
Proof.
  destruct dst as [|b|]; cbn; [discriminate| |].
  - destruct (heap m !! b) as [blk|] eqn:Hb; [|discriminate].
    destruct (strlen src + 1 <=? capacity blk)%nat; [|discriminate].
    intros [= <-]. cbn.
    rewrite list_lookup_insert_eq by (apply lookup_lt_Some in Hb; exact Hb).
    reflexivity.
  - destruct (strlen src + 1 <=? 256)%nat; [|discriminate].
    intros [= <-]. reflexivity.
Qed.

(** ... and every other string in place. *)
Lemma load_strcpy_other m dst src m' p :
  strcpy m dst src = Some m' -> p <> dst -> load m' p = load m p.
Proof.
  destruct dst as [|b|]; cbn; [discriminate| |].
  - destruct (heap m !! b) as [blk|] eqn:Hb; [|discriminate].
    destruct (strlen src + 1 <=? capacity blk)%nat; [|discriminate].
    intros [= <-] Hp. destruct p as [|b'|]; cbn; try reflexivity.
    rewrite list_lookup_insert_ne by congruence. reflexivity.
  - destruct (strlen src + 1 <=? 256)%nat; [|discriminate].
    intros [= <-] Hp. destruct p as [|b'|]; cbn; try reflexivity.
    congruence.
Qed.

(** [strcpy] into a block that [malloc] has just returned. *)
Lemma strcpy_fresh m src :
  exists m',
    strcpy (fst (malloc m (strlen src + 1))) (snd (malloc m (strlen src + 1))) src
    = Some m'
    /\ List.length (heap m') = S (List.length (heap m)).
Proof.
  unfold malloc, strcpy. cbn [fst snd heap port_name].
  rewrite lookup_app_r by lia. rewrite Nat.sub_diag. cbn [lookup list_lookup capacity].
  rewrite Nat.leb_refl. eexists. split; [reflexivity|].
  cbn [heap]. rewrite length_insert, length_app. cbn. lia.
Qed.

Lemma pointer_eq_dec (p q : pointer) : {p = q} + {p <> q}.
Proof. decide equality. apply Nat.eq_dec. Qed.

(** ** Facts about the option loop *)

Lemma no_network_activity_printf tr msgs :
  no_network_activity tr -> no_network_activity (tr ++ map Printf msgs).
Proof.
  unfold no_network_activity. intros Htr.
  rewrite forallb_app, Htr. cbn.
  induction msgs as [|msg msgs IH]; cbn; [reflexivity | exact IH].
Qed.

Section OptionFacts.

Context `{Externals}.

Lemma getopt_loop_app v front back x s :
  getopt_loop v (front ++ back) x s
  = bind (getopt_loop v front x) (getopt_loop v back) s.
Proof.
  revert x s. induction front as [|[c optarg] front IH]; intros x s.
  - reflexivity.
  - cbn [app getopt_loop]. unfold bind.
    destruct (handle_option v c optarg x s) as [[x'|e] s']; [|reflexivity].
    rewrite IH. reflexivity.
Qed.

(** One option, case by case: a call that returns has had an argument
    where it reads one and a destination that holds it. *)
Lemma handle_option_cases v c optarg x s x' s' :
  handle_option v c optarg x s = (inl x', s') ->
  match c with
  | Opt_0 name =>
      x' = x /\ s' = record_events [Printf (MsgOption name optarg)] s
  | Opt_h =>
      exists arg m',
        optarg = Some arg
        /\ strcpy (fst (malloc (mem x) (strlen arg + 1)))
             (HeapBlock (List.length (heap (mem x)))) arg = Some m'
        /\ x' = set_mem m' (set_hostname (HeapBlock (List.length (heap (mem x)))) x)
        /\ s' = s
  | Opt_k =>
      exists arg m',
        optarg = Some arg
        /\ strcpy (fst (malloc (mem x) (strlen arg + 1)))
             (HeapBlock (List.length (heap (mem x)))) arg = Some m'
        /\ x' = set_mem m' (set_publicKey (HeapBlock (List.length (heap (mem x)))) x)
        /\ s' = s
  | Opt_n =>
      exists arg m',
        optarg = Some arg
        /\ strcpy (fst (malloc (mem x) (strlen arg + 1))) (hostname x) arg
           = Some m'
        /\ x' = set_mem m' (set_nonce (hostname x) x)
        /\ s' = s
  | Opt_p =>
      exists arg m',
        optarg = Some arg
        /\ s' = s
        /\ ((v = GnssTester
             /\ strcpy (mem x) PortName arg = Some m'
             /\ x' = set_mem m' (set_gpsPort PortName x))
            \/ (v = RtklibTester
                /\ strcpy (mem x) PortName arg = Some m'
                /\ x' = set_mem m' x)
            \/ (v = SerialRoughtest
                /\ strcpy (fst (malloc (mem x) (strlen arg + 1)))
                     (HeapBlock (List.length (heap (mem x)))) arg = Some m'
                /\ x' = set_mem m'
                          (set_gpsPort (HeapBlock (List.length (heap (mem x))))
                             x)))
  | Opt_i =>
      exists arg,
        optarg = Some arg
        /\ x' = set_intervals (u8 (atoi arg)) x
        /\ s' = record_events [Printf (MsgPollEvery (u8 (atoi arg)))] s
  | Opt_r =>
      exists arg,
        optarg = Some arg
        /\ x' = set_repeats (u8 (atoi arg)) x
        /\ s' = record_events [Printf (MsgPollFor (u8 (atoi arg)))] s
  | Opt_unknown => x' = x /\ s' = s
  end.
Proof.
  unfold handle_option, bind, printf, emit, defined, ret, raise.
  destruct c; try destruct optarg as [arg|]; try destruct v;
    cbn [malloc fst snd]; try discriminate;
    try (intros [= <- <-]; eauto 6; fail);
    (destruct (strcpy _ _ arg) as [m'|] eqn:Hcpy; intros [= <- <-];
     eauto 12).
Qed.

(** An option prints at most, whether it returns or not. *)
Lemma handle_option_trace v c optarg x s r s' :
  handle_option v c optarg x s = (r, s') ->
  exists msgs, trace s' = trace s ++ map Printf msgs.
Proof.
  unfold handle_option, bind, printf, emit, defined, ret, raise.
  destruct c; try destruct optarg as [arg|]; try destruct v;
    cbn [malloc fst snd];
    try (destruct (strcpy _ _ arg) as [m'|]);
    intros [= <- <-];
    try (exists []; cbn; now rewrite app_nil_r);
    try (eexists [_]; reflexivity).
Qed.

Lemma getopt_loop_trace v options x s r s' :
  getopt_loop v options x s = (r, s') ->
  exists msgs, trace s' = trace s ++ map Printf msgs.
Proof.
  revert x s. induction options as [|[c optarg] options IH]; intros x s.
  - intros [= <- <-]. exists []. cbn. now rewrite app_nil_r.
  - cbn [getopt_loop]. unfold bind.
    destruct (handle_option v c optarg x s) as [[x1|e] s1] eqn:Hstep.
    + intros Hrest.
      destruct (handle_option_trace _ _ _ _ _ _ _ Hstep) as [msgs1 Hs1].
      destruct (IH _ _ Hrest) as [msgs2 Hs2].
      exists (msgs1 ++ msgs2).
      rewrite Hs2, Hs1, map_app, app_assoc. reflexivity.
    + intros [= <- <-]. exact (handle_option_trace _ _ _ _ _ _ _ Hstep).
Qed.

(** Options other than ['h'] leave [hostname] as it is. *)
Lemma handle_option_hostname v c optarg x s x' s' :
  handle_option v c optarg x s = (inl x', s') ->
  c <> Opt_h -> hostname x' = hostname x.
Proof.
  intros Hstep Hc. apply handle_option_cases in Hstep.
  destruct c; try congruence;
    repeat match goal with
           | Hs : exists _, _ |- _ => destruct Hs
           | Hs : _ /\ _ |- _ => destruct Hs
           | Hs : _ \/ _ |- _ => destruct Hs
           end; subst; reflexivity.
Qed.

Lemma handle_option_publicKey v c optarg x s x' s' :
  handle_option v c optarg x s = (inl x', s') ->
  c <> Opt_k -> publicKey x' = publicKey x.
Proof.
  intros Hstep Hc. apply handle_option_cases in Hstep.
  destruct c; try congruence;
    repeat match goal with
           | Hs : exists _, _ |- _ => destruct Hs
           | Hs : _ /\ _ |- _ => destruct Hs
           | Hs : _ \/ _ |- _ => destruct Hs
           end; subst; reflexivity.
Qed.

Lemma handle_option_nonce v c optarg x s x' s' :
  handle_option v c optarg x s = (inl x', s') ->
  c <> Opt_n -> nonce x' = nonce x.
Proof.
  intros Hstep Hc. apply handle_option_cases in Hstep.
  destruct c; try congruence;
    repeat match goal with
           | Hs : exists _, _ |- _ => destruct Hs
           | Hs : _ /\ _ |- _ => destruct Hs
           | Hs : _ \/ _ |- _ => destruct Hs
           end; subst; reflexivity.
Qed.

(** A string in a heap block stays where it is, unless the option is ['n']
    and the block is the one [hostname] points to. *)
Lemma handle_option_load v c optarg x s x' s' b str :
  handle_option v c optarg x s = (inl x', s') ->
  load (mem x) (HeapBlock b) = Some str ->
  c <> Opt_n \/ hostname x <> HeapBlock b ->
  load (mem x') (HeapBlock b) = Some str.
Proof.
  intros Hstep Hload Hc. apply handle_option_cases in Hstep.
  pose proof (load_heap_block_valid _ _ _ Hload) as Hvalid.
  revert Hc.
  destruct c;
    repeat match goal with
           | Hs : exists _, _ |- _ => destruct Hs
           | Hs : _ /\ _ |- _ => destruct Hs
           | Hs : _ \/ _ |- _ => destruct Hs
           end; subst; intros Hc; cbn [mem set_mem]; try exact Hload;
    try (erewrite load_strcpy_other;
         [apply load_malloc; exact Hload|eassumption|];
         intros [= ->]; lia);
    try (erewrite load_strcpy_other; [exact Hload|eassumption|]; discriminate).
  erewrite load_strcpy_other; [apply load_malloc; exact Hload|eassumption|].
  destruct Hc as [Hc|Hc]; congruence.
Qed.

(** The option ['h'] points [hostname] to a fresh block with its argument. *)
Lemma handle_option_h v arg x s x' s' :
  handle_option v Opt_h (Some arg) x s = (inl x', s') ->
  hostname x' = HeapBlock (List.length (heap (mem x)))
  /\ load (mem x') (hostname x') = Some arg.
Proof.
  intros Hstep. apply handle_option_cases in Hstep.
  destruct Hstep as (arg' & m' & [= <-] & Hcpy & -> & ->).
  cbn. split; [reflexivity|].
  exact (load_strcpy_same _ _ _ _ Hcpy).
Qed.

(** The option ['k'] points [publicKey] to a fresh block with its argument. *)
Lemma handle_option_k v arg x s x' s' :
  handle_option v Opt_k (Some arg) x s = (inl x', s') ->
  load (mem x') (publicKey x') = Some arg.
Proof.
  intros Hstep. apply handle_option_cases in Hstep.
  destruct Hstep as (arg' & m' & [= <-] & Hcpy & -> & ->).
  cbn. exact (load_strcpy_same _ _ _ _ Hcpy).
Qed.

(** The option ['n'] copies its argument to where [hostname] points and
    points [nonce] there. *)
Lemma handle_option_n v arg x s x' s' :
  handle_option v Opt_n (Some arg) x s = (inl x', s') ->
  hostname x' = hostname x
  /\ nonce x' = hostname x
  /\ load (mem x') (hostname x) = Some arg.
Proof.
  intros Hstep. apply handle_option_cases in Hstep.
  destruct Hstep as (arg' & m' & [= <-] & Hcpy & -> & ->).
  cbn. repeat split.
  exact (load_strcpy_same _ _ _ _ Hcpy).
Qed.

(** The option ['n'] is defined as long as its argument fits the block
    that [hostname] points to... *)
Lemma handle_option_n_defined v arg x s b blk :
  hostname x = HeapBlock b ->
  heap (mem x) !! b = Some blk ->
  (strlen arg + 1 <= capacity blk)%nat ->
  exists x', handle_option v Opt_n (Some arg) x s = (inl x', s).
Proof.
  intros Hb Hblk Hfit. unfold handle_option, bind, defined, ret.
  cbn [malloc]. rewrite Hb. unfold strcpy. cbn [heap port_name].
  pose proof (lookup_app_l_Some _ [ {| capacity := (strlen arg + 1)%nat;
                                    contents := None |} ] _ _ Hblk) as Hl.
  rewrite Hl.
  apply Nat.leb_le in Hfit. rewrite Hfit. eauto.
Qed.

(** ... and overruns the block otherwise. *)
Lemma handle_option_n_overrun v arg x s b blk :
  hostname x = HeapBlock b ->
  heap (mem x) !! b = Some blk ->
  (capacity blk < strlen arg + 1)%nat ->
  handle_option v Opt_n (Some arg) x s = (inr UndefinedBehaviour, s).
Proof.
  intros Hb Hblk Hfit. unfold handle_option, bind, defined, ret, raise.
  cbn [malloc]. rewrite Hb. unfold strcpy. cbn [heap port_name].
  rewrite (lookup_app_l_Some _ [ {| capacity := strlen arg + 1;
                                    contents := None |} ] _ _ Hblk).
  apply Nat.leb_gt in Hfit. rewrite Hfit. reflexivity.
Qed.

End OptionFacts.

(** ** The option loop as a whole *)

Section LoopFacts.

Context `{Externals}.

Lemma getopt_loop_hostname v options :
  Forall (fun o => fst o <> Opt_h) options ->
  forall x s x' s',
    getopt_loop v options x s = (inl x', s') -> hostname x' = hostname x.
Proof.
  induction 1 as [|[c optarg] options Hc _ IH]; intros x s x' s'.
  - intros [= <- <-]. reflexivity.
  - cbn [getopt_loop]. unfold bind.
    destruct (handle_option v c optarg x s) as [[x1|e] s1] eqn:Hstep;
      [|discriminate].
    intros Hrest. rewrite (IH _ _ _ _ Hrest).
    exact (handle_option_hostname _ _ _ _ _ _ _ Hstep Hc).
Qed.

Lemma getopt_loop_publicKey v options :
  Forall (fun o => fst o <> Opt_k) options ->
  forall x s x' s',
    getopt_loop v options x s = (inl x', s') -> publicKey x' = publicKey x.
Proof.
  induction 1 as [|[c optarg] options Hc _ IH]; intros x s x' s'.
  - intros [= <- <-]. reflexivity.
  - cbn [getopt_loop]. unfold bind.
    destruct (handle_option v c optarg x s) as [[x1|e] s1] eqn:Hstep;
      [|discriminate].
    intros Hrest. rewrite (IH _ _ _ _ Hrest).
    exact (handle_option_publicKey _ _ _ _ _ _ _ Hstep Hc).
Qed.

(** Options other than ['h'] and ['n'] leave [hostname], [nonce] and the
    strings in the heap as they are. *)
Lemma getopt_loop_kept v options :
  Forall (fun o => fst o <> Opt_h /\ fst o <> Opt_n) options ->
  forall x s x' s' b str,
    getopt_loop v options x s = (inl x', s') ->
    load (mem x) (HeapBlock b) = Some str ->
    hostname x' = hostname x
    /\ nonce x' = nonce x
    /\ load (mem x') (HeapBlock b) = Some str.
Proof.
  induction 1 as [|[c optarg] options [Hh Hn] _ IH]; intros x s x' s' b str.
  - intros [= <- <-] Hload. auto.
  - cbn [getopt_loop]. unfold bind. cbn [fst] in Hh, Hn.
    destruct (handle_option v c optarg x s) as [[x1|e] s1] eqn:Hstep;
      [|discriminate].
    intros Hrest Hload.
    assert (load (mem x1) (HeapBlock b) = Some str) as Hload1
      by (eapply handle_option_load; eauto).
    destruct (IH _ _ _ _ _ _ Hrest Hload1) as (Hhost & Hnonce & Hkept).
    rewrite Hhost, Hnonce.
    rewrite (handle_option_hostname _ _ _ _ _ _ _ Hstep Hh).
    rewrite (handle_option_nonce _ _ _ _ _ _ _ Hstep Hn).
    auto.
Qed.

(** A block that holds a string holds one after any option. *)
Lemma handle_option_holds v c optarg x s x' s' b str :
  handle_option v c optarg x s = (inl x', s') ->
  load (mem x) (HeapBlock b) = Some str ->
  exists str', load (mem x') (HeapBlock b) = Some str'.
Proof.
  intros Hstep Hload.
  destruct (pointer_eq_dec (hostname x) (HeapBlock b)) as [Hsame|Hother].
  - destruct c;
      try (exists str; eapply handle_option_load; eauto;
           left; discriminate).
    pose proof (handle_option_cases _ _ _ _ _ _ _ Hstep)
      as (arg & m' & -> & _).
    destruct (handle_option_n _ _ _ _ _ _ Hstep) as (_ & _ & Harg).
    rewrite Hsame in Harg. eauto.
  - exists str. eapply handle_option_load; eauto.
Qed.

(** When the loop returns, [publicKey] is null or points to a string. *)
Lemma getopt_loop_publicKey_holds v options :
  forall x s x' s',
    getopt_loop v options x s = (inl x', s') ->
    (publicKey x = NULL
     \/ exists b str,
          publicKey x = HeapBlock b /\ load (mem x) (HeapBlock b) = Some str) ->
    publicKey x' = NULL
    \/ exists b str,
         publicKey x' = HeapBlock b /\ load (mem x') (HeapBlock b) = Some str.
Proof.
  induction options as [|[c optarg] options IH]; intros x s x' s'.
  - intros [= <- <-] Hx. exact Hx.
  - cbn [getopt_loop]. unfold bind.
    destruct (handle_option v c optarg x s) as [[x1|e] s1] eqn:Hstep;
      [|discriminate].
    intros Hrest Hx. apply (IH _ _ _ _ Hrest). clear IH Hrest.
    assert (c <> Opt_k ->
            publicKey x1 = NULL
            \/ exists b str,
                 publicKey x1 = HeapBlock b
                 /\ load (mem x1) (HeapBlock b) = Some str) as Hkeep.
    { intros Hc.
      rewrite (handle_option_publicKey _ _ _ _ _ _ _ Hstep Hc).
      destruct Hx as [Hnull|(b & str & Hb & Hload)]; [left; exact Hnull|].
      destruct (handle_option_holds _ _ _ _ _ _ _ _ _ Hstep Hload)
        as [str' Hload'].
      right. eauto. }
    destruct c; try (apply Hkeep; discriminate).
    pose proof (handle_option_cases _ _ _ _ _ _ _ Hstep)
      as (arg & m' & -> & _ & Hx1 & _).
    pose proof (handle_option_k _ _ _ _ _ _ Hstep) as Hload.
    right. exists (List.length (heap (mem x))), arg.
    assert (publicKey x1 = HeapBlock (List.length (heap (mem x)))) as Hpk
      by (rewrite Hx1; reflexivity).
    rewrite Hpk in Hload. auto.
Qed.

End LoopFacts.

(** ** Where [main] returns *)

Lemma no_return_ret {A : Type} (a : A) : no_return (ret a).
Proof. intros s e s'. unfold ret. discriminate. Qed.

Lemma no_return_raise {A : Type} (e : exit) :
  (forall status, e <> Return status) -> no_return (@raise A e).
Proof. intros He s e' s'. unfold raise. intros [= <- <-]. exact He. Qed.

Lemma no_return_emit (e : event) : no_return (emit e).
Proof. intros s e' s'. unfold emit. discriminate. Qed.

Lemma no_return_printf (m : message) : no_return (printf m).
Proof. apply no_return_emit. Qed.

Lemma no_return_defined {A : Type} (o : option A) : no_return (defined o).
Proof.
  destruct o; [apply no_return_ret|].
  apply no_return_raise. discriminate.
Qed.

Lemma no_return_bind {A B : Type} (c : M A) (k : A -> M B) :
  no_return c -> (forall a, no_return (k a)) -> no_return (bind c k).
Proof.
  intros Hc Hk s e s'. unfold bind.
  destruct (c s) as [[a|e1] s1] eqn:Hrun.
  - apply Hk.
  - intros [= <- <-]. exact (Hc _ _ _ Hrun).
Qed.

Create HintDb no_return.

#[local] Hint Resolve no_return_ret no_return_emit no_return_printf
  no_return_defined : no_return.

(** Splits a computation at its [bind]s and its case distinctions. *)
Ltac no_return_steps :=
  repeat first
    [ solve [auto with no_return]
    | apply no_return_bind; [|intros ?]
    | apply no_return_raise; discriminate
    | match goal with
      | |- no_return (match ?t with _ => _ end) => destruct t
      | |- no_return (let (_, _) := ?t in _) => destruct t
      end ].

Section ExitFacts.

Context `{Externals} (w : world).

Lemma no_return_TimeUs clock : no_return (TimeUs w clock).
Proof.
  intros s e s'. unfold TimeUs.
  destruct (clock_gettime w clock (calls_of clock s)); [discriminate|].
  intros [= <- <-]. discriminate.
Qed.

Lemma no_return_call_makeRequest m hostname requestBuf :
  no_return (call_makeRequest w m hostname requestBuf).
Proof.
  unfold call_makeRequest. apply no_return_bind; [auto with no_return|].
  intros host s e s'. discriminate.
Qed.

Lemma no_return_read_tp_lock : no_return (read_tp_lock w).
Proof. intros s e s'. unfold read_tp_lock. discriminate. Qed.

Lemma no_return_handle_option v c optarg x :
  no_return (handle_option v c optarg x).
Proof.
  unfold handle_option. destruct c; try destruct v; cbn [malloc];
    no_return_steps.
Qed.

Lemma no_return_getopt_loop v options x : no_return (getopt_loop v options x).
Proof.
  revert x. induction options as [|[c optarg] options IH]; intros x;
    cbn [getopt_loop].
  - apply no_return_ret.
  - apply no_return_bind; [apply no_return_handle_option|exact IH].
Qed.

Lemma no_return_decode_public_key m p : no_return (decode_public_key m p).
Proof. unfold decode_public_key. no_return_steps. Qed.

Lemma no_return_prepare_nonce m p : no_return (prepare_nonce w m p).
Proof. unfold prepare_nonce. no_return_steps. Qed.

#[local] Hint Resolve no_return_TimeUs no_return_call_makeRequest
  no_return_read_tp_lock no_return_decode_public_key
  no_return_prepare_nonce : no_return.

Lemma no_return_exchange_cli m hostname nonceBytes rootPublicKey requestBuf :
  no_return (exchange_cli w m hostname nonceBytes rootPublicKey requestBuf).
Proof.
  unfold exchange_cli, MonotonicUs, RealtimeUs. no_return_steps.
Qed.

Lemma no_return_exchange_gnss m hostname nonceBytes rootPublicKey requestBuf :
  no_return (exchange_gnss w m hostname nonceBytes rootPublicKey requestBuf).
Proof.
  unfold exchange_gnss, MonotonicUs, RealtimeUs. no_return_steps.
Qed.

Lemma no_return_request_loop repeats m hostname nonceBytes rootPublicKey
    intervals :
  no_return
    (request_loop w repeats m hostname nonceBytes rootPublicKey intervals).
Proof.
  induction repeats as [|repeats IH]; cbn [request_loop].
  - apply no_return_ret.
  - apply no_return_bind; [apply no_return_emit|intros _].
    apply no_return_bind.
    + destruct (craggy_createRequest nonceBytes);
        [apply no_return_exchange_cli|apply no_return_ret].
    + intros _. apply no_return_bind; [apply no_return_emit|intros _].
      exact IH.
Qed.

Lemma no_return_poll_loop fuel repeats m hostname nonceBytes rootPublicKey :
  no_return (poll_loop w fuel repeats m hostname nonceBytes rootPublicKey).
Proof.
  revert repeats. induction fuel as [|fuel IH]; intros repeats;
    cbn [poll_loop]; destruct (repeats >? 0);
    try apply no_return_ret; try (apply no_return_raise; discriminate).
  apply no_return_bind; [apply no_return_read_tp_lock|intros locked].
  destruct locked; [|apply IH].
  apply no_return_bind; [apply no_return_emit|intros _].
  apply no_return_bind; [|intros _; apply IH].
  destruct (craggy_createRequest nonceBytes);
    [apply no_return_exchange_gnss|apply no_return_ret].
Qed.

Lemma no_return_session_cli x : no_return (session_cli w x).
Proof.
  unfold session_cli.
  apply no_return_bind; [apply no_return_decode_public_key|intros rootPublicKey].
  apply no_return_bind; [apply no_return_prepare_nonce|intros nonceBytes].
  apply no_return_request_loop.
Qed.

Lemma no_return_session_gnss fuel x : no_return (session_gnss w fuel x).
Proof.
  unfold session_gnss.
  apply no_return_bind; [apply no_return_decode_public_key|intros rootPublicKey].
  apply no_return_bind; [apply no_return_prepare_nonce|intros nonceBytes].
  apply no_return_bind; [apply no_return_poll_loop|intros _].
  apply no_return_printf.
Qed.

(** After the labels, [main] returns [status] or does not return. *)
Lemma error_and_exit_labels_status status body s r s' st :
  no_return body ->
  error_and_exit_labels 1 status body s = (r, s') ->
  exit_status r = Some st -> st = status.
Proof.
  intros Hbody. unfold error_and_exit_labels, on_goto_error, bind.
  destruct (body s) as [[[]|e] s1] eqn:Hrun.
  - intros [= <- <-] [= <-]. reflexivity.
  - destruct e; cbn; try (intros [= <- <-]; discriminate).
    + exfalso. exact (Hbody _ _ _ Hrun status0 eq_refl).
    + intros [= <- <-] [= <-]. reflexivity.
Qed.

(** Whenever [main] of the non-GNSS client returns, it returns 1. *)
Lemma main_cli_returns_one options s r s' status :
  main_cli w options s = (r, s') ->
  exit_status r = Some status -> status = 1.
Proof.
  unfold main_cli, bind at 1.
  destruct (getopt_loop NonGnss options initial_vars s) as [[x|e] s1] eqn:Hloop.
  - destruct (is_null (publicKey x) || is_null (hostname x) || (repeats x <? 1)).
    + intros [= <- <-] [= <-]. reflexivity.
    + apply error_and_exit_labels_status. apply no_return_session_cli.
  - intros [= <- <-]. destruct e; try discriminate.
    exfalso. exact (no_return_getopt_loop _ _ _ _ _ _ Hloop status0 eq_refl).
Qed.

(** Whenever [main] of the GNSS tester returns, it returns 1 from the usage
    check and 0 from everywhere else, the label [error] included. *)
Lemma main_gnss_returns_zero_after_usage fuel options s x s1 r s' status :
  getopt_loop GnssTester options initial_vars s = (inl x, s1) ->
  is_null (publicKey x) || is_null (hostname x) || is_null (gpsPort x) = false ->
  main_gnss w fuel options s = (r, s') ->
  exit_status r = Some status -> status = 0.
Proof.
  intros Hloop Husage. unfold main_gnss, bind at 1. rewrite Hloop, Husage.
  unfold bind at 1. unfold printf at 1, emit.
  apply error_and_exit_labels_status. apply no_return_session_gnss.
Qed.

End ExitFacts.

(** ** Running the clients step by step *)

Lemma to_int64_exact x : - 2 ^ 63 <= x < 2 ^ 63 -> to_int64 x = x.
Proof.
  intros Hx. unfold to_int64.
  assert (2 ^ 63 = 9223372036854775808) as E63 by reflexivity.
  assert (2 ^ 64 = 18446744073709551616) as E64 by reflexivity.
  destruct (Z_lt_le_dec x 0) as [Hneg|Hpos].
  - rewrite u64_neg by lia.
    destruct (Z.ltb_spec (2 ^ 64 + x) (2 ^ 63)); lia.
  - rewrite u64_small by lia.
    destruct (Z.ltb_spec x (2 ^ 63)); lia.
Qed.

Lemma imaxabs_exact x : - 2 ^ 63 < x -> imaxabs x = Some (Z.abs x).
Proof.
  intros Hx. unfold imaxabs, INT64_MIN.
  destruct (Z.eqb_spec x (- 2 ^ 63)); [lia | reflexivity].
Qed.

Lemma microseconds_of_range tv : in_u64 (microseconds_of tv).
Proof. unfold microseconds_of, in_u64. apply u64_range. Qed.

Lemma u32_sub_u32 a b : u32 (u32 a - u32 b) = u32 (a - b).
Proof. unfold u32. now rewrite <- Zminus_mod. Qed.

(** Two states are equal when their fields are. *)
Lemma state_eq (s1 s2 : state) :
  trace s1 = trace s2 ->
  monotonic_calls s1 = monotonic_calls s2 ->
  realtime_calls s1 = realtime_calls s2 ->
  request_calls s1 = request_calls s2 ->
  tp_lock_reads s1 = tp_lock_reads s2 ->
  s1 = s2.
Proof. destruct s1, s2; cbn; intros; subst; reflexivity. Qed.

Ltac same_state :=
  apply state_eq;
  cbn [trace monotonic_calls realtime_calls request_calls tp_lock_reads
       record_events count_clock_call count_request_call after_exchange];
  repeat rewrite <- app_assoc; reflexivity.

Section ClientFacts.

Context `{Externals} (w : world).

Lemma exchange_cli_verified m hostname nonceBytes rootPublicKey requestBuf s d :
  answered_and_verified w m hostname nonceBytes rootPublicKey requestBuf s d ->
  exchange_cli w m hostname nonceBytes rootPublicKey requestBuf s
  = match imaxabs (system_offset d) with
    | None =>
        (inr UndefinedBehaviour, after_exchange (report_cli requestBuf d) s)
    | Some distance =>
        if distance >? kTenMinutes
        then (inr GotoError, after_exchange (report_cli requestBuf d) s)
        else (inl tt,
              after_exchange (report_cli requestBuf d ++ [Printf MsgStop]) s)
    end.
Proof.
  intros (Hhost & Hstart & Hnet & Hver & Hend & Hreal).
  unfold exchange_cli, bind, printf, emit, MonotonicUs, RealtimeUs, TimeUs,
    call_makeRequest, defined, ret, raise.
  cbn. rewrite Hstart. rewrite Hhost. cbn. rewrite Hnet, Hver. cbn.
  rewrite Hend. cbn. rewrite Hreal. cbn.
  fold (start_us d) (end_us d) (end_realtime_us d).
  fold (round_trip d). fold (estimate d). fold (system_offset d).
  destruct (imaxabs (system_offset d)) as [distance|]; cbn.
  - destruct (distance >? kTenMinutes); cbn; f_equal; same_state.
  - f_equal; same_state.
Qed.


(** The offset check of the non-GNSS client, on an offset that [int64_t]
    holds. *)
Lemma offset_check_exact d :
  Z.abs (estimate d - end_realtime_us d) < 2 ^ 63 ->
  imaxabs (system_offset d) = Some (Z.abs (estimate d - end_realtime_us d)).
Proof.
  intros Hd. unfold system_offset.
  rewrite to_int64_exact by lia. apply imaxabs_exact. lia.
Qed.

Lemma answered_and_verified_counters m hostname nonceBytes rootPublicKey
    requestBuf s evs d :
  answered_and_verified w m hostname nonceBytes rootPublicKey requestBuf s d ->
  answered_and_verified w m hostname nonceBytes rootPublicKey requestBuf
    (record_events evs s) d.
Proof. intros Hd. exact Hd. Qed.

Lemma exchange_gnss_verified m hostname nonceBytes rootPublicKey requestBuf s d :
  answered_and_verified w m hostname nonceBytes rootPublicKey requestBuf s d ->
  exchange_gnss w m hostname nonceBytes rootPublicKey requestBuf s
  = (inl tt, after_exchange (report_gnss requestBuf d) s).
Proof.
  intros (Hhost & Hstart & Hnet & Hver & Hend & Hreal).
  unfold exchange_gnss, bind, printf, emit, MonotonicUs, RealtimeUs, TimeUs,
    call_makeRequest, defined, ret, raise.
  cbn. rewrite Hstart. rewrite Hhost. cbn. rewrite Hnet, Hver. cbn.
  rewrite Hend. cbn. rewrite Hreal. cbn.
  fold (start_us d) (end_us d) (end_realtime_us d).
  fold (correction_gnss d). fold (estimate_gnss d).
  f_equal; same_state.
Qed.

(** One turn of the loop of the non-GNSS client. *)
Lemma request_loop_step repeats' m hostname nonceBytes rootPublicKey
    requestBuf intervals s :
  craggy_createRequest nonceBytes = Some requestBuf ->
  request_loop w (S repeats') m hostname nonceBytes rootPublicKey intervals s
  = match exchange_cli w m hostname nonceBytes rootPublicKey requestBuf
            (record_events [CreateRequest nonceBytes] s) with
    | (inl _, s') =>
        request_loop w repeats' m hostname nonceBytes rootPublicKey intervals
          (record_events [Sleep intervals] s')
    | (inr e, s') => (inr e, s')
    end.
Proof.
  intros Hreq. cbn [request_loop]. unfold bind, emit. rewrite Hreq.
  destruct (exchange_cli w m hostname nonceBytes rootPublicKey requestBuf
              (record_events [CreateRequest nonceBytes] s)) as [[[]|e] s'];
    reflexivity.
Qed.

Lemma error_and_exit_labels_goto_error result status body s s' :
  result <> 0 ->
  body s = (inr GotoError, s') ->
  error_and_exit_labels result status body s = (inl status, s').
Proof.
  intros Hr Hbody. unfold error_and_exit_labels, on_goto_error, bind.
  rewrite Hbody. destruct (Z.eqb_spec result 0); [contradiction|reflexivity].
Qed.

(** C7.  In the non-GNSS client, a verified exchange whose estimate differs
    from the realtime clock by more than ten minutes (600,000,000
    microseconds) leaves the loop through [goto error] before the STOP
    marker, and [main] returns 1; an exchange within ten minutes prints the
    STOP marker, sleeps and goes on with the remaining repeats.  The
    difference is taken where [int64_t] holds it; and whenever [main]
    returns, after whatever exchange, its status is 1. *)
Theorem C7_ten_minute_gate repeats' m hostname nonceBytes rootPublicKey
    requestBuf intervals s d :
  craggy_createRequest nonceBytes = Some requestBuf ->
  answered_and_verified w m hostname nonceBytes rootPublicKey requestBuf s d ->
  (600000000 < Z.abs (estimate d - end_realtime_us d) < 2 ^ 63 ->
   exchange_cli w m hostname nonceBytes rootPublicKey requestBuf s
   = (inr GotoError, after_exchange (report_cli requestBuf d) s)
   /\ error_and_exit_labels 1 1
        (request_loop w (S repeats') m hostname nonceBytes rootPublicKey
           intervals) s
      = (inl 1,
         after_exchange (CreateRequest nonceBytes :: report_cli requestBuf d) s)
   /\ 1 <> 0)
  /\ (Z.abs (estimate d - end_realtime_us d) <= 600000000 ->
      exchange_cli w m hostname nonceBytes rootPublicKey requestBuf s
      = (inl tt, after_exchange (report_cli requestBuf d ++ [Printf MsgStop]) s)
      /\ request_loop w (S repeats') m hostname nonceBytes rootPublicKey
           intervals s
         = request_loop w repeats' m hostname nonceBytes rootPublicKey
             intervals
             (after_exchange
                (CreateRequest nonceBytes
                 :: report_cli requestBuf d ++ [Printf MsgStop; Sleep intervals])
                s))
  /\ (forall options r s' status,
        main_cli w options initial_state = (r, s') ->
        exit_status r = Some status -> status = 1 /\ status <> 0).
Proof.
  intros Hreq Hd.
  assert (2 ^ 63 = 9223372036854775808) as E63 by reflexivity.
  assert (kTenMinutes = 600000000) as Eten by reflexivity.
  pose proof (answered_and_verified_counters _ _ _ _ _ _
                [CreateRequest nonceBytes] _ Hd) as Hd'.
  split; [|split].
  3: { intros options r s' status Hrun Hstatus.
       pose proof (main_cli_returns_one _ _ _ _ _ _ Hrun Hstatus). lia. }
  - intros Hfar.
    assert (imaxabs (system_offset d)
            = Some (Z.abs (estimate d - end_realtime_us d))) as Habs
      by (apply offset_check_exact; lia).
    assert ((Z.abs (estimate d - end_realtime_us d) >? kTenMinutes) = true)
      as Hgt by (rewrite Eten; apply Z.gtb_lt; lia).
    split; [|split; [|lia]].
    + rewrite (exchange_cli_verified _ _ _ _ _ _ _ Hd), Habs, Hgt.
      reflexivity.
    + apply error_and_exit_labels_goto_error; [lia|].
      rewrite (request_loop_step _ _ _ _ _ _ _ _ Hreq).
      rewrite (exchange_cli_verified _ _ _ _ _ _ _ Hd'), Habs, Hgt.
      f_equal. same_state.
  - intros Hnear.
    assert (imaxabs (system_offset d)
            = Some (Z.abs (estimate d - end_realtime_us d))) as Habs
      by (apply offset_check_exact; lia).
    assert ((Z.abs (estimate d - end_realtime_us d) >? kTenMinutes) = false)
      as Hgt.
    { rewrite Eten. destruct (Z.gtb_spec (Z.abs (estimate d - end_realtime_us d))
                                 600000000); [lia | reflexivity]. }
    split.
    + rewrite (exchange_cli_verified _ _ _ _ _ _ _ Hd), Habs, Hgt.
      reflexivity.
    + rewrite (request_loop_step _ _ _ _ _ _ _ _ Hreq).
      rewrite (exchange_cli_verified _ _ _ _ _ _ _ Hd'), Habs, Hgt.
      f_equal. same_state.
Qed.

(** C8.  In a successful exchange of the non-GNSS client the monotonic clock
    is read before the request is handed to the transport and again after
    the response has been obtained and verified, and the estimate printed is
    the server's timestamp plus half of the difference of the two readings,
    in [uint64_t] arithmetic: with the second reading not before the first
    and the sum below 2^64, it is exactly
    [timestamp + (end_us - start_us) / 2]. *)
Theorem C8_half_round_trip_estimate m hostname nonceBytes rootPublicKey
    requestBuf s d :
  answered_and_verified w m hostname nonceBytes rootPublicKey requestBuf s d ->
  in_u64 (x_timestamp d) ->
  (exists out s' rest,
     exchange_cli w m hostname nonceBytes rootPublicKey requestBuf s = (out, s')
     /\ trace s'
        = trace s
          ++ [ Printf MsgStart;
               ClockGettime CLOCK_MONOTONIC (start_us d);
               MakeRequest (x_host d) requestBuf;
               ClockGettime CLOCK_MONOTONIC (end_us d);
               ClockGettime CLOCK_REALTIME (end_realtime_us d);
               Printf (MsgReplyIn (round_trip d));
               Printf (MsgCurrentTime (estimate d) (x_radius d)) ]
          ++ rest)
  /\ round_trip d = (end_us d - start_us d) mod 2 ^ 64
  /\ estimate d = (x_timestamp d + round_trip d / 2) mod 2 ^ 64
  /\ (start_us d <= end_us d ->
      round_trip d = end_us d - start_us d
      /\ (x_timestamp d + (end_us d - start_us d) / 2 < 2 ^ 64 ->
          estimate d = x_timestamp d + (end_us d - start_us d) / 2)).
Proof.
  intros Hd Hts.
  split; [|split; [reflexivity|split; [reflexivity|]]].
  - rewrite (exchange_cli_verified _ _ _ _ _ _ _ Hd).
    destruct (imaxabs (system_offset d)) as [distance|];
      [destruct (distance >? kTenMinutes)|].
    + eexists _, _, [Printf (MsgSystemOffset (system_offset d))].
      split; [reflexivity|]. reflexivity.
    + eexists _, _, [Printf (MsgSystemOffset (system_offset d)); Printf MsgStop].
      split; [reflexivity|]. reflexivity.
    + eexists _, _, [Printf (MsgSystemOffset (system_offset d))].
      split; [reflexivity|]. reflexivity.
  - intros Hmono.
    pose proof (microseconds_of_range (x_start d)) as Hs.
    pose proof (microseconds_of_range (x_end d)) as He.
    fold (start_us d) in Hs. fold (end_us d) in He.
    unfold in_u64 in *.
    assert (round_trip d = end_us d - start_us d) as Hrt
      by (unfold round_trip; apply u64_small; lia).
    split; [exact Hrt|].
    intros Hfit. unfold estimate. rewrite Hrt. apply u64_small.
    split; [|exact Hfit].
    assert (0 <= (end_us d - start_us d) / 2) by (apply Z.div_pos; lia).
    lia.
Qed.

(** C10.  In the GNSS tester the two monotonic readings are kept in
    [uint32_t] variables: the correction added to the server's timestamp is
    half of the difference of the readings reduced modulo 2^32, which is
    half of the round trip modulo 2^32, and falls short of half the 64-bit
    round trip as soon as that round trip reaches 2^32 microseconds. *)
Theorem C10_gnss_round_trip_modulo_2_32 m hostname nonceBytes rootPublicKey
    requestBuf s d :
  answered_and_verified w m hostname nonceBytes rootPublicKey requestBuf s d ->
  exchange_gnss w m hostname nonceBytes rootPublicKey requestBuf s
  = (inl tt, after_exchange (report_gnss requestBuf d) s)
  /\ In (Printf (MsgCraggyTimestamp
                   ((x_timestamp d
                     + ((end_us d mod 2 ^ 32 - start_us d mod 2 ^ 32) mod 2 ^ 32)
                       / 2) mod 2 ^ 64)))
        (report_gnss requestBuf d)
  /\ correction_gnss d = ((end_us d - start_us d) mod 2 ^ 32) / 2
  /\ (2 ^ 32 <= end_us d - start_us d ->
      correction_gnss d < (end_us d - start_us d) / 2).
Proof.
  intros Hd.
  assert (correction_gnss d = ((end_us d - start_us d) mod 2 ^ 32) / 2) as Hc
    by (unfold correction_gnss; now rewrite u32_sub_u32).
  split; [exact (exchange_gnss_verified _ _ _ _ _ _ _ Hd)|].
  split; [|split; [exact Hc|]].
  - unfold report_gnss. do 5 right. left. reflexivity.
  - intros Hlong. rewrite Hc.
    assert (2 ^ 32 = 4294967296) as E32 by reflexivity.
    pose proof (Z.mod_pos_bound (end_us d - start_us d) (2 ^ 32)) as Hm.
    apply Z.lt_le_trans with (2 ^ 31).
    + apply Z.div_lt_upper_bound; lia.
    + apply Z.div_le_lower_bound; lia.
Qed.

End ClientFacts.

(** ** Configuration errors *)

Section MainFacts.

Context `{Externals} (w : world).

Lemma decoded_length_32 decoded :
  decoded_length decoded = 32 ->
  exists bytes, decoded = Some bytes /\ List.length bytes = 32%nat.
Proof.
  destruct decoded as [bytes|]; cbn; [|discriminate].
  intros Hlen. exists bytes. split; [reflexivity|lia].
Qed.

Lemma decode_public_key_rejects m p key s :
  load m p = Some key ->
  decoded_length (base64_decode key) <> CRAGGY_ROUGH_TIME_PUBLIC_KEY_LENGTH ->
  decode_public_key m p s
  = (inr GotoError,
     record_events
       [Printf (MsgPublicKeyLength (decoded_length (base64_decode key)))] s).
Proof.
  intros Hload Hlen. unfold decode_public_key, bind, defined, ret.
  rewrite Hload.
  destruct (Z.eqb_spec (decoded_length (base64_decode key))
              CRAGGY_ROUGH_TIME_PUBLIC_KEY_LENGTH); [contradiction|].
  reflexivity.
Qed.

Lemma decode_public_key_accepts m p key s :
  load m p = Some key ->
  decoded_length (base64_decode key) = CRAGGY_ROUGH_TIME_PUBLIC_KEY_LENGTH ->
  exists bytes,
    base64_decode key = Some bytes
    /\ decode_public_key m p s = (inl bytes, s).
Proof.
  intros Hload Hlen.
  destruct (decoded_length_32 _ Hlen) as (bytes & Hdec & Hbytes).
  exists bytes. split; [exact Hdec|].
  unfold decode_public_key, bind, defined, ret.
  rewrite Hload, Hlen, Hdec, Z.eqb_refl. cbn [negb].
  change (Z.to_nat CRAGGY_ROUGH_TIME_PUBLIC_KEY_LENGTH) with 32%nat.
  rewrite firstn_all2 by lia. reflexivity.
Qed.

Lemma prepare_nonce_rejects m p text s :
  is_null p = false ->
  load m p = Some text ->
  decoded_length (base64_decode text) <> CRAGGY_ROUGH_TIME_NONCE_LENGTH ->
  prepare_nonce w m p s
  = (inr GotoError,
     record_events
       [Printf (MsgNonceLength (decoded_length (base64_decode text)))] s).
Proof.
  intros Hp Hload Hlen. unfold prepare_nonce, bind, defined, ret.
  rewrite Hp, Hload. cbn [negb].
  destruct (Z.eqb_spec (decoded_length (base64_decode text))
              CRAGGY_ROUGH_TIME_NONCE_LENGTH); [contradiction|].
  reflexivity.
Qed.

Lemma prepare_nonce_accepts m p text s :
  is_null p = false ->
  load m p = Some text ->
  decoded_length (base64_decode text) = CRAGGY_ROUGH_TIME_NONCE_LENGTH ->
  exists bytes,
    base64_decode text = Some bytes
    /\ List.length bytes = 32%nat
    /\ prepare_nonce w m p s = (inl bytes, s).
Proof.
  intros Hp Hload Hlen.
  destruct (decoded_length_32 _ Hlen) as (bytes & Hdec & Hbytes).
  exists bytes. split; [exact Hdec|]. split; [exact Hbytes|].
  unfold prepare_nonce, bind, defined, ret.
  rewrite Hp, Hload, Hlen, Hdec, Z.eqb_refl. cbn [negb]. unfold memcpy.
  change (Z.to_nat CRAGGY_ROUGH_TIME_NONCE_LENGTH) with 32%nat.
  rewrite firstn_all2 by lia.
  change (skipn 32 (repeat 1 32)) with (@nil Z).
  rewrite app_nil_r. reflexivity.
Qed.

(** [main] of the non-GNSS client, once the option loop has returned. *)
Lemma main_cli_after_options options s0 x s :
  getopt_loop NonGnss options initial_vars s0 = (inl x, s) ->
  main_cli w options s0
  = if is_null (publicKey x) || is_null (hostname x) || (repeats x <? 1)
    then (inr (Return 1), record_events [Printf MsgUsage] s)
    else error_and_exit_labels 1 1 (session_cli w x) s.
Proof.
  intros Hparse. unfold main_cli, bind at 1. rewrite Hparse.
  destruct (is_null (publicKey x) || is_null (hostname x) || (repeats x <? 1));
    reflexivity.
Qed.

(** A key of the wrong length ends the session before the nonce is looked
    at. *)
Lemma session_cli_bad_key x key s :
  load (mem x) (publicKey x) = Some key ->
  decoded_length (base64_decode key) <> CRAGGY_ROUGH_TIME_PUBLIC_KEY_LENGTH ->
  session_cli w x s
  = (inr GotoError,
     record_events
       [Printf (MsgPublicKeyLength (decoded_length (base64_decode key)))] s).
Proof.
  intros Hload Hlen. unfold session_cli, bind at 1.
  rewrite (decode_public_key_rejects _ _ _ _ Hload Hlen). reflexivity.
Qed.

(** A nonce of the wrong length ends the session before the loop. *)
Lemma session_cli_bad_nonce x key text s :
  load (mem x) (publicKey x) = Some key ->
  decoded_length (base64_decode key) = CRAGGY_ROUGH_TIME_PUBLIC_KEY_LENGTH ->
  is_null (nonce x) = false ->
  load (mem x) (nonce x) = Some text ->
  decoded_length (base64_decode text) <> CRAGGY_ROUGH_TIME_NONCE_LENGTH ->
  session_cli w x s
  = (inr GotoError,
     record_events
       [Printf (MsgNonceLength (decoded_length (base64_decode text)))] s).
Proof.
  intros Hkey Hlen Hp Hload Hbad. unfold session_cli, bind at 1.
  destruct (decode_public_key_accepts _ _ _ s Hkey Hlen) as (bytes & _ & ->).
  unfold bind at 1.
  rewrite (prepare_nonce_rejects _ _ _ _ Hp Hload Hbad). reflexivity.
Qed.

Lemma no_network_activity_after_options v options x r s msg :
  getopt_loop v options x initial_state = (r, s) ->
  no_network_activity (trace (record_events [Printf msg] s)).
Proof.
  intros Hparse.
  destruct (getopt_loop_trace _ _ _ _ _ _ Hparse) as [msgs Hs].
  cbn [record_events trace]. rewrite Hs. cbn [initial_state trace app].
  change [Printf msg] with (map Printf [msg]). rewrite <- map_app.
  apply (no_network_activity_printf [] (msgs ++ [msg])). reflexivity.
Qed.

(** C6.  When the option loop of the non-GNSS client has returned and no
    [--host] or no [--key] was among the options, or the key does not
    decode to exactly 32 bytes, [main] returns the status 1, which is not
    zero, and no request has been built or sent. *)
Theorem C6_configuration_error_exit options x s :
  getopt_loop NonGnss options initial_vars initial_state = (inl x, s) ->
  (Forall (fun o => fst o <> Opt_h) options
   \/ Forall (fun o => fst o <> Opt_k) options
   \/ exists key,
        load (mem x) (publicKey x) = Some key
        /\ decoded_length (base64_decode key)
           <> CRAGGY_ROUGH_TIME_PUBLIC_KEY_LENGTH) ->
  exists r s',
    main_cli w options initial_state = (r, s')
    /\ exit_status r = Some 1
    /\ 1 <> 0
    /\ no_network_activity (trace s').
Proof.
  intros Hparse Hbad.
  rewrite (main_cli_after_options _ _ _ _ Hparse).
  destruct (is_null (publicKey x) || is_null (hostname x) || (repeats x <? 1))
    eqn:Husage.
  - eexists _, _. split; [reflexivity|]. split; [reflexivity|].
    split; [lia|]. exact (no_network_activity_after_options _ _ _ _ _ _ Hparse).
  - apply orb_false_elim in Husage as [Husage _].
    apply orb_false_elim in Husage as [Hkey Hhost].
    destruct Hbad as [Hnone|[Hnone|(key & Hload & Hlen)]].
    + rewrite (getopt_loop_hostname _ _ Hnone _ _ _ _ Hparse) in Hhost.
      discriminate.
    + rewrite (getopt_loop_publicKey _ _ Hnone _ _ _ _ Hparse) in Hkey.
      discriminate.
    + eexists _, _. split.
      * apply error_and_exit_labels_goto_error; [lia|].
        exact (session_cli_bad_key _ _ _ Hload Hlen).
      * split; [reflexivity|]. split; [lia|].
        exact (no_network_activity_after_options _ _ _ _ _ _ Hparse).
Qed.

(** C5.  A [--nonce] argument that decodes to exactly 32 bytes is accepted
    and becomes the nonce; one that decodes to any other length, 31 and 33
    among them, is refused with the message about the nonce length, and
    [main] of the non-GNSS client then returns 1 with no request built or
    sent. *)
Theorem C5_nonce_length_enforced options x s0 text s :
  getopt_loop NonGnss options initial_vars initial_state = (inl x, s0) ->
  is_null (nonce x) = false ->
  load (mem x) (nonce x) = Some text ->
  (decoded_length (base64_decode text) = 32 ->
   exists bytes,
     base64_decode text = Some bytes
     /\ List.length bytes = 32%nat
     /\ prepare_nonce w (mem x) (nonce x) s = (inl bytes, s))
  /\ (decoded_length (base64_decode text) <> 32 ->
      prepare_nonce w (mem x) (nonce x) s
      = (inr GotoError,
         record_events
           [Printf (MsgNonceLength (decoded_length (base64_decode text)))] s)
      /\ exists r s',
           main_cli w options initial_state = (r, s')
           /\ exit_status r = Some 1
           /\ no_network_activity (trace s')).
Proof.
  intros Hparse Hp Hload. split.
  - intros Hlen. exact (prepare_nonce_accepts _ _ _ _ Hp Hload Hlen).
  - intros Hlen. split; [exact (prepare_nonce_rejects _ _ _ _ Hp Hload Hlen)|].
    rewrite (main_cli_after_options _ _ _ _ Hparse).
    destruct (is_null (publicKey x) || is_null (hostname x) || (repeats x <? 1))
      eqn:Husage.
    + eexists _, _. split; [reflexivity|]. split; [reflexivity|].
      exact (no_network_activity_after_options _ _ _ _ _ _ Hparse).
    + apply orb_false_elim in Husage as [Husage _].
      apply orb_false_elim in Husage as [Hkey _].
      destruct (getopt_loop_publicKey_holds _ _ _ _ _ _ Hparse (or_introl eq_refl))
        as [Hnull|(b & key & Hb & Hkeyload)];
        [rewrite Hnull in Hkey; discriminate|].
      rewrite <- Hb in Hkeyload.
      destruct (Z.eq_dec (decoded_length (base64_decode key))
                  CRAGGY_ROUGH_TIME_PUBLIC_KEY_LENGTH) as [Hgood|Hbadkey].
      * eexists _, _. split.
        -- apply error_and_exit_labels_goto_error; [lia|].
           exact (session_cli_bad_nonce _ _ _ _ Hkeyload Hgood Hp Hload Hlen).
        -- split; [reflexivity|].
           exact (no_network_activity_after_options _ _ _ _ _ _ Hparse).
      * eexists _, _. split.
        -- apply error_and_exit_labels_goto_error; [lia|].
           exact (session_cli_bad_key _ _ _ Hkeyload Hbadkey).
        -- split; [reflexivity|].
           exact (no_network_activity_after_options _ _ _ _ _ _ Hparse).
Qed.

End MainFacts.

(** ** The [--nonce] option and the host name *)

Section NonceOptionFacts.

Context `{Externals}.

(** C9.  In every client the option ['n'] copies its argument with
    [strcpy] into the block that [hostname] points to, which it fits or
    overruns, and points [nonce] to that block.  Hence, when the option
    loop returns on a command line with [--host] followed by [--nonce] (and
    no later [--host] or [--nonce]), the host name that [craggy_makeRequest]
    is given is the argument of [--nonce]. *)
Theorem C9_nonce_option_overwrites_hostname v pre host mid arg rest x s :
  Forall (fun o => fst o <> Opt_h) mid ->
  Forall (fun o => fst o <> Opt_h /\ fst o <> Opt_n) rest ->
  getopt_loop v
    (pre ++ (Opt_h, Some host) :: mid ++ (Opt_n, Some arg) :: rest)
    initial_vars initial_state
  = (inl x, s) ->
  (forall x0 s0 b blk,
     hostname x0 = HeapBlock b ->
     heap (mem x0) !! b = Some blk ->
     (strlen arg + 1 <= capacity blk)%nat ->
     exists x1,
       handle_option v Opt_n (Some arg) x0 s0 = (inl x1, s0)
       /\ hostname x1 = HeapBlock b
       /\ nonce x1 = HeapBlock b
       /\ load (mem x1) (HeapBlock b) = Some arg)
  /\ (exists b, hostname x = HeapBlock b /\ nonce x = HeapBlock b)
  /\ load (mem x) (hostname x) = Some arg
  /\ forall (w : world) requestBuf s0,
       call_makeRequest w (mem x) (hostname x) requestBuf s0
       = (inl (craggy_makeRequest w (request_calls s0) arg requestBuf),
          record_events [MakeRequest arg requestBuf] (count_request_call s0)).
Proof.
  intros Hmid Hrest Hrun.
  split.
  { intros x0 s0 b blk Hb Hblk Hfit.
    destruct (handle_option_n_defined v arg x0 s0 b blk Hb Hblk Hfit)
      as [x1 Hstep].
    exists x1. split; [exact Hstep|].
    destruct (handle_option_n _ _ _ _ _ _ Hstep) as (Hhost1 & Hnonce1 & Hload1).
    rewrite Hb in Hhost1, Hnonce1, Hload1. auto. }
  rewrite getopt_loop_app in Hrun. unfold bind in Hrun.
  destruct (getopt_loop v pre initial_vars initial_state) as [[x1|e1] s1];
    [|discriminate].
  cbn [getopt_loop] in Hrun. unfold bind in Hrun.
  destruct (handle_option v Opt_h (Some host) x1 s1) as [[x2|e2] s2] eqn:Hh;
    [|discriminate].
  rewrite getopt_loop_app in Hrun. unfold bind in Hrun.
  destruct (getopt_loop v mid x2 s2) as [[x3|e3] s3] eqn:Hloop;
    [|discriminate].
  cbn [getopt_loop] in Hrun. unfold bind in Hrun.
  destruct (handle_option v Opt_n (Some arg) x3 s3) as [[x4|e4] s4] eqn:Hn;
    [|discriminate].
  destruct (handle_option_h _ _ _ _ _ _ Hh) as [Hblock _].
  pose proof (getopt_loop_hostname _ _ Hmid _ _ _ _ Hloop) as Hsame.
  destruct (handle_option_n _ _ _ _ _ _ Hn) as (Hhost4 & Hnonce4 & Hload4).
  rewrite Hsame, Hblock in Hhost4, Hnonce4, Hload4.
  destruct (getopt_loop_kept _ _ Hrest _ _ _ _ _ _ Hrun Hload4)
    as (Hhost & Hnonce & Hload).
  rewrite Hhost4 in Hhost. rewrite Hnonce4 in Hnonce.
  split; [eauto|]. rewrite Hhost. split; [exact Hload|].
  intros w requestBuf s0. unfold call_makeRequest, bind, defined, ret.
  rewrite Hload. reflexivity.
Qed.

End NonceOptionFacts.


(** ** The validator behind the clients *)

Section ValidatorFacts.

Import ResponseValidator.

Context {E : Externals} {P : Primitives} (w : world).

(** [verify] yields a midpoint and a radius exactly when the response
    decodes and the three checks pass. *)
Lemma verify_inl_iff response_bytes expected_nonce root_public_key :
  (exists result,
     verify response_bytes expected_nonce root_public_key = inl result)
  <-> all_checks_pass response_bytes expected_nonce root_public_key = true.
Proof.
  unfold verify, all_checks_pass.
  destruct (decode response_bytes) as [r|].
  - destruct (certificate_ok root_public_key r),
      (response_signature_ok r), (merkle_path_ok expected_nonce r); cbn;
      (split; [intros [result Hx]|intros Hx]);
      try reflexivity; try discriminate; eauto.
  - split; [intros [? Hx]; discriminate | discriminate].
Qed.

Lemma verify_inr response_bytes expected_nonce root_public_key :
  all_checks_pass response_bytes expected_nonce root_public_key = false ->
  exists e, verify response_bytes expected_nonce root_public_key = inr e.
Proof.
  intros Hfail.
  destruct (verify response_bytes expected_nonce root_public_key)
    as [result|e] eqn:Hv; [|eauto].
  assert (all_checks_pass response_bytes expected_nonce root_public_key = true)
    as Hpass by (apply verify_inl_iff; eauto).
  congruence.
Qed.

(** C3.  With the validator of the specification behind
    [craggy_processResponse], a midpoint and radius come out of it only if
    the certificate signature, the response signature and the Merkle path
    all verify; when one of them fails, the exchange of the non-GNSS client
    prints the parse error and leaves through [goto error], and none of
    the events it adds to the trace reports a time. *)
Theorem C3_time_only_after_all_checks m hostname nonceBytes rootPublicKey
    requestBuf s host tv responseBuf :
  load m hostname = Some host ->
  clock_gettime w CLOCK_MONOTONIC (monotonic_calls s) = Some tv ->
  craggy_makeRequest w (request_calls s) host requestBuf = inl responseBuf ->
  (forall midpoint radius,
     verify responseBuf nonceBytes rootPublicKey = inl (midpoint, radius) ->
     exists r,
       decode responseBuf = Some r
       /\ certificate_ok rootPublicKey r = true
       /\ response_signature_ok r = true
       /\ merkle_path_ok nonceBytes r = true)
  /\ (all_checks_pass responseBuf nonceBytes rootPublicKey = false ->
      exists e s',
        verify responseBuf nonceBytes rootPublicKey = inr e
        /\ @exchange_cli (with_validator P E) w m hostname nonceBytes
             rootPublicKey requestBuf s
           = (inr GotoError, s')
        /\ trace s'
           = trace s
             ++ [ Printf MsgStart;
                  ClockGettime CLOCK_MONOTONIC (microseconds_of tv);
                  MakeRequest host requestBuf;
                  Printf (MsgParseError (CraggyResultError (error_code e))) ])
  /\ (forall out s',
        @exchange_cli (with_validator P E) w m hostname nonceBytes
          rootPublicKey requestBuf s
        = (out, s') ->
        existsb reports_time (skipn (List.length (trace s)) (trace s')) = true ->
        all_checks_pass responseBuf nonceBytes rootPublicKey = true).
Proof.
  intros Hhost Hclock Hnet.
  assert (all_checks_pass responseBuf nonceBytes rootPublicKey = false ->
          exists e s',
            verify responseBuf nonceBytes rootPublicKey = inr e
            /\ @exchange_cli (with_validator P E) w m hostname nonceBytes
                 rootPublicKey requestBuf s
               = (inr GotoError, s')
            /\ trace s'
               = trace s
                 ++ [ Printf MsgStart;
                      ClockGettime CLOCK_MONOTONIC (microseconds_of tv);
                      MakeRequest host requestBuf;
                      Printf (MsgParseError
                                (CraggyResultError (error_code e))) ])
    as Hfail.
  { intros Hchecks. destruct (verify_inr _ _ _ Hchecks) as [e He].
    exists e. eexists. split; [exact He|].
    unfold exchange_cli, bind, printf, emit, MonotonicUs, TimeUs,
      call_makeRequest, defined, ret, raise.
    cbn. rewrite Hclock. rewrite Hhost. cbn. rewrite Hnet.
    unfold processResponse. rewrite He. cbn.
    split; [reflexivity|].
    cbn [trace record_events count_clock_call count_request_call].
    repeat rewrite <- app_assoc. reflexivity. }
  split; [|split; [exact Hfail|]].
  - intros midpoint radius Hv.
    assert (all_checks_pass responseBuf nonceBytes rootPublicKey = true)
      as Hpass by (apply verify_inl_iff; eauto).
    unfold all_checks_pass in Hpass.
    destruct (decode responseBuf) as [r|]; [|discriminate].
    exists r. apply andb_prop in Hpass as [Hpass Hmerkle].
    apply andb_prop in Hpass as [Hcert Hsig]. auto.
  - intros out s' Hrun Hreport.
    destruct (all_checks_pass responseBuf nonceBytes rootPublicKey) eqn:Hchecks;
      [reflexivity|].
    destruct (Hfail eq_refl) as (e & s'' & _ & Hrun' & Htrace).
    rewrite Hrun in Hrun'. injection Hrun' as _ <-.
    rewrite Htrace, drop_app_length in Hreport.
    cbn in Hreport. discriminate.
Qed.

End ValidatorFacts.


Lemma C7_ten_minute_gate_witness :
  (@exchange_cli Sample.sample_externals
     (Sample.sample_world 1625585148000000 1000000 1625584000000000)
     Sample.sample_memory (HeapBlock 0) (repeat 7 32%nat) []
     Sample.sample_request initial_state
   = (inr GotoError,
      after_exchange
        (report_cli Sample.sample_request
           (Sample.sample_data Sample.sample_host
              1625585148000000 1000000 1625584000000000))
        initial_state))
  /\ (@exchange_cli Sample.sample_externals
        (Sample.sample_world 1625585148000000 1000000 1625585148300000)
        Sample.sample_memory (HeapBlock 0) (repeat 7 32%nat) []
        Sample.sample_request initial_state
      = (inl tt,
         after_exchange
           (report_cli Sample.sample_request
              (Sample.sample_data Sample.sample_host
                 1625585148000000 1000000 1625585148300000)
            ++ [Printf MsgStop])
           initial_state)).
Proof.
  split.
  - refine (proj1 (proj1
      (@C7_ten_minute_gate Sample.sample_externals
         (Sample.sample_world 1625585148000000 1000000 1625584000000000)
         0%nat Sample.sample_memory (HeapBlock 0) (repeat 7 32%nat) []
         Sample.sample_request 0 initial_state
         (Sample.sample_data Sample.sample_host
            1625585148000000 1000000 1625584000000000) _ _) _)).
    + reflexivity.
    + repeat split.
    + vm_compute. split; reflexivity.
  - refine (proj1 (proj1 (proj2
      (@C7_ten_minute_gate Sample.sample_externals
         (Sample.sample_world 1625585148000000 1000000 1625585148300000)
         0%nat Sample.sample_memory (HeapBlock 0) (repeat 7 32%nat) []
         Sample.sample_request 0 initial_state
         (Sample.sample_data Sample.sample_host
            1625585148000000 1000000 1625585148300000) _ _)) _)).
    + reflexivity.
    + repeat split.
    + vm_compute. discriminate.
Defined.

Lemma C8_half_round_trip_estimate_witness :
  estimate (Sample.sample_data Sample.sample_host
              1625585148000000 1000000 1625585148300000)
  = 1625585148000000 + (5001000000 - 5000000000) / 2.
Proof.
  refine (proj2 (proj2 (proj2 (proj2
    (@C8_half_round_trip_estimate Sample.sample_externals
       (Sample.sample_world 1625585148000000 1000000 1625585148300000)
       Sample.sample_memory (HeapBlock 0) (repeat 7 32%nat) []
       Sample.sample_request initial_state
       (Sample.sample_data Sample.sample_host
          1625585148000000 1000000 1625585148300000) _ _))) _) _).
  - repeat split.
  - vm_compute. split; [discriminate | reflexivity].
  - vm_compute. discriminate.
  - vm_compute. reflexivity.
Defined.

Lemma C10_gnss_round_trip_modulo_2_32_witness :
  let d := Sample.sample_data Sample.sample_host
             1625585148000000 4296967296 1625585148300000 in
  correction_gnss d = ((end_us d - start_us d) mod 2 ^ 32) / 2
  /\ correction_gnss d < (end_us d - start_us d) / 2.
Proof.
  intros d.
  assert (answered_and_verified (H := Sample.sample_externals)
            (Sample.sample_world 1625585148000000 4296967296 1625585148300000)
            Sample.sample_memory (HeapBlock 0) (repeat 7 32%nat) []
            Sample.sample_request initial_state d) as Hd
    by (repeat split).
  destruct (C10_gnss_round_trip_modulo_2_32 _ _ _ _ _ _ _ _ Hd)
    as (_ & _ & Hcorrection & Hshort).
  split.
  - exact Hcorrection.
  - apply Hshort. vm_compute. discriminate.
Defined.

Lemma C9_nonce_option_overwrites_hostname_witness :
  load (mem (Sample.parsed NonGnss
               (Sample.host_key_and_nonce Sample.sample_nonce)))
    (hostname (Sample.parsed NonGnss
                 (Sample.host_key_and_nonce Sample.sample_nonce)))
  = Some Sample.sample_nonce
  /\ load (mem (Sample.parsed GnssTester
                  (Sample.host_key_and_nonce Sample.sample_nonce)))
       (hostname (Sample.parsed GnssTester
                    (Sample.host_key_and_nonce Sample.sample_nonce)))
     = Some Sample.sample_nonce.
Proof.
  split.
  - refine (proj1 (proj2 (proj2
      (@C9_nonce_option_overwrites_hostname Sample.sample_externals NonGnss
         [] Sample.sample_host [(Opt_k, Some Sample.sample_key)]
         Sample.sample_nonce []
         (Sample.parsed NonGnss (Sample.host_key_and_nonce Sample.sample_nonce))
         (Sample.parsed_state NonGnss
            (Sample.host_key_and_nonce Sample.sample_nonce))
         _ _ _)))).
    + repeat constructor. discriminate.
    + constructor.
    + vm_compute. reflexivity.
  - refine (proj1 (proj2 (proj2
      (@C9_nonce_option_overwrites_hostname Sample.sample_externals GnssTester
         [] Sample.sample_host [(Opt_k, Some Sample.sample_key)]
         Sample.sample_nonce []
         (Sample.parsed GnssTester
            (Sample.host_key_and_nonce Sample.sample_nonce))
         (Sample.parsed_state GnssTester
            (Sample.host_key_and_nonce Sample.sample_nonce))
         _ _ _)))).
    + repeat constructor. discriminate.
    + constructor.
    + vm_compute. reflexivity.
Defined.

Lemma C6_configuration_error_exit_witness :
  (exists r s',
     @main_cli Sample.sample_externals
       (Sample.sample_world 1625585148000000 1000000 1625585148300000)
       Sample.key_only initial_state = (r, s')
     /\ exit_status r = Some 1
     /\ 1 <> 0
     /\ no_network_activity (trace s'))
  /\ (exists r s',
        @main_cli Sample.sample_externals
          (Sample.sample_world 1625585148000000 1000000 1625585148300000)
          Sample.host_and_short_key initial_state = (r, s')
        /\ exit_status r = Some 1
        /\ 1 <> 0
        /\ no_network_activity (trace s')).
Proof.
  split.
  - refine (@C6_configuration_error_exit Sample.sample_externals
              (Sample.sample_world 1625585148000000 1000000 1625585148300000)
              Sample.key_only
              (Sample.parsed NonGnss Sample.key_only)
              (Sample.parsed_state NonGnss Sample.key_only) _ _).
    + vm_compute. reflexivity.
    + left. repeat constructor. discriminate.
  - refine (@C6_configuration_error_exit Sample.sample_externals
              (Sample.sample_world 1625585148000000 1000000 1625585148300000)
              Sample.host_and_short_key
              (Sample.parsed NonGnss Sample.host_and_short_key)
              (Sample.parsed_state NonGnss Sample.host_and_short_key) _ _).
    + vm_compute. reflexivity.
    + right. right. exists Sample.short_key. split.
      * vm_compute. reflexivity.
      * vm_compute. discriminate.
Defined.

Lemma C5_nonce_length_enforced_witness :
  (exists bytes,
     Sample.sample_base64_decode Sample.sample_nonce = Some bytes
     /\ List.length bytes = 32%nat
     /\ @prepare_nonce Sample.sample_externals
          (Sample.sample_world 1625585148000000 1000000 1625585148300000)
          (mem (Sample.parsed NonGnss
                  (Sample.host_key_and_nonce Sample.sample_nonce)))
          (nonce (Sample.parsed NonGnss
                    (Sample.host_key_and_nonce Sample.sample_nonce)))
          initial_state
        = (inl bytes, initial_state))
  /\ (exists r s',
        @main_cli Sample.sample_externals
          (Sample.sample_world 1625585148000000 1000000 1625585148300000)
          (Sample.host_key_and_nonce Sample.nonce_of_31) initial_state
        = (r, s')
        /\ exit_status r = Some 1
        /\ no_network_activity (trace s'))
  /\ (exists r s',
        @main_cli Sample.sample_externals
          (Sample.sample_world 1625585148000000 1000000 1625585148300000)
          (Sample.host_key_and_nonce Sample.nonce_of_33) initial_state
        = (r, s')
        /\ exit_status r = Some 1
        /\ no_network_activity (trace s')).
Proof.
  split; [|split].
  - refine (proj1
      (@C5_nonce_length_enforced Sample.sample_externals
         (Sample.sample_world 1625585148000000 1000000 1625585148300000)
         (Sample.host_key_and_nonce Sample.sample_nonce)
         (Sample.parsed NonGnss (Sample.host_key_and_nonce Sample.sample_nonce))
         (Sample.parsed_state NonGnss
            (Sample.host_key_and_nonce Sample.sample_nonce))
         Sample.sample_nonce initial_state _ _ _) _).
    + vm_compute. reflexivity.
    + reflexivity.
    + vm_compute. reflexivity.
    + vm_compute. reflexivity.
  - refine (proj2 (proj2
      (@C5_nonce_length_enforced Sample.sample_externals
         (Sample.sample_world 1625585148000000 1000000 1625585148300000)
         (Sample.host_key_and_nonce Sample.nonce_of_31)
         (Sample.parsed NonGnss (Sample.host_key_and_nonce Sample.nonce_of_31))
         (Sample.parsed_state NonGnss
            (Sample.host_key_and_nonce Sample.nonce_of_31))
         Sample.nonce_of_31 initial_state _ _ _) _)).
    + vm_compute. reflexivity.
    + reflexivity.
    + vm_compute. reflexivity.
    + vm_compute. discriminate.
  - refine (proj2 (proj2
      (@C5_nonce_length_enforced Sample.sample_externals
         (Sample.sample_world 1625585148000000 1000000 1625585148300000)
         (Sample.host_key_and_nonce Sample.nonce_of_33)
         (Sample.parsed NonGnss (Sample.host_key_and_nonce Sample.nonce_of_33))
         (Sample.parsed_state NonGnss
            (Sample.host_key_and_nonce Sample.nonce_of_33))
         Sample.nonce_of_33 initial_state _ _ _) _)).
    + vm_compute. reflexivity.
    + reflexivity.
    + vm_compute. reflexivity.
    + vm_compute. discriminate.
Defined.

Lemma C3_time_only_after_all_checks_witness :
  exists e s',
    @ResponseValidator.verify Sample.sample_primitives
      Sample.forged_response (repeat 7 32%nat) Sample.sample_key_bytes
    = inr e
    /\ @exchange_cli
         (ResponseValidator.with_validator Sample.sample_primitives
            Sample.sample_externals)
         (Sample.world_answering Sample.forged_response)
         Sample.sample_memory (HeapBlock 0) (repeat 7 32%nat)
         Sample.sample_key_bytes Sample.sample_request initial_state
       = (inr GotoError, s')
    /\ trace s'
       = trace initial_state
         ++ [ Printf MsgStart;
              ClockGettime CLOCK_MONOTONIC
                (microseconds_of (Sample.timespec_of_us 5000000000));
              MakeRequest Sample.sample_host Sample.sample_request;
              Printf (MsgParseError
                        (CraggyResultError (ResponseValidator.error_code e))) ].
Proof.
  refine (proj1 (proj2
    (@C3_time_only_after_all_checks Sample.sample_externals
       Sample.sample_primitives (Sample.world_answering Sample.forged_response)
       Sample.sample_memory (HeapBlock 0) (repeat 7 32%nat)
       Sample.sample_key_bytes Sample.sample_request initial_state
       Sample.sample_host (Sample.timespec_of_us 5000000000)
       Sample.forged_response _ _ _)) _).
  - reflexivity.
  - reflexivity.
  - reflexivity.
  - vm_compute. reflexivity.
Defined.

(** ** The sample environment at work *)

(** The genuine response passes the three checks of the toy primitives and
    its midpoint is reported. *)
Example genuine_response_is_reported :
  @ResponseValidator.verify Sample.sample_primitives
    Sample.genuine_response (repeat 7 32%nat) Sample.sample_key_bytes
  = inl (1625585148000000, 10000)
  /\ existsb reports_time
       (trace (snd (@main_cli
                      (ResponseValidator.with_validator Sample.sample_primitives
                         Sample.sample_externals)
                      (Sample.world_answering Sample.genuine_response)
                      Sample.host_and_key initial_state)))
     = true.
Proof. split; vm_compute; reflexivity. Qed.

(** A run of the non-GNSS client that goes through returns 1 as well:
    [result] is never assigned after its initialisation. *)
Example successful_run_returns_one :
  fst (@main_cli Sample.sample_externals
         (Sample.sample_world 1625585148000000 1000000 1625585148300000)
         Sample.host_and_key initial_state)
  = inl 1.
Proof. vm_compute. reflexivity. Qed.

(** The GNSS tester returns 0 after the label [error]: a key of the wrong
    length ends it with the status 0. *)
Example gnss_tester_bad_key_returns_zero :
  fst (@main_gnss Sample.sample_externals
         (Sample.sample_world 1625585148000000 1000000 1625585148300000)
         8 (Sample.host_and_short_key ++ [(Opt_p, Some "/dev/ttyACM0"%string)])
         initial_state)
  = inl 0.
Proof. vm_compute. reflexivity. Qed.

(** With [--nonce] before any [--host], [strcpy] is given a null
    destination. *)
Example nonce_before_host_is_undefined :
  fst (@main_cli Sample.sample_externals
         (Sample.sample_world 1625585148000000 1000000 1625585148300000)
         [(Opt_n, Some Sample.sample_nonce); (Opt_h, Some Sample.sample_host)]
         initial_state)
  = inr UndefinedBehaviour.
Proof. vm_compute. reflexivity. Qed.

(** A [--nonce] argument longer than the [--host] argument overruns the
    block of the host name. *)
Example long_nonce_overruns_hostname :
  fst (@main_cli Sample.sample_externals
         (Sample.sample_world 1625585148000000 1000000 1625585148300000)
         [(Opt_h, Some "localhost:2002"%string);
          (Opt_k, Some Sample.sample_key);
          (Opt_n, Some Sample.sample_nonce)]
         initial_state)
  = inr UndefinedBehaviour.
Proof. vm_compute. reflexivity. Qed.

(** ** More about the timestamp converter *)

Lemma exact_epoch_seconds_floor raw rt :
  exact_epoch_seconds raw rt = spec_fixture_seconds raw rt.
Proof.
  unfold exact_epoch_seconds, spec_fixture_seconds.
  replace ((mjd_of raw - 40587) * 86400000000
           + us_since_midnight_of raw + rt / 2)
    with ((mjd_of raw - 40587) * 86400 * 1000000
          + (us_since_midnight_of raw + rt / 2)) by lia.
  rewrite Z.div_add_l by lia. reflexivity.
Qed.

Lemma exact_epoch_seconds_bounds raw rt :
  in_u64 raw -> in_u64 rt ->
  - 2 ^ 64 < exact_epoch_seconds raw rt < 2 ^ 64.
Proof.
  intros Hraw Hrt.
  pose proof (mjd_range raw Hraw) as Hmjd.
  pose proof (seconds_part_range raw rt Hrt) as Hsec.
  assert (2 ^ 24 = 16777216) as E24 by reflexivity.
  assert (2 ^ 63 = 9223372036854775808) as E63 by reflexivity.
  assert (2 ^ 64 = 18446744073709551616) as E64 by reflexivity.
  unfold exact_epoch_seconds. lia.
Qed.

(** X1.  From the epoch on the converter truncates: the value it stores is
    the number of whole seconds in the exact count of microseconds (days
    since the epoch, microseconds since midnight and half the round trip),
    never rounded up and less than one second short of it. *)
Theorem X_converter_truncates raw rad rt :
  in_u64 raw -> in_u64 rt -> 40587 <= mjd_of raw ->
  let microseconds :=
    (mjd_of raw - 40587) * 86400000000 + us_since_midnight_of raw + rt / 2 in
  let seconds :=
    snd (craggy_roughtimeToEpoc {| time := raw; radius := rad |} rt) in
  seconds = microseconds / 1000000
  /\ seconds * 1000000 <= microseconds < (seconds + 1) * 1000000.
Proof.
  intros Hraw Hrt Hday microseconds seconds. subst microseconds seconds.
  pose proof (exact_epoch_seconds_bounds raw rt Hraw Hrt) as Hb.
  pose proof (mjd_range raw Hraw) as Hmjd.
  pose proof (seconds_part_range raw rt Hrt) as Hsec.
  rewrite craggy_roughtimeToEpoc_closed_form by assumption. cbn [snd].
  assert (0 <= exact_epoch_seconds raw rt) as Hpos
    by (unfold exact_epoch_seconds; lia).
  rewrite u64_small by lia. rewrite exact_epoch_seconds_floor.
  unfold spec_fixture_seconds.
  set (microseconds := (mjd_of raw - 40587) * 86400000000
                       + us_since_midnight_of raw + rt / 2).
  split; [reflexivity|].
  pose proof (Z.div_mod microseconds 1000000 ltac:(lia)) as Hdm.
  pose proof (Z.mod_pos_bound microseconds 1000000 ltac:(lia)) as Hr.
  lia.
Qed.

Lemma X_converter_truncates_witness :
  snd (craggy_roughtimeToEpoc
         {| time := 65312145749359830; radius := 10000 |} 1000000)
  = ((mjd_of 65312145749359830 - 40587) * 86400000000
     + us_since_midnight_of 65312145749359830 + 1000000 / 2) / 1000000.
Proof.
  refine (proj1 (X_converter_truncates
                   65312145749359830 10000 1000000 _ _ _)).
  - unfold in_u64. lia.
  - unfold in_u64. lia.
  - vm_compute. discriminate.
Defined.

(** X2.  The value stored is the exact number of seconds precisely when that
    number is not negative; a day before the epoch with enough
    microseconds and round trip to reach the epoch converts exactly. *)
Theorem X_converter_exact_iff_nonnegative raw rad rt :
  in_u64 raw -> in_u64 rt ->
  snd (craggy_roughtimeToEpoc {| time := raw; radius := rad |} rt)
  = exact_epoch_seconds raw rt
  <-> 0 <= exact_epoch_seconds raw rt.
Proof.
  intros Hraw Hrt.
  pose proof (exact_epoch_seconds_bounds raw rt Hraw Hrt) as Hb.
  rewrite craggy_roughtimeToEpoc_closed_form by assumption. cbn [snd].
  pose proof (u64_range (exact_epoch_seconds raw rt)) as Hu.
  split.
  - intros Heq. rewrite <- Heq. lia.
  - intros Hpos. apply u64_small. lia.
Qed.

Lemma X_converter_exact_iff_nonnegative_witness :
  snd (craggy_roughtimeToEpoc
         {| time := 40586 * 2 ^ 40 + 86400000000; radius := 0 |} 0)
  = exact_epoch_seconds (40586 * 2 ^ 40 + 86400000000) 0.
Proof.
  refine (proj2 (X_converter_exact_iff_nonnegative
                   (40586 * 2 ^ 40 + 86400000000) 0 0 _ _) _).
  - unfold in_u64. lia.
  - unfold in_u64. lia.
  - vm_compute. discriminate.
Defined.

Lemma raw_fields raw :
  raw = mjd_of raw * 2 ^ 40 + us_since_midnight_of raw.
Proof.
  unfold mjd_of, us_since_midnight_of.
  rewrite (Z.div_mod raw (2 ^ 40)) at 1 by lia. lia.
Qed.

(** X3.  For one round trip, the conversion keeps the order of two timestamps
    from the epoch on, as long as the microseconds of the earlier one do
    not exceed a day. *)
Theorem X_converter_monotone raw1 raw2 rad1 rad2 rt :
  in_u64 raw1 -> in_u64 raw2 -> in_u64 rt ->
  40587 <= mjd_of raw1 ->
  us_since_midnight_of raw1 <= 86400000000 ->
  raw1 <= raw2 ->
  snd (craggy_roughtimeToEpoc {| time := raw1; radius := rad1 |} rt)
  <= snd (craggy_roughtimeToEpoc {| time := raw2; radius := rad2 |} rt).
Proof.
  intros H1 H2 Hrt Hday Hus Hle.
  pose proof (exact_epoch_seconds_bounds raw1 rt H1 Hrt) as Hb1.
  pose proof (exact_epoch_seconds_bounds raw2 rt H2 Hrt) as Hb2.
  pose proof (us_since_midnight_range raw1) as Hr1.
  pose proof (us_since_midnight_range raw2) as Hr2.
  pose proof (half_round_trip_range rt Hrt) as Hh.
  pose proof (raw_fields raw1) as F1. pose proof (raw_fields raw2) as F2.
  assert (2 ^ 40 = 1099511627776) as E40 by reflexivity.
  assert (mjd_of raw1 <= mjd_of raw2) as Hmjd
    by (unfold mjd_of; apply Z.div_le_mono; lia).
  assert (0 <= (us_since_midnight_of raw1 + rt / 2) / 1000000)
    by (apply Z.div_pos; lia).
  assert (0 <= (us_since_midnight_of raw2 + rt / 2) / 1000000)
    by (apply Z.div_pos; lia).
  rewrite !craggy_roughtimeToEpoc_closed_form by assumption. cbn [snd].
  assert (exact_epoch_seconds raw1 rt <= exact_epoch_seconds raw2 rt) as Hex.
  { unfold exact_epoch_seconds.
    destruct (Z.eq_dec (mjd_of raw1) (mjd_of raw2)) as [Heq|Hne].
    - rewrite Heq.
      assert ((us_since_midnight_of raw1 + rt / 2) / 1000000
              <= (us_since_midnight_of raw2 + rt / 2) / 1000000)
        by (apply Z.div_le_mono; lia).
      lia.
    - assert ((us_since_midnight_of raw1 + rt / 2) / 1000000
              <= 86400 + (rt / 2) / 1000000).
      { replace (86400 + rt / 2 / 1000000)
          with ((86400 * 1000000 + rt / 2) / 1000000)
          by (rewrite Z.div_add_l by lia; reflexivity).
        apply Z.div_le_mono; lia. }
      assert ((rt / 2) / 1000000
              <= (us_since_midnight_of raw2 + rt / 2) / 1000000)
        by (apply Z.div_le_mono; lia).
      lia. }
  assert (0 <= exact_epoch_seconds raw1 rt)
    by (unfold exact_epoch_seconds; lia).
  rewrite !u64_small by lia. exact Hex.
Qed.

Lemma X_converter_monotone_witness :
  snd (craggy_roughtimeToEpoc
         {| time := 65312145749359830; radius := 10000 |} 1000000)
  <= snd (craggy_roughtimeToEpoc
            {| time := 65312145749359831; radius := 7 |} 1000000).
Proof.
  refine (X_converter_monotone 65312145749359830 65312145749359831
            10000 7 1000000 _ _ _ _ _ _).
  - unfold in_u64. lia.
  - unfold in_u64. lia.
  - unfold in_u64. lia.
  - vm_compute. discriminate.
  - vm_compute. discriminate.
  - lia.
Defined.

(** X4.  The microseconds field is not checked against the length of a day: a
    timestamp whose field holds 86,401,000,000 or more converts to a later
    time than midnight of the following day. *)
Theorem X_converter_field_unchecked day us rad1 rad2 rt :
  40587 <= day < 2 ^ 24 - 1 ->
  86401000000 <= us < 2 ^ 40 ->
  in_u64 rt ->
  snd (craggy_roughtimeToEpoc
         {| time := (day + 1) * 2 ^ 40; radius := rad2 |} rt)
  < snd (craggy_roughtimeToEpoc
           {| time := day * 2 ^ 40 + us; radius := rad1 |} rt).
Proof.
  intros Hday Hus Hrt.
  assert (2 ^ 24 = 16777216) as E24 by reflexivity.
  assert (2 ^ 40 = 1099511627776) as E40 by reflexivity.
  assert (2 ^ 64 = 18446744073709551616) as E64 by reflexivity.
  assert (in_u64 (day * 2 ^ 40 + us)) as H1 by (unfold in_u64; lia).
  assert (in_u64 ((day + 1) * 2 ^ 40)) as H2 by (unfold in_u64; lia).
  pose proof (half_round_trip_range rt Hrt) as Hh.
  assert (mjd_of (day * 2 ^ 40 + us) = day) as M1.
  { unfold mjd_of. rewrite Z.div_add_l by lia.
    rewrite (Z.div_small us) by lia. lia. }
  assert (us_since_midnight_of (day * 2 ^ 40 + us) = us) as U1.
  { unfold us_since_midnight_of.
    rewrite Z.add_comm, Z.mod_add by lia. apply Z.mod_small. lia. }
  assert (mjd_of ((day + 1) * 2 ^ 40) = day + 1) as M2
    by (unfold mjd_of; apply Z.div_mul; lia).
  assert (us_since_midnight_of ((day + 1) * 2 ^ 40) = 0) as U2
    by (unfold us_since_midnight_of; apply Z.mod_mul; lia).
  pose proof (exact_epoch_seconds_bounds _ rt H1 Hrt) as Hb1.
  pose proof (exact_epoch_seconds_bounds _ rt H2 Hrt) as Hb2.
  rewrite !craggy_roughtimeToEpoc_closed_form by assumption. cbn [snd].
  unfold exact_epoch_seconds in *. rewrite M1, U1 in Hb1 |- *.
  rewrite M2, U2 in Hb2 |- *. change (0 + rt / 2) with (rt / 2) in *.
  assert (0 <= rt / 2 / 1000000) by (apply Z.div_pos; lia).
  assert (86401 + rt / 2 / 1000000 <= (us + rt / 2) / 1000000).
  { replace (86401 + rt / 2 / 1000000)
      with ((86401 * 1000000 + rt / 2) / 1000000)
      by (rewrite Z.div_add_l by lia; reflexivity).
    apply Z.div_le_mono; lia. }
  rewrite !u64_small by lia. lia.
Qed.

Lemma X_converter_field_unchecked_witness :
  snd (craggy_roughtimeToEpoc
         {| time := (59401 + 1) * 2 ^ 40; radius := 0 |} 1000000)
  < snd (craggy_roughtimeToEpoc
           {| time := 59401 * 2 ^ 40 + 90000000000; radius := 0 |} 1000000).
Proof.
  refine (X_converter_field_unchecked 59401 90000000000 0 0 1000000 _ _ _).
  - vm_compute. split; [discriminate|reflexivity].
  - vm_compute. split; [discriminate|reflexivity].
  - unfold in_u64. lia.
Defined.

(** X5.  Half of the round trip is added in whole seconds: against the
    conversion without round trip the result gains the seconds of half the
    round trip, or one more. *)
Theorem X_converter_round_trip_gain raw rad rt :
  in_u64 raw -> in_u64 rt -> 40587 <= mjd_of raw ->
  let without := snd (craggy_roughtimeToEpoc {| time := raw; radius := rad |} 0) in
  let gain := rt / 2 / 1000000 in
  without + gain
  <= snd (craggy_roughtimeToEpoc {| time := raw; radius := rad |} rt)
  <= without + gain + 1.
Proof.
  intros Hraw Hrt Hday without gain. subst without gain.
  assert (in_u64 0) as H0 by (unfold in_u64; lia).
  pose proof (exact_epoch_seconds_bounds raw rt Hraw Hrt) as Hb.
  pose proof (exact_epoch_seconds_bounds raw 0 Hraw H0) as Hb0.
  pose proof (mjd_range raw Hraw) as Hmjd.
  pose proof (us_since_midnight_range raw) as Hus.
  pose proof (half_round_trip_range rt Hrt) as Hh.
  rewrite !craggy_roughtimeToEpoc_closed_form by assumption. cbn [snd].
  unfold exact_epoch_seconds in *.
  change (0 / 2) with 0 in *. rewrite Z.add_0_r in *.
  assert (0 <= us_since_midnight_of raw / 1000000) by (apply Z.div_pos; lia).
  assert (0 <= (us_since_midnight_of raw + rt / 2) / 1000000)
    by (apply Z.div_pos; lia).
  rewrite !u64_small by lia.
  pose proof (Z.div_mod (us_since_midnight_of raw) 1000000 ltac:(lia)) as D1.
  pose proof (Z.mod_pos_bound (us_since_midnight_of raw) 1000000 ltac:(lia)) as R1.
  pose proof (Z.div_mod (rt / 2) 1000000 ltac:(lia)) as D2.
  pose proof (Z.mod_pos_bound (rt / 2) 1000000 ltac:(lia)) as R2.
  assert (us_since_midnight_of raw / 1000000 + rt / 2 / 1000000
          <= (us_since_midnight_of raw + rt / 2) / 1000000) as Hlo
    by (apply Z.div_le_lower_bound; lia).
  assert ((us_since_midnight_of raw + rt / 2) / 1000000
          < us_since_midnight_of raw / 1000000 + rt / 2 / 1000000 + 2) as Hhi
    by (apply Z.div_lt_upper_bound; lia).
  lia.
Qed.

Lemma X_converter_round_trip_gain_witness :
  snd (craggy_roughtimeToEpoc
         {| time := 65312145749359830; radius := 10000 |} 0)
  + 1000000 / 2 / 1000000
  <= snd (craggy_roughtimeToEpoc
            {| time := 65312145749359830; radius := 10000 |} 1000000)
  <= snd (craggy_roughtimeToEpoc
            {| time := 65312145749359830; radius := 10000 |} 0)
     + 1000000 / 2 / 1000000 + 1.
Proof.
  refine (X_converter_round_trip_gain 65312145749359830 10000 1000000 _ _ _).
  - unfold in_u64. lia.
  - unfold in_u64. lia.
  - vm_compute. discriminate.
Defined.

(** ** More about the clock readings *)

Lemma microseconds_of_exact tv :
  0 <= tv_sec tv < 18446744073709 ->
  0 <= tv_nsec tv < 1000000000 ->
  microseconds_of tv = tv_sec tv * 1000000 + tv_nsec tv / 1000.
Proof.
  intros Hsec Hnsec. unfold microseconds_of.
  assert (2 ^ 64 = 18446744073709551616) as E64 by reflexivity.
  rewrite Z.quot_div_nonneg by lia.
  assert (0 <= tv_nsec tv / 1000 < 1000000) as Hq
    by (split; [apply Z.div_pos; lia|apply Z.div_lt_upper_bound; lia]).
  rewrite (u64_small (tv_sec tv)) by lia.
  rewrite (u64_small (tv_sec tv * 1000000)) by lia.
  apply u64_small. lia.
Qed.

(** X6.  [TimeUs] returns [tv_sec * 1000000 + tv_nsec / 1000] for every
    normalised reading of the clock whose seconds are below
    18,446,744,073,709 (the values [uint64_t] holds in microseconds), and on
    such readings a later time never gives a smaller number. *)
Theorem X_TimeUs_exact_and_ordered (w : world) clock s tv later :
  clock_gettime w clock (calls_of clock s) = Some tv ->
  0 <= tv_sec tv < 18446744073709 ->
  0 <= tv_nsec tv < 1000000000 ->
  tv_sec later < 18446744073709 ->
  0 <= tv_nsec later < 1000000000 ->
  tv_sec tv < tv_sec later
  \/ (tv_sec tv = tv_sec later /\ tv_nsec tv <= tv_nsec later) ->
  fst (TimeUs w clock s) = inl (tv_sec tv * 1000000 + tv_nsec tv / 1000)
  /\ microseconds_of tv <= microseconds_of later.
Proof.
  intros Hread Hsec Hnsec Hsec' Hnsec' Horder. split.
  - unfold TimeUs. rewrite Hread. cbn [fst].
    rewrite microseconds_of_exact by assumption. reflexivity.
  - rewrite !microseconds_of_exact by lia.
    assert (0 <= tv_nsec tv / 1000 < 1000000) as Hq
      by (split; [apply Z.div_pos; lia|apply Z.div_lt_upper_bound; lia]).
    assert (0 <= tv_nsec later / 1000 < 1000000) as Hq'
      by (split; [apply Z.div_pos; lia|apply Z.div_lt_upper_bound; lia]).
    destruct Horder as [Hlt|[Heq Hle]]; [lia|].
    rewrite Heq. apply Z.add_le_mono_l. apply Z.div_le_mono; lia.
Qed.

Lemma X_TimeUs_exact_and_ordered_witness :
  let w := Sample.world_answering [] in
  let tv := Sample.timespec_of_us 5000000000 in
  let later := {| tv_sec := 5000; tv_nsec := 999 |} in
  fst (TimeUs w CLOCK_MONOTONIC initial_state) = inl 5000000000
  /\ microseconds_of tv <= microseconds_of later.
Proof.
  intros w tv later.
  refine (X_TimeUs_exact_and_ordered w CLOCK_MONOTONIC initial_state tv later
            _ _ _ _ _ _).
  - reflexivity.
  - vm_compute. split; [discriminate|reflexivity].
  - vm_compute. split; [discriminate|reflexivity].
  - reflexivity.
  - vm_compute. split; [discriminate|reflexivity].
  - right. vm_compute. split; [reflexivity|discriminate].
Defined.

(** ** What a run of the request loop sends *)

Lemma count_app f a b : count f (a ++ b) = (count f a + count f b)%nat.
Proof. unfold count. rewrite List.filter_app, length_app. reflexivity. Qed.

Lemma count_printf f msgs :
  (forall msg, f (Printf msg) = false) -> count f (map Printf msgs) = 0%nat.
Proof.
  intros Hf. unfold count.
  induction msgs as [|msg msgs IH]; cbn; [reflexivity|].
  rewrite Hf. exact IH.
Qed.

(** Closes a leaf of an exchange: the events recorded so far are named and
    counted. *)
Ltac exchange_leaf :=
  eexists;
  cbn; rewrite <- ?app_assoc; split; [reflexivity|];
  repeat split; try reflexivity; cbn; auto;
  repeat constructor; cbn; auto.

Section LoopEvents.

Context `{Externals} (w : world).

(** One exchange of the non-GNSS client, however it ends: it creates no
    request, does not sleep, and sends at most the request it was given, to
    the host that [hostname] designates. *)
Lemma exchange_cli_events m hostname nonceBytes rootPublicKey requestBuf s :
  craggy_createRequest nonceBytes = Some requestBuf ->
  exists evs,
    trace (snd (exchange_cli w m hostname nonceBytes rootPublicKey requestBuf s))
    = trace s ++ evs
    /\ count is_create_request evs = 0%nat
    /\ count is_sleep evs = 0%nat
    /\ (count is_make_request evs <= 1)%nat
    /\ Forall (sends_only (load m hostname) nonceBytes) evs.
Proof.
  intros Hreq.
  unfold exchange_cli, bind, printf, emit, MonotonicUs, RealtimeUs, TimeUs,
    call_makeRequest, defined, ret, raise.
  cbn.
  destruct (clock_gettime w CLOCK_MONOTONIC (monotonic_calls s)) as [start|];
    [|exchange_leaf].
  destruct (load m hostname) as [host|]; [|exchange_leaf].
  cbn.
  destruct (craggy_makeRequest w (request_calls s) host requestBuf)
    as [responseBuf|craggyResult]; [|exchange_leaf].
  destruct (craggy_processResponse nonceBytes rootPublicKey responseBuf)
    as [[timestamp radius]|craggyResult]; [|exchange_leaf].
  cbn.
  destruct (clock_gettime w CLOCK_MONOTONIC (S (monotonic_calls s))) as [stop|];
    [|exchange_leaf].
  cbn.
  destruct (clock_gettime w CLOCK_REALTIME (realtime_calls s)) as [real|];
    [|exchange_leaf].
  cbn.
  destruct (imaxabs _) as [distance|]; [|exchange_leaf].
  cbn.
  destruct (distance >? kTenMinutes); exchange_leaf.
Qed.

(** A turn of the loop in which [craggy_createRequest] fails does nothing
    but sleep. *)
Lemma request_loop_step_none repeats' m hostname nonceBytes rootPublicKey
    intervals s :
  craggy_createRequest nonceBytes = None ->
  request_loop w (S repeats') m hostname nonceBytes rootPublicKey intervals s
  = request_loop w repeats' m hostname nonceBytes rootPublicKey intervals
      (record_events [Sleep intervals]
         (record_events [CreateRequest nonceBytes] s)).
Proof.
  intros Hreq. cbn [request_loop]. unfold bind, emit, ret. rewrite Hreq.
  reflexivity.
Qed.

(** A run of the request loop, however it ends. *)
Lemma request_loop_events n m hostname nonceBytes rootPublicKey intervals :
  forall s,
  exists evs,
    trace (snd (request_loop w n m hostname nonceBytes rootPublicKey
                  intervals s))
    = trace s ++ evs
    /\ (count is_create_request evs <= n)%nat
    /\ (count is_make_request evs <= count is_create_request evs)%nat
    /\ (count is_sleep evs <= count is_create_request evs)%nat
    /\ (fst (request_loop w n m hostname nonceBytes rootPublicKey
               intervals s) = inl tt ->
        count is_create_request evs = n /\ count is_sleep evs = n)
    /\ Forall (sends_only (load m hostname) nonceBytes) evs.
Proof.
  induction n as [|n IH]; intros s.
  - exists []. cbn. rewrite app_nil_r. repeat split; auto.
  - destruct (craggy_createRequest nonceBytes) as [requestBuf|] eqn:Hreq.
    + rewrite (request_loop_step w _ _ _ _ _ _ _ s Hreq).
      destruct (exchange_cli_events m hostname nonceBytes rootPublicKey
                  requestBuf (record_events [CreateRequest nonceBytes] s) Hreq)
        as (evx & Htr & Hc & Hs & Hm & Hall).
      destruct (exchange_cli w m hostname nonceBytes rootPublicKey requestBuf
                  (record_events [CreateRequest nonceBytes] s))
        as [[[]|e] s1]; cbn [snd fst] in Htr |- *.
      * destruct (IH (record_events [Sleep intervals] s1))
          as (evn & Htn & Hcn & Hmn & Hsn & Hrn & Halln).
        exists ([CreateRequest nonceBytes] ++ evx ++ [Sleep intervals] ++ evn).
        rewrite Htn. cbn [trace record_events]. rewrite Htr.
        cbn [trace record_events]. rewrite <- !app_assoc.
        split; [reflexivity|].
        rewrite !count_app, Hc, Hs.
        change (count is_create_request [CreateRequest nonceBytes]) with 1%nat.
        change (count is_create_request [Sleep intervals]) with 0%nat.
        change (count is_make_request [CreateRequest nonceBytes]) with 0%nat.
        change (count is_make_request [Sleep intervals]) with 0%nat.
        change (count is_sleep [CreateRequest nonceBytes]) with 0%nat.
        change (count is_sleep [Sleep intervals]) with 1%nat.
        split; [lia|]. split; [lia|]. split; [lia|].
        split; [intros Hr; specialize (Hrn Hr); lia|].
        apply Forall_app. split; [repeat constructor|].
           apply Forall_app. split; [exact Hall|].
           apply Forall_app. split; [repeat constructor|exact Halln].
      * exists ([CreateRequest nonceBytes] ++ evx).
        rewrite Htr. cbn [trace record_events]. rewrite <- !app_assoc.
        split; [reflexivity|].
        rewrite !count_app, Hc, Hs.
        change (count is_create_request [CreateRequest nonceBytes]) with 1%nat.
        change (count is_make_request [CreateRequest nonceBytes]) with 0%nat.
        change (count is_sleep [CreateRequest nonceBytes]) with 0%nat.
        split; [lia|]. split; [lia|]. split; [lia|].
        split; [discriminate|].
        apply Forall_app. split; [repeat constructor|exact Hall].
    + rewrite (request_loop_step_none _ _ _ _ _ _ s Hreq).
      destruct (IH (record_events [Sleep intervals]
                      (record_events [CreateRequest nonceBytes] s)))
        as (evn & Htn & Hcn & Hmn & Hsn & Hrn & Halln).
      exists ([CreateRequest nonceBytes] ++ [Sleep intervals] ++ evn).
      rewrite Htn. cbn [trace record_events]. rewrite <- !app_assoc.
      split; [reflexivity|].
      rewrite !count_app.
      change (count is_create_request [CreateRequest nonceBytes]) with 1%nat.
      change (count is_create_request [Sleep intervals]) with 0%nat.
      change (count is_make_request [CreateRequest nonceBytes]) with 0%nat.
      change (count is_make_request [Sleep intervals]) with 0%nat.
      change (count is_sleep [CreateRequest nonceBytes]) with 0%nat.
      change (count is_sleep [Sleep intervals]) with 1%nat.
      split; [lia|]. split; [lia|]. split; [lia|].
      split; [intros Hr; specialize (Hrn Hr); lia|].
      apply Forall_app. split; [repeat constructor|].
      apply Forall_app. split; [repeat constructor|exact Halln].
Qed.

End LoopEvents.

(** ** The requests of a whole run *)

Section Budget.

Context `{Externals} (w : world).

Lemma handle_option_repeats_range v c optarg x s x' s' :
  handle_option v c optarg x s = (inl x', s') ->
  0 <= repeats x <= 255 -> 0 <= repeats x' <= 255.
Proof.
  intros Hstep Hx. apply handle_option_cases in Hstep.
  destruct c;
    repeat match goal with
           | Hs : exists _, _ |- _ => destruct Hs
           | Hs : _ /\ _ |- _ => destruct Hs
           | Hs : _ \/ _ |- _ => destruct Hs
           end; subst; cbn [repeats set_repeats set_mem set_hostname set_nonce
                             set_publicKey set_gpsPort set_intervals];
    try lia.
  match goal with
  | |- _ <= u8 ?a <= _ =>
      unfold u8; pose proof (Z.mod_pos_bound a (2 ^ 8) eq_refl) as Hb
  end.
  change (2 ^ 8) with 256 in *. lia.
Qed.

Lemma getopt_loop_repeats_range v options :
  forall x s x' s',
    getopt_loop v options x s = (inl x', s') ->
    0 <= repeats x <= 255 -> 0 <= repeats x' <= 255.
Proof.
  induction options as [|[c optarg] options IH]; intros x s x' s'.
  - intros [= <- <-] Hx. exact Hx.
  - cbn [getopt_loop]. unfold bind.
    destruct (handle_option v c optarg x s) as [[x1|e] s1] eqn:Hstep;
      [|discriminate].
    intros Hrest Hx. apply (IH _ _ _ _ Hrest).
    exact (handle_option_repeats_range _ _ _ _ _ _ _ Hstep Hx).
Qed.

Lemma decode_public_key_trace m p s :
  exists msgs,
    trace (snd (decode_public_key m p s)) = trace s ++ map Printf msgs.
Proof.
  unfold decode_public_key, bind, printf, emit, defined, ret, raise.
  destruct (load m p) as [key|]; cbn;
    [|exists []; cbn; now rewrite app_nil_r].
  destruct (negb _); cbn; [eexists [_]; reflexivity|].
  destruct (base64_decode key); cbn; exists []; cbn; now rewrite app_nil_r.
Qed.

Lemma prepare_nonce_trace m p s :
  exists msgs,
    trace (snd (prepare_nonce w m p s)) = trace s ++ map Printf msgs.
Proof.
  unfold prepare_nonce, bind, printf, emit, defined, ret, raise.
  destruct (negb (is_null p)).
  - destruct (load m p) as [text|]; cbn;
      [|exists []; cbn; now rewrite app_nil_r].
    destruct (negb _); cbn; [eexists [_]; reflexivity|].
    destruct (base64_decode text); cbn; exists []; cbn; now rewrite app_nil_r.
  - destruct (craggy_generateNonce w); cbn;
      [exists []; cbn; now rewrite app_nil_r|eexists [_]; reflexivity].
Qed.

Lemma error_and_exit_labels_state status body s :
  snd (error_and_exit_labels 1 status body s) = snd (body s).
Proof.
  unfold error_and_exit_labels, on_goto_error, bind.
  destruct (body s) as [[[]|e] s1]; [reflexivity|].
  destruct e; reflexivity.
Qed.

(** The events from the decoding of the key to the end of the loop. *)
Lemma session_cli_events x s :
  0 <= repeats x <= 255 ->
  exists evs,
    trace (snd (session_cli w x s)) = trace s ++ evs
    /\ (count is_create_request evs <= 255)%nat
    /\ (count is_make_request evs <= count is_create_request evs)%nat
    /\ (count is_sleep evs <= count is_create_request evs)%nat.
Proof.
  intros Hx. unfold session_cli. unfold bind at 1.
  destruct (decode_public_key_trace (mem x) (publicKey x) s) as [msgs1 Ht1].
  destruct (decode_public_key (mem x) (publicKey x) s)
    as [[rootPublicKey|e] s1]; cbn [snd] in Ht1 |- *.
  2: { exists (map Printf msgs1). split; [exact Ht1|].
       rewrite !count_printf by reflexivity. lia. }
  unfold bind at 1.
  destruct (prepare_nonce_trace (mem x) (nonce x) s1) as [msgs2 Ht2].
  destruct (prepare_nonce w (mem x) (nonce x) s1)
    as [[nonceBytes|e] s2]; cbn [snd] in Ht2 |- *.
  2: { exists (map Printf msgs1 ++ map Printf msgs2).
       rewrite Ht2, Ht1, <- app_assoc. split; [reflexivity|].
       rewrite !count_app, !count_printf by reflexivity. lia. }
  destruct (request_loop_events w (Z.to_nat (repeats x)) (mem x) (hostname x)
              nonceBytes rootPublicKey
              (if repeats x =? 1 then 0 else intervals x) s2)
    as (evs & Ht & Hc & Hm & Hs & _).
  exists (map Printf msgs1 ++ map Printf msgs2 ++ evs).
  rewrite Ht, Ht2, Ht1, <- !app_assoc. split; [reflexivity|].
  rewrite !count_app, !count_printf by reflexivity. lia.
Qed.


(** X8.  Whatever its options and however it ends, one run of [main] of
    [cli/main.c] builds at most 255 requests, sends at most as many as it
    builds and sleeps at most as often: [repeats] is a [uint8_t] that only
    counts down. *)
Theorem X_main_cli_request_budget options s :
  exists evs,
    trace (snd (main_cli w options s)) = trace s ++ evs
    /\ (count is_make_request evs <= count is_create_request evs)%nat
    /\ (count is_sleep evs <= count is_create_request evs)%nat
    /\ (count is_create_request evs <= 255)%nat.
Proof.
  unfold main_cli. unfold bind at 1.
  destruct (getopt_loop NonGnss options initial_vars s) as [[x|e] s1] eqn:Hloop.
  - destruct (getopt_loop_trace _ _ _ _ _ _ Hloop) as [msgs Ht].
    pose proof (getopt_loop_repeats_range _ _ _ _ _ _ Hloop) as Hx.
    cbn [repeats initial_vars] in Hx. specialize (Hx ltac:(lia)).
    destruct (is_null (publicKey x) || is_null (hostname x) || (repeats x <? 1)).
    + exists (map Printf (msgs ++ [MsgUsage])).
      unfold bind, printf, emit, raise. cbn [snd trace record_events].
      rewrite Ht, map_app, <- app_assoc. split; [reflexivity|].
      rewrite <- map_app, !count_printf by reflexivity. lia.
    + rewrite error_and_exit_labels_state.
      destruct (session_cli_events x s1 Hx) as (evs & Hs & Hc & Hm & Hsl).
      exists (map Printf msgs ++ evs).
      rewrite Hs, Ht, <- app_assoc. split; [reflexivity|].
      rewrite !count_app, !count_printf by reflexivity. lia.
  - destruct (getopt_loop_trace _ _ _ _ _ _ Hloop) as [msgs Ht].
    exists (map Printf msgs). cbn [snd]. split; [exact Ht|].
    rewrite !count_printf by reflexivity. lia.
Qed.

End Budget.

(** ** Exchanges that fail *)

Section Failures.

Context `{Externals} (w : world).

Lemma getopt_loop_nonce v options :
  Forall (fun o => fst o <> Opt_n) options ->
  forall x s x' s',
    getopt_loop v options x s = (inl x', s') -> nonce x' = nonce x.
Proof.
  induction 1 as [|[c optarg] options Hc _ IH]; intros x s x' s'.
  - intros [= <- <-]. reflexivity.
  - cbn [getopt_loop]. unfold bind.
    destruct (handle_option v c optarg x s) as [[x1|e] s1] eqn:Hstep;
      [|discriminate].
    intros Hrest. rewrite (IH _ _ _ _ Hrest).
    exact (handle_option_nonce _ _ _ _ _ _ _ Hstep Hc).
Qed.

(** X9.  In [cli/main.c] a request that the transport fails to deliver ends
    the run at once, whatever number of repeats is left: the error is
    printed, the loop is left through [goto error] with no retry, no sleep
    and no time printed, and [main] returns 1. *)
Theorem X_transport_failure_ends_run repeats' m hostname nonceBytes
    rootPublicKey requestBuf intervals s host start craggyResult :
  craggy_createRequest nonceBytes = Some requestBuf ->
  load m hostname = Some host ->
  clock_gettime w CLOCK_MONOTONIC (monotonic_calls s) = Some start ->
  craggy_makeRequest w (request_calls s) host requestBuf = inr craggyResult ->
  let s' :=
    {| trace := trace s ++ CreateRequest nonceBytes
                  :: report_transport_failure host requestBuf start craggyResult;
       monotonic_calls := S (monotonic_calls s);
       realtime_calls := realtime_calls s;
       request_calls := S (request_calls s);
       tp_lock_reads := tp_lock_reads s |} in
  request_loop w (S repeats') m hostname nonceBytes rootPublicKey intervals s
  = (inr GotoError, s')
  /\ error_and_exit_labels 1 1
       (request_loop w (S repeats') m hostname nonceBytes rootPublicKey
          intervals) s
     = (inl 1, s').
Proof.
  intros Hreq Hhost Hstart Hnet s'.
  assert (request_loop w (S repeats') m hostname nonceBytes rootPublicKey
            intervals s = (inr GotoError, s')) as Hloop.
  { rewrite (request_loop_step w _ _ _ _ _ _ _ s Hreq).
    unfold exchange_cli, bind, printf, emit, MonotonicUs, TimeUs,
      call_makeRequest, defined, ret, raise.
    cbn. rewrite Hstart, Hhost. cbn. rewrite Hnet. cbn.
    f_equal. unfold s', report_transport_failure. same_state. }
  split; [exact Hloop|].
  apply error_and_exit_labels_goto_error; [lia|exact Hloop].
Qed.

(** X10.  When the monotonic clock cannot be read at the start of an
    exchange, [TimeUs] calls [abort()]: nothing has been sent, and the
    labels [error] and [exit] of [main], where the buffers are freed, are
    not reached. *)
Theorem X_clock_failure_aborts repeats' m hostname nonceBytes rootPublicKey
    requestBuf intervals s :
  craggy_createRequest nonceBytes = Some requestBuf ->
  clock_gettime w CLOCK_MONOTONIC (monotonic_calls s) = None ->
  let s' :=
    {| trace := trace s ++ [CreateRequest nonceBytes; Printf MsgStart];
       monotonic_calls := S (monotonic_calls s);
       realtime_calls := realtime_calls s;
       request_calls := request_calls s;
       tp_lock_reads := tp_lock_reads s |} in
  error_and_exit_labels 1 1
    (request_loop w (S repeats') m hostname nonceBytes rootPublicKey intervals)
    s
  = (inr CallAbort, s').
Proof.
  intros Hreq Hclock s'.
  unfold error_and_exit_labels, on_goto_error, bind at 1.
  rewrite (request_loop_step w _ _ _ _ _ _ _ s Hreq).
  unfold exchange_cli, bind, printf, emit, MonotonicUs, TimeUs, ret, raise.
  cbn. rewrite Hclock. cbn. f_equal. unfold s'. same_state.
Qed.

(** X11.  A [craggy_createRequest] that fails is not reported: each turn of
    the loop of [cli/main.c] then only sleeps, and after [repeats] turns the
    loop ends as it does after [repeats] exchanges, with nothing sent and
    nothing printed. *)
Theorem X_create_request_failure_is_silent repeats m hostname nonceBytes
    rootPublicKey intervals :
  craggy_createRequest nonceBytes = None ->
  forall s,
    request_loop w repeats m hostname nonceBytes rootPublicKey intervals s
    = (inl tt,
       record_events
         (List.concat
            (repeat [CreateRequest nonceBytes; Sleep intervals] repeats)) s).
Proof.
  intros Hreq. induction repeats as [|n IH]; intros s.
  - cbn. unfold ret. f_equal. apply state_eq; cbn; try reflexivity.
    now rewrite app_nil_r.
  - rewrite (request_loop_step_none w _ _ _ _ _ _ s Hreq), IH.
    f_equal. apply state_eq; cbn [trace monotonic_calls realtime_calls
      request_calls tp_lock_reads record_events repeat List.concat];
      try reflexivity.
    rewrite <- !app_assoc. reflexivity.
Qed.

(** X12.  Without a [--nonce] option the nonce comes from
    [craggy_generateNonce]; when that fails, [main] of [cli/main.c] prints
    the error after the options' own messages and returns 1, and no request
    is built. *)
Theorem X_nonce_generator_failure options x s key craggyResult :
  getopt_loop NonGnss options initial_vars initial_state = (inl x, s) ->
  Forall (fun o => fst o <> Opt_n) options ->
  is_null (publicKey x) || is_null (hostname x) || (repeats x <? 1) = false ->
  load (mem x) (publicKey x) = Some key ->
  decoded_length (base64_decode key) = CRAGGY_ROUGH_TIME_PUBLIC_KEY_LENGTH ->
  craggy_generateNonce w = inr craggyResult ->
  main_cli w options initial_state
  = (inl 1, record_events [Printf (MsgNonceError craggyResult)] s)
  /\ no_network_activity
       (trace (record_events [Printf (MsgNonceError craggyResult)] s)).
Proof.
  intros Hparse Hnone Husage Hkey Hlen Hgen. split.
  - rewrite (main_cli_after_options _ _ _ _ _ Hparse), Husage.
    apply error_and_exit_labels_goto_error; [lia|].
    unfold session_cli, bind at 1.
    destruct (decode_public_key_accepts _ _ _ s Hkey Hlen) as (bytes & _ & ->).
    unfold bind at 1. unfold prepare_nonce.
    rewrite (getopt_loop_nonce _ _ Hnone _ _ _ _ Hparse).
    cbn [nonce initial_vars is_null negb]. rewrite Hgen.
    reflexivity.
  - exact (no_network_activity_after_options _ _ _ _ _ _ Hparse).
Qed.

End Failures.

(** ** The GNSS tester *)

Section GnssFacts.

Context `{Externals} (w : world).

(** One exchange of the GNSS tester, however it ends. *)
Lemma exchange_gnss_events m hostname nonceBytes rootPublicKey requestBuf s :
  craggy_createRequest nonceBytes = Some requestBuf ->
  exists evs,
    trace (snd (exchange_gnss w m hostname nonceBytes rootPublicKey requestBuf s))
    = trace s ++ evs
    /\ count is_create_request evs = 0%nat
    /\ count is_sleep evs = 0%nat
    /\ (count is_make_request evs <= 1)%nat
    /\ tp_lock_reads
         (snd (exchange_gnss w m hostname nonceBytes rootPublicKey requestBuf s))
       = tp_lock_reads s.
Proof.
  intros Hreq.
  unfold exchange_gnss, bind, printf, emit, MonotonicUs, RealtimeUs, TimeUs,
    call_makeRequest, defined, ret, raise.
  cbn.
  destruct (clock_gettime w CLOCK_MONOTONIC (monotonic_calls s)) as [start|];
    [|exchange_leaf].
  destruct (load m hostname) as [host|]; [|exchange_leaf].
  cbn.
  destruct (craggy_makeRequest w (request_calls s) host requestBuf)
    as [responseBuf|craggyResult]; [|exchange_leaf].
  destruct (craggy_processResponse nonceBytes rootPublicKey responseBuf)
    as [[timestamp radius]|craggyResult]; [|exchange_leaf].
  cbn.
  destruct (clock_gettime w CLOCK_MONOTONIC (S (monotonic_calls s))) as [stop|];
    [|exchange_leaf].
  cbn.
  destruct (clock_gettime w CLOCK_REALTIME (realtime_calls s)) as [real|];
    exchange_leaf.
Qed.

(** One turn of the polling loop. *)
Lemma poll_loop_step fuel' repeats m hostname nonceBytes rootPublicKey s :
  0 < repeats ->
  poll_loop w (S fuel') repeats m hostname nonceBytes rootPublicKey s
  = let s1 := {| trace := trace s;
                 monotonic_calls := monotonic_calls s;
                 realtime_calls := realtime_calls s;
                 request_calls := request_calls s;
                 tp_lock_reads := S (tp_lock_reads s) |} in
    if tp_lock w (tp_lock_reads s) then
      match craggy_createRequest nonceBytes with
      | Some requestBuf =>
          match exchange_gnss w m hostname nonceBytes rootPublicKey requestBuf
                  (record_events [CreateRequest nonceBytes] s1) with
          | (inl _, s2) =>
              poll_loop w fuel' (u8 (repeats - 1)) m hostname nonceBytes
                rootPublicKey s2
          | (inr e, s2) => (inr e, s2)
          end
      | None =>
          poll_loop w fuel' (u8 (repeats - 1)) m hostname nonceBytes
            rootPublicKey (record_events [CreateRequest nonceBytes] s1)
      end
    else poll_loop w fuel' repeats m hostname nonceBytes rootPublicKey s1.
Proof.
  intros Hpos. cbn [poll_loop].
  destruct (Z.gtb_spec repeats 0) as [_|Hle]; [|lia].
  unfold bind at 1. unfold read_tp_lock at 1.
  destruct (tp_lock w (tp_lock_reads s)); [|reflexivity].
  unfold bind at 1. unfold emit at 1. unfold bind at 1.
  destruct (craggy_createRequest nonceBytes) as [requestBuf|];
    [|reflexivity].
  cbv zeta.
  destruct (exchange_gnss w m hostname nonceBytes rootPublicKey requestBuf _)
    as [[[]|e] s2]; reflexivity.
Qed.

(** A run of the polling loop, however it ends. *)
Lemma poll_loop_events m hostname nonceBytes rootPublicKey fuel :
  forall repeats s,
  0 <= repeats <= 255 ->
  exists evs reads,
    trace (snd (poll_loop w fuel repeats m hostname nonceBytes rootPublicKey s))
    = trace s ++ evs
    /\ tp_lock_reads
         (snd (poll_loop w fuel repeats m hostname nonceBytes rootPublicKey s))
       = (tp_lock_reads s + reads)%nat
    /\ (reads <= fuel)%nat
    /\ count is_create_request evs = pulses_seen w (tp_lock_reads s) reads
    /\ (count is_create_request evs <= Z.to_nat repeats)%nat
    /\ (count is_make_request evs <= count is_create_request evs)%nat
    /\ count is_sleep evs = 0%nat.
Proof.
  induction fuel as [|fuel IH]; intros repeats s Hr.
  - exists [], 0%nat. cbn [poll_loop]. unfold raise, ret.
    destruct (repeats >? 0); cbn; rewrite app_nil_r, Nat.add_0_r;
      repeat split; auto; lia.
  - destruct (Z_lt_le_dec 0 repeats) as [Hpos|Hzero].
    2: { exists [], 0%nat. cbn [poll_loop]. unfold ret.
         destruct (Z.gtb_spec repeats 0) as [Hgt|_]; [lia|].
         cbn; rewrite app_nil_r, Nat.add_0_r. repeat split; auto; lia. }
    rewrite (poll_loop_step _ _ _ _ _ _ s Hpos). cbv zeta.
    assert (u8 (repeats - 1) = repeats - 1) as Hdec
      by (unfold u8; apply Z.mod_small; change (2 ^ 8) with 256; lia).
    rewrite Hdec.
    set (s1 := {| trace := trace s;
                  monotonic_calls := monotonic_calls s;
                  realtime_calls := realtime_calls s;
                  request_calls := request_calls s;
                  tp_lock_reads := S (tp_lock_reads s) |}).
    destruct (tp_lock w (tp_lock_reads s)) eqn:Hlock.
    + destruct (craggy_createRequest nonceBytes) as [requestBuf|] eqn:Hreq.
      * destruct (exchange_gnss_events m hostname nonceBytes rootPublicKey
                    requestBuf (record_events [CreateRequest nonceBytes] s1)
                    Hreq) as (evx & Htr & Hc & Hs & Hm & Hreads).
        destruct (exchange_gnss w m hostname nonceBytes rootPublicKey
                    requestBuf (record_events [CreateRequest nonceBytes] s1))
          as [[[]|e] s2]; cbn [snd] in Htr, Hreads |- *.
        -- destruct (IH (repeats - 1) s2 ltac:(lia))
             as (evn & reads & Htn & Hrn & Hfn & Hpn & Hcn & Hmn & Hsn).
           exists ([CreateRequest nonceBytes] ++ evx ++ evn), (S reads).
           rewrite Htn, Hrn, Htr, Hreads. cbn [trace tp_lock_reads record_events s1].
           rewrite <- !app_assoc. split; [reflexivity|].
           split; [lia|]. split; [lia|].
           rewrite !count_app, Hc, Hs, Hsn.
           change (count is_create_request [CreateRequest nonceBytes]) with 1%nat.
           change (count is_make_request [CreateRequest nonceBytes]) with 0%nat.
           change (count is_sleep [CreateRequest nonceBytes]) with 0%nat.
           cbn [pulses_seen]. rewrite Hlock.
           rewrite Hreads in Hpn. cbn [tp_lock_reads record_events s1] in Hpn.
           repeat split; lia.
        -- exists ([CreateRequest nonceBytes] ++ evx), 1%nat.
           rewrite Htr, Hreads. cbn [trace tp_lock_reads record_events s1].
           rewrite <- !app_assoc. split; [reflexivity|].
           split; [lia|]. split; [lia|].
           rewrite !count_app, Hc, Hs.
           change (count is_create_request [CreateRequest nonceBytes]) with 1%nat.
           change (count is_make_request [CreateRequest nonceBytes]) with 0%nat.
           change (count is_sleep [CreateRequest nonceBytes]) with 0%nat.
           cbn [pulses_seen]. rewrite Hlock.
           repeat split; lia.
      * destruct (IH (repeats - 1)
                    (record_events [CreateRequest nonceBytes] s1) ltac:(lia))
          as (evn & reads & Htn & Hrn & Hfn & Hpn & Hcn & Hmn & Hsn).
        exists ([CreateRequest nonceBytes] ++ evn), (S reads).
        rewrite Htn, Hrn. cbn [trace tp_lock_reads record_events s1].
        rewrite <- !app_assoc. split; [reflexivity|].
        split; [lia|]. split; [lia|].
        rewrite !count_app, Hsn.
        change (count is_create_request [CreateRequest nonceBytes]) with 1%nat.
        change (count is_make_request [CreateRequest nonceBytes]) with 0%nat.
        change (count is_sleep [CreateRequest nonceBytes]) with 0%nat.
        cbn [pulses_seen]. rewrite Hlock.
        cbn [tp_lock_reads record_events s1] in Hpn.
        repeat split; lia.
    + destruct (IH repeats s1 ltac:(lia))
        as (evn & reads & Htn & Hrn & Hfn & Hpn & Hcn & Hmn & Hsn).
      exists evn, (S reads).
      rewrite Htn, Hrn. cbn [trace tp_lock_reads s1].
      split; [reflexivity|]. split; [lia|]. split; [lia|].
      cbn [pulses_seen]. rewrite Hlock.
      cbn [tp_lock_reads s1] in Hpn.
      repeat split; lia.
Qed.

(** X13.  The polling loop of the GNSS tester calls
    [craggy_createRequest] once for each read of [tp_lock] that finds it
    set, and not otherwise: however the loop ends, it has built as many
    requests as it has seen pulses, at most [repeats] of them, has sent at
    most as many as it has built, and has never slept. *)
Theorem X_poll_loop_one_request_per_pulse fuel repeats m hostname nonceBytes
    rootPublicKey s :
  0 <= repeats <= 255 ->
  exists evs reads,
    trace (snd (poll_loop w fuel repeats m hostname nonceBytes rootPublicKey s))
    = trace s ++ evs
    /\ tp_lock_reads
         (snd (poll_loop w fuel repeats m hostname nonceBytes rootPublicKey s))
       = (tp_lock_reads s + reads)%nat
    /\ count is_create_request evs = pulses_seen w (tp_lock_reads s) reads
    /\ (count is_create_request evs <= Z.to_nat repeats)%nat
    /\ (count is_make_request evs <= count is_create_request evs)%nat
    /\ count is_sleep evs = 0%nat.
Proof.
  intros Hr.
  destruct (poll_loop_events m hostname nonceBytes rootPublicKey fuel repeats s
              Hr) as (evs & reads & Ht & Hreads & _ & Hp & Hc & Hm & Hs).
  exists evs, reads. auto 10.
Qed.

(** X14.  As long as the GNSS thread does not set [tp_lock], the tester
    with [repeats > 0] neither sends a request nor leaves its loop: after
    any number of turns it has only read the flag. *)
Theorem X_poll_loop_waits_for_pulse fuel repeats m hostname nonceBytes
    rootPublicKey :
  (forall n, tp_lock w n = false) ->
  0 < repeats ->
  forall s,
    poll_loop w fuel repeats m hostname nonceBytes rootPublicKey s
    = (inr OutOfFuel,
       {| trace := trace s;
          monotonic_calls := monotonic_calls s;
          realtime_calls := realtime_calls s;
          request_calls := request_calls s;
          tp_lock_reads := (tp_lock_reads s + fuel)%nat |}).
Proof.
  intros Hlock Hpos. induction fuel as [|fuel IH]; intros s.
  - cbn [poll_loop]. destruct (Z.gtb_spec repeats 0) as [_|Hle]; [|lia].
    unfold raise. f_equal. apply state_eq; cbn; auto.
  - rewrite (poll_loop_step _ _ _ _ _ _ s Hpos). cbv zeta.
    rewrite Hlock, IH. f_equal. apply state_eq; cbn; auto; lia.
Qed.

(** X15.  Whenever [main] of the GNSS tester returns, its status is 1 if
    the usage check has failed and 0 otherwise: a key of the wrong length
    is reported in words and then as the status 0. *)
Theorem X_main_gnss_exit_status fuel options s x s1 :
  getopt_loop GnssTester options initial_vars s = (inl x, s1) ->
  (forall status,
     exit_status (fst (main_gnss w fuel options s)) = Some status ->
     status = if usage_gnss x then 1 else 0)
  /\ (forall key,
        usage_gnss x = false ->
        load (mem x) (publicKey x) = Some key ->
        decoded_length (base64_decode key)
        <> CRAGGY_ROUGH_TIME_PUBLIC_KEY_LENGTH ->
        fst (main_gnss w fuel options s) = inl 0).
Proof.
  intros Hloop. split.
  - intros status Hstatus.
    destruct (usage_gnss x) eqn:Husage.
    + unfold main_gnss, bind at 1 in Hstatus. rewrite Hloop in Hstatus.
      unfold usage_gnss in Husage. rewrite Husage in Hstatus.
      cbn in Hstatus. congruence.
    + destruct (main_gnss w fuel options s) as [r s'] eqn:Hrun.
      exact (main_gnss_returns_zero_after_usage w _ _ _ _ _ _ _ _
               Hloop Husage Hrun Hstatus).
  - intros key Husage Hkey Hlen.
    unfold main_gnss, bind at 1. rewrite Hloop.
    unfold usage_gnss in Husage. rewrite Husage.
    unfold bind at 1. unfold printf at 1, emit.
    erewrite error_and_exit_labels_goto_error; [reflexivity|lia|].
    unfold session_gnss, bind at 1.
    rewrite (decode_public_key_rejects _ _ _ _ Hkey Hlen). reflexivity.
Qed.

End GnssFacts.

(** ** What the option loop leaves in the variables *)

Lemma strcpy_heap_length m dst src m' :
  strcpy m dst src = Some m' ->
  List.length (heap m') = List.length (heap m).
Proof.
  destruct dst as [|b|]; cbn; [discriminate| |].
  - destruct (heap m !! b) as [blk|]; [|discriminate].
    destruct (strlen src + 1 <=? capacity blk)%nat; [|discriminate].
    intros [= <-]. cbn. apply length_insert.
  - destruct (strlen src + 1 <=? 256)%nat; [|discriminate].
    intros [= <-]. reflexivity.
Qed.

Lemma malloc_heap_length m n :
  List.length (heap (fst (malloc m n))) = S (List.length (heap m)).
Proof. cbn. rewrite length_app. cbn. lia. Qed.


Section OptionLoopFacts.

Context `{Externals}.

(** Each option that calls [malloc] leaves one more block in the heap. *)
Lemma handle_option_heap_length v c optarg x s x' s' :
  handle_option v c optarg x s = (inl x', s') ->
  List.length (heap (mem x'))
  = (List.length (heap (mem x)) + if allocates v c then 1 else 0)%nat.
Proof.
  intros Hstep. pose proof Hstep as Hcases.
  apply handle_option_cases in Hcases.
  destruct c;
    repeat match goal with
           | Hs : exists _, _ |- _ => destruct Hs
           | Hs : _ /\ _ |- _ => destruct Hs
           | Hs : _ \/ _ |- _ => destruct Hs
           end; subst; cbn [mem set_mem set_repeats set_intervals allocates];
    try lia;
    match goal with
    | Hcpy : strcpy _ _ _ = Some _ |- _ =>
        rewrite (strcpy_heap_length _ _ _ _ Hcpy)
    end;
    rewrite ?malloc_heap_length; lia.
Qed.

Lemma handle_option_gpsPort v c optarg x s x' s' :
  handle_option v c optarg x s = (inl x', s') ->
  c <> Opt_p -> gpsPort x' = gpsPort x.
Proof.
  intros Hstep Hc. apply handle_option_cases in Hstep.
  destruct c; try congruence;
    repeat match goal with
           | Hs : exists _, _ |- _ => destruct Hs
           | Hs : _ /\ _ |- _ => destruct Hs
           | Hs : _ \/ _ |- _ => destruct Hs
           end; subst; reflexivity.
Qed.

(** The string in [simulator.port_name] is replaced, never removed. *)
Lemma handle_option_port_name v c optarg x s x' s' str :
  handle_option v c optarg x s = (inl x', s') ->
  load (mem x) PortName = Some str ->
  exists str', load (mem x') PortName = Some str'.
Proof.
  intros Hstep Hload. apply handle_option_cases in Hstep.
  destruct c;
    repeat match goal with
           | Hs : exists _, _ |- _ => destruct Hs
           | Hs : _ /\ _ |- _ => destruct Hs
           | Hs : _ \/ _ |- _ => destruct Hs
           end; subst; cbn [mem set_mem set_repeats set_intervals];
    try (exists str; exact Hload);
    try (exists str; erewrite load_strcpy_other;
         [apply load_malloc; exact Hload|eassumption|discriminate]);
    try (eexists; eapply load_strcpy_same; eassumption).
  destruct (pointer_eq_dec (hostname x) PortName) as [Heq|Hne].
  - rewrite Heq in *. eexists. eapply load_strcpy_same. eassumption.
  - exists str. erewrite load_strcpy_other;
      [apply load_malloc; exact Hload|eassumption|congruence].
Qed.

Lemma handle_option_holds_string v c optarg x s x' s' p :
  handle_option v c optarg x s = (inl x', s') ->
  holds_string (mem x) p -> holds_string (mem x') p.
Proof.
  intros Hstep [Hnull|[str Hload]]; [left; exact Hnull|]. right.
  destruct p as [|b|]; [discriminate| |].
  - exact (handle_option_holds _ _ _ _ _ _ _ _ _ Hstep Hload).
  - exact (handle_option_port_name _ _ _ _ _ _ _ _ Hstep Hload).
Qed.

(** The four pointers of [main] after one more option. *)
Lemma handle_option_pointers v c optarg x s x' s' :
  handle_option v c optarg x s = (inl x', s') ->
  holds_string (mem x) (hostname x) /\ holds_string (mem x) (publicKey x)
  /\ holds_string (mem x) (nonce x) /\ holds_string (mem x) (gpsPort x) ->
  holds_string (mem x') (hostname x') /\ holds_string (mem x') (publicKey x')
  /\ holds_string (mem x') (nonce x') /\ holds_string (mem x') (gpsPort x').
Proof.
  intros Hstep (Hh & Hk & Hn & Hp).
  pose proof (handle_option_holds_string _ _ _ _ _ _ _ _ Hstep Hh) as Hh'.
  pose proof (handle_option_holds_string _ _ _ _ _ _ _ _ Hstep Hk) as Hk'.
  pose proof (handle_option_holds_string _ _ _ _ _ _ _ _ Hstep Hn) as Hn'.
  pose proof (handle_option_holds_string _ _ _ _ _ _ _ _ Hstep Hp) as Hp'.
  assert (c <> Opt_h -> holds_string (mem x') (hostname x')) as Kh
    by (intros Hc; rewrite (handle_option_hostname _ _ _ _ _ _ _ Hstep Hc);
        exact Hh').
  assert (c <> Opt_k -> holds_string (mem x') (publicKey x')) as Kk
    by (intros Hc; rewrite (handle_option_publicKey _ _ _ _ _ _ _ Hstep Hc);
        exact Hk').
  assert (c <> Opt_n -> holds_string (mem x') (nonce x')) as Kn
    by (intros Hc; rewrite (handle_option_nonce _ _ _ _ _ _ _ Hstep Hc);
        exact Hn').
  assert (c <> Opt_p -> holds_string (mem x') (gpsPort x')) as Kp
    by (intros Hc; rewrite (handle_option_gpsPort _ _ _ _ _ _ _ Hstep Hc);
        exact Hp').
  destruct c;
    try (repeat split;
         [apply Kh|apply Kk|apply Kn|apply Kp]; discriminate).
  - (* 'h' *)
    repeat split; [|apply Kk|apply Kn|apply Kp]; try discriminate.
    pose proof (handle_option_cases _ _ _ _ _ _ _ Hstep)
      as (arg & m' & -> & _).
    destruct (handle_option_h _ _ _ _ _ _ Hstep) as [_ Hload].
    right. eauto.
  - (* 'k' *)
    repeat split; [apply Kh| |apply Kn|apply Kp]; try discriminate.
    pose proof (handle_option_cases _ _ _ _ _ _ _ Hstep)
      as (arg & m' & -> & _).
    pose proof (handle_option_k _ _ _ _ _ _ Hstep) as Hload.
    right. eauto.
  - (* 'n' *)
    repeat split; [apply Kh|apply Kk| |apply Kp]; try discriminate.
    pose proof (handle_option_cases _ _ _ _ _ _ _ Hstep)
      as (arg & m' & -> & _).
    destruct (handle_option_n _ _ _ _ _ _ Hstep) as (_ & Hnonce & Hload).
    rewrite Hnonce. right. eauto.
  - (* 'p' *)
    repeat split; [apply Kh|apply Kk|apply Kn|]; try discriminate.
    pose proof (handle_option_cases _ _ _ _ _ _ _ Hstep)
      as (arg & m' & -> & _ & [(_ & Hcpy & ->)|[(_ & Hcpy & ->)|(_ & Hcpy & ->)]]);
      cbn [mem gpsPort set_mem set_gpsPort].
    + right. exists arg. exact (load_strcpy_same _ _ _ _ Hcpy).
    + destruct Hp as [Hnull|[str Hload]]; [left; exact Hnull|].
      destruct (pointer_eq_dec (gpsPort x) PortName) as [Heq|Hne].
      * right. exists arg. rewrite Heq.
        exact (load_strcpy_same _ _ _ _ Hcpy).
      * right. exists str.
        rewrite (load_strcpy_other _ _ _ _ _ Hcpy Hne). exact Hload.
    + right. exists arg. exact (load_strcpy_same _ _ _ _ Hcpy).
Qed.

(** X16.  When the option loop returns, each of [hostname], [publicKey],
    [nonce] and [gpsPort] is null or points to storage that holds a string,
    so the null tests and the string reads that follow in [main] are
    defined; and the heap has one block more for each option that calls
    [malloc], none of which the loop frees. *)
Theorem X_option_loop_pointers_hold v options :
  forall x s x' s',
    getopt_loop v options x s = (inl x', s') ->
    holds_string (mem x) (hostname x) /\ holds_string (mem x) (publicKey x)
    /\ holds_string (mem x) (nonce x) /\ holds_string (mem x) (gpsPort x) ->
    (holds_string (mem x') (hostname x') /\ holds_string (mem x') (publicKey x')
     /\ holds_string (mem x') (nonce x') /\ holds_string (mem x') (gpsPort x'))
    /\ List.length (heap (mem x'))
       = (List.length (heap (mem x)) + allocations v options)%nat.
Proof.
  induction options as [|[c optarg] options IH]; intros x s x' s'.
  - intros [= <- <-] Hx. split; [exact Hx|]. cbn. lia.
  - cbn [getopt_loop]. unfold bind.
    destruct (handle_option v c optarg x s) as [[x1|e] s1] eqn:Hstep;
      [|discriminate].
    intros Hrest Hx.
    destruct (IH _ _ _ _ Hrest (handle_option_pointers _ _ _ _ _ _ _ Hstep Hx))
      as [Hptr Hlen].
    split; [exact Hptr|].
    rewrite Hlen, (handle_option_heap_length _ _ _ _ _ _ _ Hstep).
    unfold allocations. cbn [List.filter fst].
    destruct (allocates v c); cbn [List.length]; lia.
Qed.





(** X18.  When no [--host] and no [--nonce] option follows it, the argument
    of a [--host] option is the string [craggy_makeRequest] is called
    with. *)
Theorem X_host_round_trip v pre host rest x0 s0 x s :
  Forall (fun o => fst o <> Opt_h /\ fst o <> Opt_n) rest ->
  getopt_loop v (pre ++ (Opt_h, Some host) :: rest) x0 s0 = (inl x, s) ->
  load (mem x) (hostname x) = Some host
  /\ forall (w : world) requestBuf s1,
       call_makeRequest w (mem x) (hostname x) requestBuf s1
       = (inl (craggy_makeRequest w (request_calls s1) host requestBuf),
          record_events [MakeRequest host requestBuf] (count_request_call s1)).
Proof.
  intros Hrest Hrun.
  rewrite getopt_loop_app in Hrun. unfold bind in Hrun.
  destruct (getopt_loop v pre x0 s0) as [[x1|e1] s1]; [|discriminate].
  cbn [getopt_loop] in Hrun. unfold bind in Hrun.
  destruct (handle_option v Opt_h (Some host) x1 s1) as [[x2|e2] s2] eqn:Hh;
    [|discriminate].
  destruct (handle_option_h _ _ _ _ _ _ Hh) as [Hblock Hload2].
  rewrite Hblock in Hload2.
  destruct (getopt_loop_kept _ _ Hrest _ _ _ _ _ _ Hrun Hload2)
    as (Hhost & _ & Hload).
  rewrite Hhost, Hblock.
  split; [exact Hload|].
  intros w requestBuf s3. unfold call_makeRequest, bind, defined, ret.
  rewrite Hload. reflexivity.
Qed.

(** X19.  In the GNSS tester the argument of the option ['p']
    ([--gpsport]) is copied into [simulator.port_name], an array of 256
    bytes: an argument of 256 characters or more overruns it, whatever
    options follow; a shorter one is stored there, [gpsPort] points to it,
    and no block is allocated. *)
Theorem X_port_name_bound pre arg rest x s x1 s1 :
  getopt_loop GnssTester pre x s = (inl x1, s1) ->
  ((256 <= strlen arg)%nat ->
   getopt_loop GnssTester (pre ++ (Opt_p, Some arg) :: rest) x s
   = (inr UndefinedBehaviour, s1))
  /\ ((strlen arg < 256)%nat ->
      exists x2,
        handle_option GnssTester Opt_p (Some arg) x1 s1 = (inl x2, s1)
        /\ gpsPort x2 = PortName
        /\ load (mem x2) (gpsPort x2) = Some arg
        /\ heap (mem x2) = heap (mem x1)).
Proof.
  intros Hpre. split.
  - intros Hlong. rewrite getopt_loop_app. unfold bind at 1. rewrite Hpre.
    cbn [getopt_loop]. unfold bind at 1.
    unfold handle_option, bind, defined, ret, raise, strcpy.
    destruct (Nat.leb_spec (strlen arg + 1) 256) as [Hfit|_]; [lia|].
    reflexivity.
  - intros Hshort. unfold handle_option, bind, defined, ret, raise, strcpy.
    destruct (Nat.leb_spec (strlen arg + 1) 256) as [_|Hover]; [|lia].
    eexists. split; [reflexivity|]. cbn. auto.
Qed.

Lemma handle_option_gpsPort_rtklib c optarg x s x' s' :
  handle_option RtklibTester c optarg x s = (inl x', s') ->
  gpsPort x' = gpsPort x.
Proof.
  intros Hstep. apply handle_option_cases in Hstep.
  destruct c;
    repeat match goal with
           | Hs : exists _, _ |- _ => destruct Hs
           | Hs : _ /\ _ |- _ => destruct Hs
           | Hs : _ \/ _ |- _ => destruct Hs
           end; subst; try discriminate; reflexivity.
Qed.

(** X26.  In the tester whose [main] follows [gps-sim.h], the case ['p']
    copies its argument into [simulator.port_name] and assigns nothing to
    [gpsPort]: whatever the options, [gpsPort] is still null when the
    option loop returns, so the usage check that follows, which tests
    [gpsPort == NULL], fails on every command line. *)
Theorem X_rtklib_tester_port_never_set options x s s' :
  getopt_loop RtklibTester options initial_vars s = (inl x, s') ->
  gpsPort x = NULL /\ usage_gnss x = true.
Proof.
  intros Hrun.
  assert (forall x0 s0,
            getopt_loop RtklibTester options x0 s0 = (inl x, s') ->
            gpsPort x = gpsPort x0) as Hkept.
  { clear Hrun. induction options as [|[c optarg] options IH]; intros x0 s0.
    - intros [= <- <-]. reflexivity.
    - cbn [getopt_loop]. unfold bind.
      destruct (handle_option RtklibTester c optarg x0 s0) as [[x1|e] s1]
        eqn:Hstep; [|discriminate].
      intros Hrest. rewrite (IH _ _ Hrest).
      exact (handle_option_gpsPort_rtklib _ _ _ _ _ _ Hstep). }
  pose proof (Hkept _ _ Hrun) as Hnull. cbn [gpsPort initial_vars] in Hnull.
  split; [exact Hnull|].
  unfold usage_gnss. rewrite Hnull. cbn [is_null]. apply orb_true_r.
Qed.

End OptionLoopFacts.

Section RepeatsFacts.

Context `{Externals} (w : world).

(** X20.  [repeats] is a [uint8_t]: the argument of the option ['r']
    counts modulo 256.  When it is the last option and a multiple of 256,
    [main] of [cli/main.c] prints its usage and returns 1; otherwise the
    loop gets the remainder as its number of turns. *)
Theorem X_repeats_counts_modulo_256 pre text x s s1 :
  getopt_loop NonGnss pre initial_vars s = (inl x, s1) ->
  getopt_loop NonGnss (pre ++ [(Opt_r, Some text)]) initial_vars s
  = (inl (set_repeats (atoi text mod 256) x),
     record_events [Printf (MsgPollFor (atoi text mod 256))] s1)
  /\ (atoi text mod 256 = 0 ->
      main_cli w (pre ++ [(Opt_r, Some text)]) s
      = (inr (Return 1),
         record_events [Printf (MsgPollFor 0); Printf MsgUsage] s1)).
Proof.
  intros Hpre.
  assert (getopt_loop NonGnss (pre ++ [(Opt_r, Some text)]) initial_vars s
          = (inl (set_repeats (atoi text mod 256) x),
             record_events [Printf (MsgPollFor (atoi text mod 256))] s1))
    as Hrun.
  { rewrite getopt_loop_app. unfold bind at 1. rewrite Hpre.
    cbn [getopt_loop handle_option]. unfold bind, defined, printf, emit, ret.
    reflexivity. }
  split; [exact Hrun|].
  intros Hzero.
  rewrite (main_cli_after_options _ _ _ _ _ Hrun).
  rewrite Hzero. cbn [repeats set_repeats].
  change (0 <? 1) with true. rewrite !orb_true_r.
  f_equal. apply state_eq; cbn; try reflexivity.
  rewrite <- app_assoc. reflexivity.
Qed.

End RepeatsFacts.

(** ** The serial driver: [print_hex], [UBX_MSGID] and [ubx_to_prn] *)

Lemma print_hex_turns_within turns : forall s,
  (turns <= List.length s)%nat ->
  Serial.print_hex_turns turns s = Some (firstn turns s).
Proof.
  induction turns as [|turns IH]; intros s Hlen; [reflexivity|].
  destruct s as [|byte rest]; cbn in Hlen; [lia|].
  cbn. rewrite IH by lia. reflexivity.
Qed.

Lemma print_hex_turns_beyond turns : forall s,
  (List.length s < turns)%nat -> Serial.print_hex_turns turns s = None.
Proof.
  induction turns as [|turns IH]; intros s Hlen; [lia|].
  destruct s as [|byte rest]; [reflexivity|].
  cbn in Hlen. cbn. rewrite IH by lia. reflexivity.
Qed.

(** X21.  [print_hex s len] logs [len + 1] bytes, one more than its
    argument says: on a buffer of exactly [len] bytes its last turn reads
    past the end, and on a longer one it logs the byte after the first
    [len].  Only a negative [len] logs nothing. *)
Theorem X_print_hex_reads_one_byte_more (s : list Z) (len : Z) :
  (len < 0 -> Serial.print_hex s len = Some [])
  /\ (0 <= len -> Z.of_nat (List.length s) <= len ->
      Serial.print_hex s len = None)
  /\ (0 <= len < 2 ^ 31 - 1 -> len < Z.of_nat (List.length s) ->
      Serial.print_hex s len = Some (firstn (S (Z.to_nat len)) s)).
Proof.
  unfold Serial.print_hex.
  assert (2 ^ 31 = 2147483648) as E31 by reflexivity.
  destruct (Z.eqb_spec len (2 ^ 31 - 1)) as [Hmax|Hless].
  - repeat split; intros; try reflexivity; lia.
  - split; [|split].
    + intros Hneg. replace (Z.to_nat (len + 1)) with 0%nat by lia.
      reflexivity.
    + intros Hlen Hs. apply print_hex_turns_beyond. lia.
    + intros Hlen Hs.
      replace (Z.to_nat (len + 1)) with (S (Z.to_nat len)) by lia.
      apply print_hex_turns_within. lia.
Qed.

Lemma X_print_hex_reads_one_byte_more_witness :
  Serial.print_hex [181; 98; 13; 1] (-1) = Some []
  /\ Serial.print_hex [181; 98; 13; 1] 4 = None
  /\ Serial.print_hex [181; 98; 13; 1; 16] 4 = Some [181; 98; 13; 1; 16].
Proof.
  split; [|split].
  - refine (proj1 (X_print_hex_reads_one_byte_more [181; 98; 13; 1] (-1)) _).
    lia.
  - refine (proj1 (proj2
      (X_print_hex_reads_one_byte_more [181; 98; 13; 1] 4)) _ _).
    + lia.
    + cbn. lia.
  - refine (proj2 (proj2
      (X_print_hex_reads_one_byte_more [181; 98; 13; 1; 16] 4)) _ _).
    + vm_compute. split; [discriminate|reflexivity].
    + cbn. lia.
Defined.

Lemma land_shiftl_8_byte c i : 0 <= i < 256 -> Z.land (Z.shiftl c 8) i = 0.
Proof.
  intros Hi. apply Z.bits_inj'. intros n Hn.
  rewrite Z.land_spec, Z.bits_0.
  destruct (Z_lt_le_dec n 8) as [Hlow|Hhigh].
  - rewrite Z.shiftl_spec_low by lia. reflexivity.
  - rewrite <- (Z.mod_small i (2 ^ 8)) by (change (2 ^ 8) with 256; lia).
    rewrite Z.mod_pow2_bits_high by lia. apply andb_false_r.
Qed.

Lemma lor_shiftl_8_byte c i :
  0 <= i < 256 -> Z.lor (Z.shiftl c 8) i = c * 256 + i.
Proof.
  intros Hi. pose proof (Z.add_lor_land (Z.shiftl c 8) i) as Hadd.
  rewrite (land_shiftl_8_byte c i Hi) in Hadd.
  rewrite Z.shiftl_mul_pow2 in Hadd |- * by lia.
  change (2 ^ 8) with 256 in Hadd |- *. lia.
Qed.

(** X22.  The message identifier that [ubx_parse] computes from the class
    byte and the identifier byte of a frame is [UBX_MSGID] of the two, that
    is [256 * class + id]: it fits [unsigned short], and both bytes are
    read back from it, so two messages never share an identifier. *)
Theorem X_ubx_msgid_round_trip cls id :
  0 <= cls < 256 -> 0 <= id < 256 ->
  Ubx.msgid_of cls id = Ubx.UBX_MSGID cls id
  /\ Ubx.UBX_MSGID cls id = 256 * cls + id
  /\ Z.shiftr (Ubx.UBX_MSGID cls id) 8 = cls
  /\ Z.land (Ubx.UBX_MSGID cls id) 255 = id.
Proof.
  intros Hcls Hid. unfold Ubx.msgid_of, Ubx.UBX_MSGID.
  rewrite (lor_shiftl_8_byte cls id Hid).
  split; [apply Z.mod_small; change (2 ^ 16) with 65536; lia|].
  split; [lia|]. split.
  - rewrite Z.shiftr_div_pow2 by lia. change (2 ^ 8) with 256.
    symmetry. apply (Z.div_unique _ _ _ id); lia.
  - change 255 with (Z.ones 8). rewrite Z.land_ones by lia.
    change (2 ^ 8) with 256. symmetry.
    apply (Z.mod_unique _ _ cls); lia.
Qed.

Lemma X_ubx_msgid_round_trip_witness :
  Ubx.msgid_of 13 1 = Ubx.UBX_MSGID 13 1
  /\ Ubx.UBX_MSGID 13 1 = 256 * 13 + 1
  /\ Z.shiftr (Ubx.UBX_MSGID 13 1) 8 = 13
  /\ Z.land (Ubx.UBX_MSGID 13 1) 255 = 1.
Proof. apply (X_ubx_msgid_round_trip 13 1); lia. Defined.

Lemma known_prn_spec p :
  Ubx.known_prn p = true
  <-> (1 <= p <= 96 \/ 120 <= p <= 163 \/ 173 <= p <= 182
       \/ 193 <= p <= 199 \/ 211 <= p <= 246).
Proof.
  unfold Ubx.known_prn.
  rewrite !orb_true_iff, !andb_true_iff, !Z.leb_le. lia.
Qed.

Ltac prn_cases :=
  unfold Ubx.ubx_to_prn; rewrite ?Z.gtb_ltb, ?Z.geb_leb;
  repeat match goal with
         | |- context [?a <? ?b] => destruct (Z.ltb_spec a b)
         | |- context [?a <=? ?b] => destruct (Z.leb_spec a b)
         end;
  unfold u8; change (2 ^ 8) with 256.

(** X23.  [ubx_to_prn] gives a constellation and a satellite number to the
    u-blox numbers 1..96, 120..163, 173..182, 193..199 and 211..246, and to
    no other: on those it returns what [ubx2_to_prn] makes of the pair, the
    satellite number is at least 1, and two different u-blox numbers never
    get the same pair; on every other number it returns 0 and leaves 0 in
    both outputs. *)
Theorem X_ubx_to_prn_pairs (ubx2_to_prn : Z -> Z -> Z) (p : Z) :
  (Ubx.known_prn p = false -> Ubx.ubx_to_prn ubx2_to_prn p = (0, 0, 0))
  /\ (Ubx.known_prn p = true ->
      exists gnssId svId,
        Ubx.ubx_to_prn ubx2_to_prn p = (ubx2_to_prn gnssId svId, gnssId, svId)
        /\ 0 <= gnssId <= 6 /\ 1 <= svId <= 158
        /\ forall q,
             Ubx.known_prn q = true ->
             snd (fst (Ubx.ubx_to_prn ubx2_to_prn q)) = gnssId ->
             snd (Ubx.ubx_to_prn ubx2_to_prn q) = svId ->
             p = q).
Proof.
  split.
  - intros Hp.
    assert (~ (1 <= p <= 96 \/ 120 <= p <= 163 \/ 173 <= p <= 182
               \/ 193 <= p <= 199 \/ 211 <= p <= 246)) as Hout
      by (rewrite <- known_prn_spec, Hp; discriminate).
    prn_cases; try reflexivity; exfalso; lia.
  - intros Hp. apply known_prn_spec in Hp.
    unfold Ubx.ubx_to_prn at 1. rewrite ?Z.gtb_ltb, ?Z.geb_leb.
    repeat match goal with
           | |- context [?a <? p] => destruct (Z.ltb_spec a p)
           | |- context [p <? ?b] => destruct (Z.ltb_spec p b)
           | |- context [p <=? ?b] => destruct (Z.leb_spec p b)
           end; try (exfalso; lia);
      (eexists _, _; split; [reflexivity|];
       unfold u8; change (2 ^ 8) with 256;
       rewrite ?Z.mod_small by lia;
       split; [lia|]; split; [lia|];
       intros q Hq; apply known_prn_spec in Hq;
       prn_cases; cbn [fst snd]; rewrite ?Z.mod_small by lia;
       intros; lia).
Qed.

Lemma X_ubx_to_prn_pairs_witness :
  Ubx.ubx_to_prn (fun gnssId svId => 1000 * gnssId + svId) 100 = (0, 0, 0)
  /\ exists gnssId svId,
       Ubx.ubx_to_prn (fun gnssId svId => 1000 * gnssId + svId) 160
       = (1000 * gnssId + svId, gnssId, svId)
       /\ 0 <= gnssId <= 6 /\ 1 <= svId <= 158
       /\ forall q,
            Ubx.known_prn q = true ->
            snd (fst (Ubx.ubx_to_prn
                        (fun gnssId svId => 1000 * gnssId + svId) q)) = gnssId ->
            snd (Ubx.ubx_to_prn
                   (fun gnssId svId => 1000 * gnssId + svId) q) = svId ->
            160 = q.
Proof.
  split.
  - refine (proj1 (X_ubx_to_prn_pairs _ 100) _). reflexivity.
  - refine (proj2 (X_ubx_to_prn_pairs _ 160) _). reflexivity.
Defined.

(** ** The pause between two exchanges and the edge of the offset check *)

Lemma count_is_sleep_none seconds evs :
  count is_sleep evs = 0%nat -> Forall (sleeps_for seconds) evs.
Proof.
  unfold count. induction evs as [|e evs IH]; [constructor|].
  destruct e; cbn; try discriminate; intros Hc; constructor; cbn; auto.
Qed.

Section Pauses.

Context `{Externals} (w : world).

Lemma request_loop_sleeps n m hostname nonceBytes rootPublicKey intervals :
  forall s,
  exists evs,
    trace (snd (request_loop w n m hostname nonceBytes rootPublicKey
                  intervals s))
    = trace s ++ evs
    /\ Forall (sleeps_for intervals) evs.
Proof.
  induction n as [|n IH]; intros s.
  - exists []. cbn. rewrite app_nil_r. auto.
  - destruct (craggy_createRequest nonceBytes) as [requestBuf|] eqn:Hreq.
    + rewrite (request_loop_step w _ _ _ _ _ _ _ s Hreq).
      destruct (exchange_cli_events w m hostname nonceBytes rootPublicKey
                  requestBuf (record_events [CreateRequest nonceBytes] s) Hreq)
        as (evx & Htr & _ & Hs & _).
      apply (count_is_sleep_none intervals) in Hs.
      destruct (exchange_cli w m hostname nonceBytes rootPublicKey requestBuf
                  (record_events [CreateRequest nonceBytes] s))
        as [[[]|e] s1]; cbn [snd] in Htr |- *.
      * destruct (IH (record_events [Sleep intervals] s1)) as (evn & Htn & Hn).
        exists ([CreateRequest nonceBytes] ++ evx ++ [Sleep intervals] ++ evn).
        rewrite Htn. cbn [trace record_events]. rewrite Htr.
        cbn [trace record_events]. rewrite <- !app_assoc.
        split; [reflexivity|].
        apply Forall_app. split; [repeat constructor|].
        apply Forall_app. split; [exact Hs|].
        apply Forall_app. split; [repeat constructor|exact Hn].
      * exists ([CreateRequest nonceBytes] ++ evx).
        rewrite Htr. cbn [trace record_events]. rewrite <- !app_assoc.
        split; [reflexivity|].
        apply Forall_app. split; [repeat constructor|exact Hs].
    + rewrite (request_loop_step_none w _ _ _ _ _ _ s Hreq).
      destruct (IH (record_events [Sleep intervals]
                      (record_events [CreateRequest nonceBytes] s)))
        as (evn & Htn & Hn).
      exists ([CreateRequest nonceBytes] ++ [Sleep intervals] ++ evn).
      rewrite Htn. cbn [trace record_events]. rewrite <- !app_assoc.
      split; [reflexivity|].
      apply Forall_app. split; [repeat constructor|].
      apply Forall_app. split; [repeat constructor|exact Hn].
Qed.

Lemma sleeps_for_printf seconds msgs :
  Forall (sleeps_for seconds) (map Printf msgs).
Proof. induction msgs; constructor; cbn; auto. Qed.

(** X24.  After the usage check of [cli/main.c], a run with one repeat
    never pauses: every [sleep] it calls is [sleep(0)].  With more repeats
    every pause is the value of [intervals], whatever the exchange before
    it has taken. *)
Theorem X_single_request_does_not_pause x s :
  exists evs,
    trace (snd (session_cli w x s)) = trace s ++ evs
    /\ Forall (sleeps_for (if repeats x =? 1 then 0 else intervals x)) evs
    /\ (repeats x = 1 -> Forall (sleeps_for 0) evs).
Proof.
  assert (exists evs,
            trace (snd (session_cli w x s)) = trace s ++ evs
            /\ Forall (sleeps_for (if repeats x =? 1 then 0 else intervals x))
                 evs) as (evs & Ht & Hall).
  { unfold session_cli. unfold bind at 1.
    destruct (decode_public_key_trace (mem x) (publicKey x) s) as [msgs1 Ht1].
    destruct (decode_public_key (mem x) (publicKey x) s)
      as [[rootPublicKey|e] s1]; cbn [snd] in Ht1 |- *.
    2: { exists (map Printf msgs1). split; [exact Ht1|].
         apply sleeps_for_printf. }
    unfold bind at 1.
    destruct (prepare_nonce_trace w (mem x) (nonce x) s1) as [msgs2 Ht2].
    destruct (prepare_nonce w (mem x) (nonce x) s1)
      as [[nonceBytes|e] s2]; cbn [snd] in Ht2 |- *.
    2: { exists (map Printf msgs1 ++ map Printf msgs2).
         rewrite Ht2, Ht1, <- app_assoc. split; [reflexivity|].
         apply Forall_app. split; apply sleeps_for_printf. }
    destruct (request_loop_sleeps (Z.to_nat (repeats x)) (mem x) (hostname x)
                nonceBytes rootPublicKey
                (if repeats x =? 1 then 0 else intervals x) s2)
      as (evs & Ht & Hall).
    exists (map Printf msgs1 ++ map Printf msgs2 ++ evs).
    rewrite Ht, Ht2, Ht1, <- !app_assoc. split; [reflexivity|].
    apply Forall_app. split; [apply sleeps_for_printf|].
    apply Forall_app. split; [apply sleeps_for_printf|exact Hall]. }
  exists evs. split; [exact Ht|]. split; [exact Hall|].
  intros Hone. rewrite Hone in Hall. exact Hall.
Qed.

(** X25.  The offset check of [cli/main.c] calls [imaxabs] on the offset as
    it is: for a verified exchange whose estimate is exactly 2^63
    microseconds away from the realtime clock the offset is [INT64_MIN],
    whose absolute value [int64_t] does not hold, and the C standard
    leaves the check undefined; the time has been printed by then. *)
Theorem X_offset_check_undefined_at_int64_min m hostname nonceBytes
    rootPublicKey requestBuf s d :
  answered_and_verified w m hostname nonceBytes rootPublicKey requestBuf s d ->
  u64 (estimate d - end_realtime_us d) = 2 ^ 63 ->
  system_offset d = INT64_MIN
  /\ exchange_cli w m hostname nonceBytes rootPublicKey requestBuf s
     = (inr UndefinedBehaviour, after_exchange (report_cli requestBuf d) s).
Proof.
  intros Hd Hoff.
  assert (system_offset d = INT64_MIN) as Hmin.
  { unfold system_offset, to_int64. rewrite Hoff.
    destruct (Z.ltb_spec (2 ^ 63) (2 ^ 63)) as [Hlt|_]; [lia|].
    reflexivity. }
  split; [exact Hmin|].
  rewrite (exchange_cli_verified w _ _ _ _ _ _ _ Hd), Hmin.
  reflexivity.
Qed.

End Pauses.

Lemma X_offset_check_undefined_at_int64_min_witness :
  let midpoint := 2 ^ 63 + 1625585148300000 - 500000 in
  @exchange_cli Sample.sample_externals
    (Sample.sample_world midpoint 1000000 1625585148300000)
    Sample.sample_memory (HeapBlock 0) (repeat 7 32%nat) []
    Sample.sample_request initial_state
  = (inr UndefinedBehaviour,
     after_exchange
       (report_cli Sample.sample_request
          (Sample.sample_data Sample.sample_host midpoint 1000000
             1625585148300000))
       initial_state).
Proof.
  intros midpoint.
  refine (proj2
    (@X_offset_check_undefined_at_int64_min Sample.sample_externals
       (Sample.sample_world midpoint 1000000 1625585148300000)
       Sample.sample_memory (HeapBlock 0) (repeat 7 32%nat) []
       Sample.sample_request initial_state
       (Sample.sample_data Sample.sample_host midpoint 1000000
          1625585148300000) _ _)).
  - repeat split.
  - vm_compute. reflexivity.
Defined.

(** ** The statements above on the sample environments *)

Lemma X_transport_failure_ends_run_witness :
  fst (@error_and_exit_labels 1 1
         (@request_loop Sample.sample_externals Scenarios.world_without_network
            4 Sample.sample_memory (HeapBlock 0) (repeat 7 32%nat)
            Sample.sample_key_bytes 30)
         initial_state)
  = inl 1.
Proof.
  rewrite (proj2
    (@X_transport_failure_ends_run Sample.sample_externals
       Scenarios.world_without_network 3 Sample.sample_memory (HeapBlock 0)
       (repeat 7 32%nat) Sample.sample_key_bytes Sample.sample_request 30
       initial_state Sample.sample_host (Sample.timespec_of_us 5000000000)
       (CraggyResultError 7)
       ltac:(reflexivity) ltac:(reflexivity) ltac:(reflexivity)
       ltac:(reflexivity))).
  reflexivity.
Defined.

Lemma X_clock_failure_aborts_witness :
  fst (@error_and_exit_labels 1 1
         (@request_loop Sample.sample_externals Scenarios.world_without_clock
            4 Sample.sample_memory (HeapBlock 0) (repeat 7 32%nat)
            Sample.sample_key_bytes 30)
         initial_state)
  = inr CallAbort.
Proof.
  rewrite (@X_clock_failure_aborts Sample.sample_externals
             Scenarios.world_without_clock 3 Sample.sample_memory (HeapBlock 0)
             (repeat 7 32%nat) Sample.sample_key_bytes Sample.sample_request 30
             initial_state ltac:(reflexivity) ltac:(reflexivity)).
  reflexivity.
Defined.

Lemma X_create_request_failure_is_silent_witness :
  @request_loop Scenarios.externals_without_request
    (Sample.world_answering Sample.genuine_response)
    2 Sample.sample_memory (HeapBlock 0) (repeat 7 32%nat)
    Sample.sample_key_bytes 30 initial_state
  = (inl tt,
     record_events
       [CreateRequest (repeat 7 32%nat); Sleep 30;
        CreateRequest (repeat 7 32%nat); Sleep 30] initial_state).
Proof.
  exact (@X_create_request_failure_is_silent Scenarios.externals_without_request
           (Sample.world_answering Sample.genuine_response)
           2 Sample.sample_memory (HeapBlock 0) (repeat 7 32%nat)
           Sample.sample_key_bytes 30 eq_refl initial_state).
Defined.

Lemma X_nonce_generator_failure_witness :
  fst (@main_cli Sample.sample_externals Scenarios.world_without_random
         Sample.host_and_key initial_state)
  = inl 1.
Proof.
  rewrite (proj1
    (@X_nonce_generator_failure Sample.sample_externals
       Scenarios.world_without_random Sample.host_and_key
       (Sample.parsed NonGnss Sample.host_and_key)
       (Sample.parsed_state NonGnss Sample.host_and_key)
       Sample.sample_key (CraggyResultError 9)
       ltac:(vm_compute; reflexivity)
       ltac:(repeat constructor; discriminate)
       ltac:(vm_compute; reflexivity)
       ltac:(vm_compute; reflexivity)
       ltac:(vm_compute; reflexivity)
       ltac:(reflexivity))).
  reflexivity.
Defined.

Lemma X_poll_loop_one_request_per_pulse_witness :
  exists evs reads,
    trace (snd (@poll_loop Sample.sample_externals
                  (Sample.sample_world 1625585148000000 1000000
                     1625585148300000)
                  5 2 Sample.sample_memory (HeapBlock 0) (repeat 7 32%nat)
                  Sample.sample_key_bytes initial_state))
    = trace initial_state ++ evs
    /\ tp_lock_reads
         (snd (@poll_loop Sample.sample_externals
                 (Sample.sample_world 1625585148000000 1000000
                    1625585148300000)
                 5 2 Sample.sample_memory (HeapBlock 0) (repeat 7 32%nat)
                 Sample.sample_key_bytes initial_state))
       = (tp_lock_reads initial_state + reads)%nat
    /\ count is_create_request evs
       = pulses_seen (Sample.sample_world 1625585148000000 1000000
                        1625585148300000)
           (tp_lock_reads initial_state) reads
    /\ (count is_create_request evs <= Z.to_nat 2)%nat
    /\ (count is_make_request evs <= count is_create_request evs)%nat
    /\ count is_sleep evs = 0%nat.
Proof.
  apply (@X_poll_loop_one_request_per_pulse Sample.sample_externals
           (Sample.sample_world 1625585148000000 1000000 1625585148300000)
           5 2 Sample.sample_memory (HeapBlock 0) (repeat 7 32%nat)
           Sample.sample_key_bytes initial_state).
  lia.
Defined.

Lemma X_poll_loop_waits_for_pulse_witness :
  @poll_loop Sample.sample_externals Scenarios.world_without_pulse
    1000 3 Sample.sample_memory (HeapBlock 0) (repeat 7 32%nat)
    Sample.sample_key_bytes initial_state
  = (inr OutOfFuel,
     {| trace := []; monotonic_calls := 0; realtime_calls := 0;
        request_calls := 0; tp_lock_reads := 1000 |}).
Proof.
  exact (@X_poll_loop_waits_for_pulse Sample.sample_externals
           Scenarios.world_without_pulse 1000 3 Sample.sample_memory
           (HeapBlock 0) (repeat 7 32%nat) Sample.sample_key_bytes
           (fun _ => eq_refl) eq_refl initial_state).
Defined.

Lemma X_main_gnss_exit_status_witness :
  (forall status,
     exit_status
       (fst (@main_gnss Sample.sample_externals
               (Sample.sample_world 1625585148000000 1000000 1625585148300000)
               5 Sample.host_and_key initial_state)) = Some status ->
     status = 1)
  /\ fst (@main_gnss Sample.sample_externals
            (Sample.sample_world 1625585148000000 1000000 1625585148300000)
            5 Scenarios.short_key_with_gps_port initial_state)
     = inl 0.
Proof.
  split.
  - exact (proj1
      (@X_main_gnss_exit_status Sample.sample_externals
         (Sample.sample_world 1625585148000000 1000000 1625585148300000)
         5 Sample.host_and_key initial_state
         (Sample.parsed GnssTester Sample.host_and_key)
         (Sample.parsed_state GnssTester Sample.host_and_key)
         ltac:(vm_compute; reflexivity))).
  - refine (proj2
      (@X_main_gnss_exit_status Sample.sample_externals
         (Sample.sample_world 1625585148000000 1000000 1625585148300000)
         5 Scenarios.short_key_with_gps_port initial_state
         (Sample.parsed GnssTester Scenarios.short_key_with_gps_port)
         (Sample.parsed_state GnssTester Scenarios.short_key_with_gps_port)
         _) Sample.short_key _ _ _).
    + vm_compute. reflexivity.
    + vm_compute. reflexivity.
    + vm_compute. reflexivity.
    + vm_compute. discriminate.
Defined.

Lemma X_option_loop_pointers_hold_witness :
  let x := Sample.parsed NonGnss
             (Sample.host_key_and_nonce Sample.sample_nonce) in
  (holds_string (mem x) (hostname x) /\ holds_string (mem x) (publicKey x)
   /\ holds_string (mem x) (nonce x) /\ holds_string (mem x) (gpsPort x))
  /\ List.length (heap (mem x)) = 3%nat.
Proof.
  intros x.
  refine (@X_option_loop_pointers_hold Sample.sample_externals NonGnss
            (Sample.host_key_and_nonce Sample.sample_nonce)
            initial_vars initial_state x
            (Sample.parsed_state NonGnss
               (Sample.host_key_and_nonce Sample.sample_nonce)) _ _).
  - vm_compute. reflexivity.
  - repeat split; left; reflexivity.
Defined.


Lemma X_host_round_trip_witness :
  let x := Sample.parsed NonGnss Sample.host_and_key in
  load (mem x) (hostname x) = Some Sample.sample_host.
Proof.
  intros x.
  refine (proj1
    (@X_host_round_trip Sample.sample_externals NonGnss
       [] Sample.sample_host [(Opt_k, Some Sample.sample_key)]
       initial_vars initial_state x
       (Sample.parsed_state NonGnss Sample.host_and_key) _ _)).
  - repeat constructor; discriminate.
  - vm_compute. reflexivity.
Defined.

Lemma X_port_name_bound_witness :
  @getopt_loop Sample.sample_externals GnssTester
    (Sample.host_and_key ++ [(Opt_p, Some Scenarios.long_port)])
    initial_vars initial_state
  = (inr UndefinedBehaviour, Sample.parsed_state GnssTester Sample.host_and_key)
  /\ exists x2,
       @handle_option Sample.sample_externals GnssTester Opt_p
         (Some "/dev/ttyACM0"%string)
         (Sample.parsed GnssTester Sample.host_and_key)
         (Sample.parsed_state GnssTester Sample.host_and_key)
       = (inl x2, Sample.parsed_state GnssTester Sample.host_and_key)
       /\ gpsPort x2 = PortName
       /\ load (mem x2) (gpsPort x2) = Some "/dev/ttyACM0"%string
       /\ heap (mem x2)
          = heap (mem (Sample.parsed GnssTester Sample.host_and_key)).
Proof.
  split.
  - refine (proj1
      (@X_port_name_bound Sample.sample_externals Sample.host_and_key
         Scenarios.long_port [] initial_vars initial_state
         (Sample.parsed GnssTester Sample.host_and_key)
         (Sample.parsed_state GnssTester Sample.host_and_key) _) _).
    + vm_compute. reflexivity.
    + vm_compute. lia.
  - refine (proj2
      (@X_port_name_bound Sample.sample_externals Sample.host_and_key
         "/dev/ttyACM0"%string [] initial_vars initial_state
         (Sample.parsed GnssTester Sample.host_and_key)
         (Sample.parsed_state GnssTester Sample.host_and_key) _) _).
    + vm_compute. reflexivity.
    + vm_compute. lia.
Defined.

Lemma X_repeats_counts_modulo_256_witness :
  fst (@main_cli Sample.sample_externals
         (Sample.world_answering Sample.genuine_response)
         (Scenarios.with_repeats "256") initial_state)
  = inr (Return 1).
Proof.
  unfold Scenarios.with_repeats.
  rewrite (proj2
    (@X_repeats_counts_modulo_256 Sample.sample_externals
       (Sample.world_answering Sample.genuine_response)
       Sample.host_and_key "256"%string
       (Sample.parsed NonGnss Sample.host_and_key) initial_state
       (Sample.parsed_state NonGnss Sample.host_and_key)
       ltac:(vm_compute; reflexivity))
    ltac:(vm_compute; reflexivity)).
  reflexivity.
Defined.

Lemma X_rtklib_tester_port_never_set_witness :
  let x := Sample.parsed RtklibTester Scenarios.with_gps_port in
  gpsPort x = NULL /\ usage_gnss x = true.
Proof.
  intros x.
  refine (@X_rtklib_tester_port_never_set Sample.sample_externals
            Scenarios.with_gps_port x initial_state
            (Sample.parsed_state RtklibTester Scenarios.with_gps_port) _).
  vm_compute. reflexivity.
Defined.
